(** * Scout: the result-synchronisation pipeline of the two front ends

    The repository holds two browser front ends.  The sheet variant
    (the file that declares [currentSalons], [loadData], [toggleFavorite],
    [sortSalons] and [applyFilterAndRender]) keeps a set of salon records in
    step with a spreadsheet; the AI variant ([src/index.tsx]) searches with a
    generative model, filters the answer and exports it as CSV.

    The development has three layers.
    - [JS]: the part of the JavaScript run time the two programs rely on:
      UTF-16 strings, binary64 numbers with [parseFloat] and
      [Number.prototype.toString], plain objects, [JSON.stringify], [btoa],
      [encodeURIComponent].
    - [Sheet] and [Scout]: the functions of the two source files, written
      in a state-and-exception monad over the page state.
    - the properties of the specification, stated on those functions. *)

From Stdlib Require Import ZArith NArith String Ascii List Lia Bool.
From Stdlib Require Import Floats.SpecFloat.
From stdpp Require Import base tactics option list gmap.
Import ListNotations.

(* ===================================================================== *)
(** * The JavaScript run time                                              *)
(* ===================================================================== *)

Module JS.

(** ** Strings

    A JavaScript string is a sequence of UTF-16 code units.  Code units are
    kept as [N]; every function below that looks at a code unit says what it
    does with each value, so no bound on them is needed. *)

Abbreviation jsstring := (list N).

Fixpoint lit (s : string) : jsstring :=
  match s with
  | EmptyString => []
  | String a r => N_of_ascii a :: lit r
  end.
Arguments lit : simpl never.

Fixpoint str_eqb (a b : jsstring) : bool :=
  match a, b with
  | [], [] => true
  | x :: a', y :: b' => N.eqb x y && str_eqb a' b'
  | _, _ => false
  end.

Fixpoint join (sep : jsstring) (parts : list jsstring) : jsstring :=
  match parts with
  | [] => []
  | [p] => p
  | p :: rest => p ++ sep ++ join sep rest
  end.

(** [WhiteSpace] and [LineTerminator] of ECMA-262, the characters that
    [String.prototype.trim] and [parseFloat] strip. *)
Definition is_whitespace (c : N) : bool :=
  ((9 <=? c) && (c <=? 13) || (c =? 32) || (c =? 160) || (c =? 5760)
   || (8192 <=? c) && (c <=? 8202) || (c =? 8232) || (c =? 8233)
   || (c =? 8239) || (c =? 8287) || (c =? 12288) || (c =? 65279))%N.

Fixpoint trimStart (s : jsstring) : jsstring :=
  match s with
  | c :: r => if is_whitespace c then trimStart r else s
  | [] => []
  end.

Definition trimEnd (s : jsstring) : jsstring := rev (trimStart (rev s)).

Definition trim (s : jsstring) : jsstring := trimEnd (trimStart s).

Fixpoint startsWith (s p : jsstring) : bool :=
  match p, s with
  | [], _ => true
  | x :: p', y :: s' => N.eqb x y && startsWith s' p'
  | _ :: _, [] => false
  end.

(** [s.includes(q)]: [q] occurs in [s] as a contiguous run of code units. *)
Fixpoint includes (s q : jsstring) : bool :=
  startsWith s q ||
  match s with
  | [] => false
  | _ :: r => includes r q
  end.

Fixpoint uint_units (d : Decimal.uint) : jsstring :=
  match d with
  | Decimal.Nil => []
  | Decimal.D0 r => 48%N :: uint_units r
  | Decimal.D1 r => 49%N :: uint_units r
  | Decimal.D2 r => 50%N :: uint_units r
  | Decimal.D3 r => 51%N :: uint_units r
  | Decimal.D4 r => 52%N :: uint_units r
  | Decimal.D5 r => 53%N :: uint_units r
  | Decimal.D6 r => 54%N :: uint_units r
  | Decimal.D7 r => 55%N :: uint_units r
  | Decimal.D8 r => 56%N :: uint_units r
  | Decimal.D9 r => 57%N :: uint_units r
  end.

(** The decimal numeral of a natural number, without leading zeros. *)
Definition decimal (n : N) : jsstring := uint_units (N.to_uint n).

Definition is_ascii (c : N) : bool := (c <? 128)%N.

Definition ascii_lower (c : N) : N :=
  if ((65 <=? c) && (c <=? 90))%N then (c + 32)%N else c.

Definition ascii_upper (c : N) : N :=
  if ((97 <=? c) && (c <=? 122))%N then (c - 32)%N else c.

Definition is_ascii_upper (c : N) : bool := ((65 <=? c) && (c <=? 90))%N.

(** ** Numbers

    A Number is an IEEE 754 binary64 value, kept in the canonical form of
    [spec_float]: [S754_finite s m e] is (-1)^s * m * 2^e with
    2^52 <= m < 2^53, or e = -1074 and m < 2^52. *)

Abbreviation number := spec_float.

(** a/b >= 2^e, for positive a and b. *)
Definition ratio_ge_pow2 (a b e : Z) : bool :=
  (if 0 <=? e then b * 2 ^ e <=? a else b <=? a * 2 ^ (- e))%Z.

(** The binary64 value nearest to the rational a/b (a >= 0, b > 0), ties
    to even: what ECMA-262 calls the Number value for a/b. *)
Definition of_ratio (neg : bool) (a b : Z) : number :=
  (if a =? 0 then S754_zero neg else
   let e0 := Z.log2 a - Z.log2 b in
   let e := if ratio_ge_pow2 a b e0 then e0 else e0 - 1 in
   let ex := Z.max (e - 52) (-1074) in
   let '(n, d) := if 0 <=? ex then (a, b * 2 ^ ex) else (a * 2 ^ (- ex), b) in
   let q := n / d in
   let r := n mod d in
   let m := match 2 * r ?= d with
            | Lt => q
            | Gt => q + 1
            | Eq => if Z.even q then q else q + 1
            end in
   let '(m, ex) := if m =? 2 ^ 53 then (2 ^ 52, ex + 1) else (m, ex) in
   if m =? 0 then S754_zero neg
   else if 971 <? ex then S754_infinity neg
   else S754_finite neg (Z.to_pos m) ex)%Z.

(** The Number value for m * 10^e10.  The two early exits only avoid
    building powers of ten for exponents far outside the binary64 range. *)
Definition of_decimal (neg : bool) (m e10 : Z) : number :=
  (if m =? 0 then S754_zero neg
   else if 400 <? e10 then S754_infinity neg
   else if e10 + Z.log2 m <? -1200 then S754_zero neg
   else if 0 <=? e10 then of_ratio neg (m * 10 ^ e10) 1
   else of_ratio neg m (10 ^ (- e10)))%Z.

Definition of_Z (z : Z) : number :=
  of_ratio (z <? 0)%Z (Z.abs z) 1.

Definition number_eqb (x y : number) : bool :=
  match x, y with
  | S754_zero a, S754_zero b => Bool.eqb a b
  | S754_infinity a, S754_infinity b => Bool.eqb a b
  | S754_finite a m e, S754_finite b m' e' =>
      Bool.eqb a b && Pos.eqb m m' && Z.eqb e e'
  | _, _ => false
  end.

Definition isNaN (x : number) : bool :=
  match x with S754_nan => true | _ => false end.

Definition is_finite (x : number) : bool :=
  match x with S754_zero _ | S754_finite _ _ _ => true | _ => false end.

(** [x < y] and [x > y] on Numbers; both are false when either is NaN. *)
Definition number_lt (x y : number) : bool := SFltb x y.
Definition number_gt (x y : number) : bool := SFltb y x.

(** [x === y] on Numbers. *)
Definition number_equals (x y : number) : bool := SFeqb x y.

Definition number_add (x y : number) : number := SFadd 53 1024 x y.

(** *** Number.prototype.toString, radix 10 *)

(** a/b >= 10^n. *)
Definition ratio_ge_pow10 (a b n : Z) : bool :=
  (if 0 <=? n then b * 10 ^ n <=? a else b <=? a * 10 ^ (- n))%Z.

Fixpoint first_above (fuel : nat) (a b n : Z) : Z :=
  match fuel with
  | O => n
  | S f => if ratio_ge_pow10 a b n then first_above f a b (n + 1)%Z else n
  end.

(** The n with 10^(n-1) <= a/b < 10^n; the estimate from the binary
    logarithms is at most two below it. *)
Definition decimal_point (a b : Z) : Z :=
  first_above 6 a b (((Z.log2 a - Z.log2 b) * 30103) / 100000 - 1)%Z.

(** The k-digit decimals next to a/b, kept when they read back as [x];
    of two that do, the nearer one, as the note in ECMA-262 asks. *)
Definition shortest_at (x : number) (a b n k : Z) : option (Z * Z) :=
  (let p := n - k in
   let '(num, den) := if 0 <=? p then (a, b * 10 ^ p) else (a * 10 ^ (- p), b) in
   let lo := num / den in
   let hi := lo + 1 in
   let ok s := number_eqb (of_decimal false s p) x in
   match ok lo, ok hi with
   | true, true =>
       match 2 * num ?= (2 * lo + 1) * den with
       | Lt => Some (lo, p)
       | Gt => Some (hi, p)
       | Eq => Some (if Z.even lo then lo else hi, p)
       end
   | true, false => Some (lo, p)
   | false, true => Some (hi, p)
   | false, false => None
   end)%Z.

Fixpoint shortest_from (fuel : nat) (x : number) (a b n k : Z) : Z * Z :=
  match fuel with
  | O => (0, 0)%Z
  | S f => match shortest_at x a b n k with
           | Some r => r
           | None => shortest_from f x a b n (k + 1)%Z
           end
  end.

Fixpoint strip_zeros (fuel : nat) (s p : Z) : Z * Z :=
  match fuel with
  | O => (s, p)
  | S f => if ((s mod 10 =? 0) && negb (s =? 0))%Z
           then strip_zeros f (s / 10)%Z (p + 1)%Z else (s, p)
  end.

Definition zeros (n : Z) : jsstring := repeat 48%N (Z.to_nat n).

(** Steps 6 to 10 of Number::toString: the digits [ds] of s and the
    position n of the decimal point. *)
Definition format_digits (ds : jsstring) (n : Z) : jsstring :=
  let k := Z.of_nat (length ds) in
  if ((k <=? n) && (n <=? 21))%Z then ds ++ zeros (n - k)
  else if ((0 <? n) && (n <=? 21))%Z then
    firstn (Z.to_nat n) ds ++ [46%N] ++ skipn (Z.to_nat n) ds
  else if ((-6 <? n) && (n <=? 0))%Z then
    [48%N; 46%N] ++ zeros (- n) ++ ds
  else
    let e := (n - 1)%Z in
    let sign := if (0 <=? e)%Z then 43%N else 45%N in
    let expo := [101%N; sign] ++ decimal (Z.to_N (Z.abs e)) in
    match ds with
    | [d] => d :: expo
    | d :: rest => d :: 46%N :: rest ++ expo
    | [] => expo
    end.

Definition Number_toString (x : number) : jsstring :=
  match x with
  | S754_nan => lit "NaN"
  | S754_zero _ => lit "0"
  | S754_infinity neg => (if neg then [45%N] else []) ++ lit "Infinity"
  | S754_finite neg m e =>
      let '(a, b) := if (0 <=? e)%Z then (Z.pos m * 2 ^ e, 1)%Z
                     else (Z.pos m, 2 ^ (- e))%Z in
      let n := decimal_point a b in
      let '(s, p) := shortest_from 17 (S754_finite false m e) a b n 1 in
      let '(s, p) := strip_zeros 20 s p in
      let ds := decimal (Z.to_N s) in
      (if neg then [45%N] else []) ++ format_digits ds (p + Z.of_nat (length ds))
  end.

(** *** parseFloat *)

Definition is_digit (c : N) : bool := ((48 <=? c) && (c <=? 57))%N.

Fixpoint span_digits (s : jsstring) : jsstring * jsstring :=
  match s with
  | c :: r => if is_digit c
              then let '(ds, rest) := span_digits r in (c :: ds, rest)
              else ([], s)
  | [] => ([], [])
  end.

Definition digits_value (ds : jsstring) : Z :=
  fold_left (fun acc d => (10 * acc + (Z.of_N d - 48))%Z) ds 0%Z.

(** The value of an ExponentPart at the head of [s]; 0 when there is none
    (an "e" that no digit follows does not belong to the literal). *)
Definition parse_exponent (s : jsstring) : Z :=
  match s with
  | c :: r =>
      if ((c =? 101) || (c =? 69))%N then
        let '(neg, r') := match r with
                          | 43%N :: r' => (false, r')
                          | 45%N :: r' => (true, r')
                          | _ => (false, r)
                          end in
        match fst (span_digits r') with
        | [] => 0%Z
        | ds => if neg then (- digits_value ds)%Z else digits_value ds
        end
      else 0%Z
  | [] => 0%Z
  end.

(** The longest prefix of [s] that is a StrUnsignedDecimalLiteral. *)
Definition parse_unsigned (neg : bool) (s : jsstring) : number :=
  if startsWith s (lit "Infinity") then S754_infinity neg else
  let '(ip, r1) := span_digits s in
  let '(fp, r2) := match r1 with
                   | 46%N :: r => span_digits r
                   | _ => ([], r1)
                   end in
  match ip, fp with
  | [], [] => S754_nan
  | _, _ => of_decimal neg (digits_value (ip ++ fp))
                       (parse_exponent r2 - Z.of_nat (length fp))%Z
  end.

Definition parseFloat_string (s : jsstring) : number :=
  match trimStart s with
  | 43%N :: r => parse_unsigned false r
  | 45%N :: r => parse_unsigned true r
  | t => parse_unsigned false t
  end.

(** ** Values

    Values are trees: an object or array nested in a record is held in
    place.  The records the programs mutate live in a store of their own
    (see [Sheet.state]); nothing in the two files writes to a nested one. *)

#[warnings="-register-all"]
Inductive jsval :=
| JUndefined
| JNull
| JBool (b : bool)
| JNum (n : number)
| JStr (s : jsstring)
| JArr (elems : list jsval)
| JObj (props : list (jsstring * jsval)).

(** The own properties of a plain object, in creation order. *)
Abbreviation object := (list (jsstring * jsval)).

Definition truthy (v : jsval) : bool :=
  match v with
  | JUndefined | JNull => false
  | JBool b => b
  | JNum (S754_zero _) | JNum S754_nan => false
  | JNum _ => true
  | JStr [] => false
  | JStr _ => true
  | JArr _ | JObj _ => true
  end.

(** [a || b] and [a ?? b]. *)
Definition or_else (a b : jsval) : jsval := if truthy a then a else b.

Definition nullish (a b : jsval) : jsval :=
  match a with JUndefined | JNull => b | _ => a end.

Definition is_string (v : jsval) : bool :=
  match v with JStr _ => true | _ => false end.

(** [String(v)], which is also what [v.toString()] returns wherever the
    sources call it (each call is guarded against null and undefined). *)
Fixpoint ToString (v : jsval) : jsstring :=
  match v with
  | JUndefined => lit "undefined"
  | JNull => lit "null"
  | JBool b => if b then lit "true" else lit "false"
  | JNum n => Number_toString n
  | JStr s => s
  | JArr elems =>
      join (lit ",")
           (map (fun e => match e with
                          | JUndefined | JNull => []
                          | _ => ToString e
                          end) elems)
  | JObj _ => lit "[object Object]"
  end.

Definition ToNumber_primitive (v : jsval) : number :=
  match v with
  | JNull => S754_zero false
  | JBool b => if b then of_Z 1 else S754_zero false
  | JNum n => n
  | _ => S754_nan
  end.

(** [a + b]: arrays and plain objects become strings first; with a string
    on either side the result is the concatenation, otherwise the sum. *)
Definition js_add (a b : jsval) : jsval :=
  match a, b with
  | (JStr _ | JArr _ | JObj _), _ | _, (JStr _ | JArr _ | JObj _) =>
      JStr (ToString a ++ ToString b)
  | _, _ => JNum (number_add (ToNumber_primitive a) (ToNumber_primitive b))
  end.

Definition parseFloat (v : jsval) : number := parseFloat_string (ToString v).

(** [a === b].  Nested objects carry no identity here, so two of them
    never compare equal; the sources apply [===] to [rowIndex] values,
    element counts and strings only. *)
Definition strict_equals (a b : jsval) : bool :=
  match a, b with
  | JUndefined, JUndefined | JNull, JNull => true
  | JBool x, JBool y => Bool.eqb x y
  | JNum x, JNum y => number_equals x y
  | JStr x, JStr y => str_eqb x y
  | _, _ => false
  end.

(** *** Plain objects

    Reads see own properties only.  A key that names a member a plain
    object inherits from [Object.prototype] ([constructor], [toString],
    ...) reads as that member when it is not an own property; such keys
    are outside what [obj_get] describes. *)

Fixpoint obj_get (o : object) (k : jsstring) : jsval :=
  match o with
  | [] => JUndefined
  | (k', v) :: r => if str_eqb k' k then v else obj_get r k
  end.

Definition has_own (o : object) (k : jsstring) : bool :=
  existsb (fun p => str_eqb (fst p) k) o.

Fixpoint obj_put (o : object) (k : jsstring) (v : jsval) : object :=
  match o with
  | [] => [(k, v)]
  | (k', v') :: r =>
      if str_eqb k' k then (k', v) :: r else (k', v') :: obj_put r k v
  end.

(** [o[k] = v] on a plain object.  The key [__proto__], unless it is an own
    property already, reaches the accessor of [Object.prototype], which
    creates no own property. *)
Definition obj_set (o : object) (k : jsstring) (v : jsval) : object :=
  if str_eqb k (lit "__proto__") && negb (has_own o k) then o
  else obj_put o k v.

(** The array index a key denotes, if any: the canonical numeral of an
    integer below 2^32 - 1. *)
Definition array_index (k : jsstring) : option N :=
  match k with
  | [] => None
  | _ =>
      if forallb is_digit k then
        let n := Z.to_N (digits_value k) in
        if str_eqb (decimal n) k && (n <? 4294967295)%N then Some n else None
      else None
  end.

Fixpoint insert_by_index {A} (n : N) (x : A) (l : list (N * A)) : list (N * A) :=
  match l with
  | [] => [(n, x)]
  | (m, y) :: r =>
      if (n <? m)%N then (n, x) :: l else (m, y) :: insert_by_index n x r
  end.

(** Property enumeration order: array indices ascending, then the other
    keys in creation order. *)
Fixpoint indexed_props {A} (o : list (jsstring * A)) : list (N * (jsstring * A)) :=
  match o with
  | [] => []
  | p :: r =>
      match array_index (fst p) with
      | Some n => insert_by_index n p (indexed_props r)
      | None => indexed_props r
      end
  end.

Definition named_props {A} (o : list (jsstring * A)) : list (jsstring * A) :=
  List.filter
    (fun p => match array_index (fst p) with Some _ => false | None => true end) o.

Definition enumerate {A} (o : list (jsstring * A)) : list (jsstring * A) :=
  map snd (indexed_props o) ++ named_props o.

Definition Object_keys (o : object) : list jsstring := map fst (enumerate o).

(** ** JSON.stringify *)

Definition hex_lower (n : N) : N := if (n <? 10)%N then (48 + n)%N else (87 + n)%N.
Definition hex_upper (n : N) : N := if (n <? 10)%N then (48 + n)%N else (55 + n)%N.

Definition unicode_escape (c : N) : jsstring :=
  [92; 117; hex_lower (c / 4096 mod 16); hex_lower (c / 256 mod 16);
   hex_lower (c / 16 mod 16); hex_lower (c mod 16)]%N.

Definition is_high_surrogate (c : N) : bool := ((55296 <=? c) && (c <=? 56319))%N.
Definition is_low_surrogate (c : N) : bool := ((56320 <=? c) && (c <=? 57343))%N.

(** The escape of one code unit that is not part of a surrogate pair. *)
Definition json_escape (c : N) : jsstring :=
  if (c =? 8)%N then lit "\b"
  else if (c =? 9)%N then lit "\t"
  else if (c =? 10)%N then lit "\n"
  else if (c =? 12)%N then lit "\f"
  else if (c =? 13)%N then lit "\r"
  else if (c =? 34)%N then [92; 34]%N
  else if (c =? 92)%N then [92; 92]%N
  else if (c <? 32)%N || is_high_surrogate c || is_low_surrogate c
       then unicode_escape c
  else [c].

(** QuoteJSONString without the enclosing quotes: a high surrogate
    followed by a low one passes through as a pair. *)
Fixpoint quote_body (s : jsstring) : jsstring :=
  match s with
  | [] => []
  | c :: r =>
      match r with
      | d :: r' =>
          if is_high_surrogate c && is_low_surrogate d
          then c :: d :: quote_body r'
          else json_escape c ++ quote_body r
      | [] => json_escape c
      end
  end.

Definition quote (s : jsstring) : jsstring := [34%N] ++ quote_body s ++ [34%N].

Definition keep_some {A} (l : list (jsstring * option A)) : list (jsstring * A) :=
  flat_map (fun p => match snd p with Some x => [(fst p, x)] | None => [] end) l.

(** [JSON.stringify(v)] with no replacer and no indentation; [None] is
    the [undefined] it returns for an undefined argument. *)
Fixpoint stringify (v : jsval) : option jsstring :=
  match v with
  | JUndefined => None
  | JNull => Some (lit "null")
  | JBool b => Some (if b then lit "true" else lit "false")
  | JNum n => Some (if is_finite n then Number_toString n else lit "null")
  | JStr s => Some (quote s)
  | JArr elems =>
      Some ([91%N]
            ++ join [44%N]
                 (map (fun e => match stringify e with
                                | Some t => t
                                | None => lit "null"
                                end) elems)
            ++ [93%N])
  | JObj props =>
      Some ([123%N]
            ++ join [44%N]
                 (map (fun p => quote (fst p) ++ [58%N] ++ snd p)
                      (enumerate
                         (keep_some (map (fun p => (fst p, stringify (snd p))) props))))
            ++ [125%N])
  end.

Definition JSON_stringify (v : jsval) : jsstring :=
  match stringify v with Some s => s | None => lit "undefined" end.

(** ** Exceptions *)

(** What a rejected request of the spreadsheet client carries:
    [err.result.error], with its [status] and [message] when present. *)
Record gapi_error := {
  error_status : option jsstring;
  error_message : option jsstring
}.

Inductive exn :=
| InvalidCharacterError          (* btoa *)
| URIError                       (* encodeURIComponent *)
| TypeError                      (* a method call on a value that lacks it *)
| LeafletError                   (* an exception raised inside Leaflet *)
| RequestFailed (e : option gapi_error).

Inductive result (A : Type) :=
| Ok (a : A)
| Throw (e : exn).
Arguments Ok {A} a.
Arguments Throw {A} e.

(** ** btoa *)

Definition base64_char (n : N) : N :=
  (if n <? 26 then 65 + n
   else if n <? 52 then 97 + (n - 26)
   else if n <? 62 then 48 + (n - 52)
   else if n =? 62 then 43 else 47)%N.

Fixpoint base64 (bytes : list N) : jsstring :=
  match bytes with
  | [] => []
  | [a] =>
      [base64_char (a / 4); base64_char (a mod 4 * 16); 61; 61]%N
  | [a; b] =>
      [base64_char (a / 4); base64_char (a mod 4 * 16 + b / 16);
       base64_char (b mod 16 * 4); 61]%N
  | a :: b :: c :: r =>
      [base64_char (a / 4); base64_char (a mod 4 * 16 + b / 16);
       base64_char (b mod 16 * 4 + c / 64); base64_char (c mod 64)]%N
      ++ base64 r
  end.

(** [btoa(s)]: every code unit must be a byte. *)
Definition btoa (s : jsstring) : result jsstring :=
  if forallb (fun c => (c <=? 255)%N) s then Ok (base64 s)
  else Throw InvalidCharacterError.

(** ** encodeURIComponent *)

Definition is_alnum (c : N) : bool :=
  ((65 <=? c) && (c <=? 90) || (97 <=? c) && (c <=? 122) || is_digit c)%N.

(** uriUnreserved: letters, digits and the marks - _ . ! ~ * ' ( ) *)
Definition uri_unreserved (c : N) : bool :=
  (is_alnum c || (c =? 45) || (c =? 95) || (c =? 46) || (c =? 33)
   || (c =? 126) || (c =? 42) || (c =? 39) || (c =? 40) || (c =? 41))%N.

Definition utf8 (cp : N) : list N :=
  (if cp <? 128 then [cp]
   else if cp <? 2048 then [192 + cp / 64; 128 + cp mod 64]
   else if cp <? 65536 then
     [224 + cp / 4096; 128 + cp / 64 mod 64; 128 + cp mod 64]
   else [240 + cp / 262144; 128 + cp / 4096 mod 64;
         128 + cp / 64 mod 64; 128 + cp mod 64])%N.

Definition percent (byte : N) : jsstring :=
  [37; hex_upper (byte / 16); hex_upper (byte mod 16)]%N.

Definition percent_encode (cp : N) : jsstring := flat_map percent (utf8 cp).

Fixpoint encode_units (s : jsstring) : result jsstring :=
  match s with
  | [] => Ok []
  | c :: r =>
      if uri_unreserved c then
        match encode_units r with
        | Ok t => Ok (c :: t)
        | Throw e => Throw e
        end
      else if is_low_surrogate c then Throw URIError
      else if is_high_surrogate c then
        match r with
        | d :: r' =>
            if is_low_surrogate d then
              match encode_units r' with
              | Ok t =>
                  Ok (percent_encode (65536 + (c - 55296) * 1024 + (d - 56320))%N ++ t)
              | Throw e => Throw e
              end
            else Throw URIError
        | [] => Throw URIError
        end
      else
        match encode_units r with
        | Ok t => Ok (percent_encode c ++ t)
        | Throw e => Throw e
        end
  end.

Definition encodeURIComponent (v : jsval) : result jsstring :=
  encode_units (ToString v).

(** ** Computations: state passing with exceptions

    A statement maps the state to the state it leaves and either a value
    or the exception it threw; what was written before a throw stays. *)

Definition M (S A : Type) : Type := S -> S * result A.

Definition ret {S A} (a : A) : M S A := fun s => (s, Ok a).

Definition bind {S A B} (c : M S A) (k : A -> M S B) : M S B :=
  fun s => match c s with
           | (s', Ok a) => k a s'
           | (s', Throw e) => (s', Throw e)
           end.

Definition throw {S A} (e : exn) : M S A := fun s => (s, Throw e).

Definition get {S} : M S S := fun s => (s, Ok s).

Definition modify {S} (f : S -> S) : M S unit := fun s => (f s, Ok tt).

Definition lift {S A} (r : result A) : M S A := fun s => (s, r).

(** [try { c } catch (err) { h err }] *)
Definition try_catch {S A} (c : M S A) (h : exn -> M S A) : M S A :=
  fun s => match c s with
           | (s', Ok a) => (s', Ok a)
           | (s', Throw e) => h e s'
           end.

(** [try { c } finally { f }], for an [f] that completes normally. *)
Definition finally {S A} (c : M S A) (f : M S unit) : M S A :=
  fun s => match c s with
           | (s', r) => match f s' with
                        | (s'', Ok _) => (s'', r)
                        | (s'', Throw e) => (s'', Throw e)
                        end
           end.

Declare Scope js_scope.
Delimit Scope js_scope with js.
Notation "'let*' x := c 'in' k" := (bind c (fun x => k))
  (at level 10, x pattern, c at level 100, k at level 200) : js_scope.
Notation "'run' c 'in' k" := (bind c (fun _ => k))
  (at level 10, c at level 100, k at level 200) : js_scope.
Local Open Scope js_scope.

Fixpoint for_each {S A} (l : list A) (body : A -> M S unit) : M S unit :=
  match l with
  | [] => ret tt
  | x :: r => run body x in for_each r body
  end.

Fixpoint map_result {A B} (f : A -> result B) (l : list A) : result (list B) :=
  match l with
  | [] => Ok []
  | x :: r =>
      match f x with
      | Ok y => match map_result f r with
                | Ok ys => Ok (y :: ys)
                | Throw e => Throw e
                end
      | Throw e => Throw e
      end
  end.

Fixpoint filter_result {A} (p : A -> result bool) (l : list A) : result (list A) :=
  match l with
  | [] => Ok []
  | x :: r =>
      match p x with
      | Throw e => Throw e
      | Ok b =>
          match filter_result p r with
          | Throw e => Throw e
          | Ok keep => Ok (if b then x :: keep else keep)
          end
      end
  end.

(** ** Property access on any value

    [v[k]] throws on null and undefined; an array or a string answers its
    [length] and its indices. *)

Definition get_prop (v : jsval) (k : jsstring) : result jsval :=
  match v with
  | JUndefined | JNull => Throw TypeError
  | JObj o => Ok (obj_get o k)
  | JArr elems =>
      if str_eqb k (lit "length") then Ok (JNum (of_Z (Z.of_nat (length elems))))
      else match array_index k with
           | Some n => Ok (nth (N.to_nat n) elems JUndefined)
           | None => Ok JUndefined
           end
  | JStr s =>
      if str_eqb k (lit "length") then Ok (JNum (of_Z (Z.of_nat (length s))))
      else match array_index k with
           | Some n => Ok (match nth_error s (N.to_nat n) with
                           | Some c => JStr [c]
                           | None => JUndefined
                           end)
           | None => Ok JUndefined
           end
  | JBool _ | JNum _ => Ok JUndefined
  end.

(** [v?.[k]] *)
Definition get_prop_opt (v : jsval) (k : jsstring) : jsval :=
  match get_prop v k with
  | Ok x => x
  | Throw _ => JUndefined
  end.

Definition index_keys (n : nat) : list jsstring :=
  map (fun i => decimal (N.of_nat i)) (seq 0 n).

(** [Object.keys(v)] *)
Definition Object_keys_of (v : jsval) : result (list jsstring) :=
  match v with
  | JUndefined | JNull => Throw TypeError
  | JObj o => Ok (Object_keys o)
  | JArr elems => Ok (index_keys (length elems))
  | JStr s => Ok (index_keys (length s))
  | JBool _ | JNum _ => Ok []
  end.

(** ** The host

    What the browser and the libraries loaded with the page decide, taken
    as an interface.
    - [toLowerCase], [toUpperCase] and [localeCompare] are driven by the
      Unicode character database and the collation rules of the host; what
      is required of them is their behaviour on ASCII text, which the
      standard fixes, and that lower-casing never produces an ASCII
      capital.  [localeCompare] is the call the source makes, with the
      options [{numeric: true, sensitivity: 'base'}].
    - [Array_sort] is [Array.prototype.sort]: it rearranges; the order it
      gives for a comparator that is not consistent is the host's own.
    - [native_text name] is the text [String] makes of the function
      [Object.prototype] holds under [name], and [inherited_text v key]
      the text it makes of the member a value that is not a plain object
      finds under [key] on its prototype chain, if it finds one.
    - [L_position lat lng] tells whether Leaflet makes a position of the
      pair [[lat, lng]]; of a pair with a NaN it makes none.
      [L_fitBounds pairs] tells whether [map.fitBounds] returns for the
      group of the markers at these pairs. *)

Definition prototype_names : list jsstring :=
  [lit "constructor"; lit "__defineGetter__"; lit "__defineSetter__";
   lit "hasOwnProperty"; lit "__lookupGetter__"; lit "__lookupSetter__";
   lit "isPrototypeOf"; lit "propertyIsEnumerable"; lit "toString";
   lit "valueOf"; lit "__proto__"; lit "toLocaleString"].

(** The names every plain object inherits from [Object.prototype]. *)
Definition inherited (key : jsstring) : bool :=
  existsb (str_eqb key) prototype_names.

Class Host := {
  toLowerCase : jsstring -> jsstring;
  toUpperCase : jsstring -> jsstring;
  localeCompare : jsstring -> jsstring -> Z;
  toLowerCase_ascii :
    forall s, forallb is_ascii s = true -> toLowerCase s = map ascii_lower s;
  toUpperCase_ascii :
    forall s, forallb is_ascii s = true -> toUpperCase s = map ascii_upper s;
  toLowerCase_no_capital :
    forall s, forallb (fun c => negb (is_ascii_upper c)) (toLowerCase s) = true;
  Array_sort : forall A : Type, (A -> A -> Z) -> list A -> list A;
  Array_sort_perm :
    forall (A : Type) (cmp : A -> A -> Z) (l : list A), Array_sort A cmp l ≡ₚ l;
  native_text : jsstring -> jsstring;
  inherited_text : jsval -> jsstring -> option jsstring;
  L_position : jsval -> jsval -> bool;
  L_fitBounds : list (jsval * jsval) -> bool;
  L_position_NaN :
    forall v, L_position (JNum S754_nan) v = false
              /\ L_position v (JNum S754_nan) = false
}.
Arguments Array_sort {_ A} cmp l.
Arguments Array_sort_perm {_ A} cmp l.

End JS.

(* ===================================================================== *)
(** * Reading a quoted string back                                         *)
(* ===================================================================== *)

(** The inverse of [JS.quote_body], up to the closing quote.  It is not
    part of the programs; it is what shows that two different row sets
    never serialize to the same text. *)

Module Decode.
Import JS.

Definition hex_value (c : N) : option N :=
  if ((48 <=? c) && (c <=? 57))%N then Some (c - 48)%N
  else if ((97 <=? c) && (c <=? 102))%N then Some (c - 87)%N
  else None.

Definition unescape (e : N) : N :=
  if (e =? 98)%N then 8%N
  else if (e =? 116)%N then 9%N
  else if (e =? 110)%N then 10%N
  else if (e =? 102)%N then 12%N
  else if (e =? 114)%N then 13%N
  else e.

Definition push (c : N) (o : option (jsstring * jsstring)) : option (jsstring * jsstring) :=
  match o with
  | Some (t, r) => Some (c :: t, r)
  | None => None
  end.

(** The string that ends at the first unescaped quote of [s], and what
    follows that quote. *)
Fixpoint unquote_body (s : jsstring) : option (jsstring * jsstring) :=
  match s with
  | [] => None
  | c :: rest =>
      if (c =? 34)%N then Some ([], rest)
      else if (c =? 92)%N then
        match rest with
        | [] => None
        | e :: rest1 =>
            if (e =? 117)%N then
              match rest1 with
              | a :: b :: c2 :: d :: rest2 =>
                  match hex_value a, hex_value b, hex_value c2, hex_value d with
                  | Some x3, Some x2, Some x1, Some x0 =>
                      push (x3 * 4096 + x2 * 256 + x1 * 16 + x0)%N (unquote_body rest2)
                  | _, _, _, _ => None
                  end
              | _ => None
              end
            else push (unescape e) (unquote_body rest1)
        end
      else push c (unquote_body rest)
  end.

End Decode.

(* ===================================================================== *)
(** * The sheet variant                                                    *)
(* ===================================================================== *)

Module Sheet.
Import JS.

(** ** The page state

    The salon records are mutable objects and [currentSalons] is an array
    of references to them, so both live in a store: [objects] maps a
    reference to the own properties of a record, [arrays] maps a reference
    to the elements of an array of records.  References are positions in
    the store; allocation appends. *)

Abbreviation loc := nat.

Inductive direction := asc | desc.

(** What [createSalonCards] writes for one record, as far as the rest of
    the program reads it back: the element id and the [data-salon-id] of
    the favourite button (both the record identifier), the JSON snapshot
    in [data-salon-info], the state of the favourite button (its text and
    its [favorited] class go together), whether the record is editable,
    and the links the two link renderers keep. *)
Record card := {
  card_id : jsstring;
  card_salonInfo : jsstring;
  card_favorited : bool;
  card_canEdit : bool;
  card_sources : list jsval;                (* the links [renderSources] keeps *)
  card_socials : list (jsstring * jsval)    (* the entries [renderSocials] keeps *)
}.

(** The [innerHTML] of a container. *)
Inductive content :=
| Blank
| Notice (text : string)
| NoMatch (query : jsstring)
| ErrorBox (message : jsstring)
| Cards (cards : list card).

Record dom := {
  searchInput_value : jsstring;
  favoritesContainer_hidden : bool;
  loader_hidden : bool;
  mapContainer_hidden : bool;
  resultsContainer : content;
  favoritesList : content;
  favoritesList_first : bool;   (* document order of the two containers *)
  map_created : bool;           (* [map] is assigned *)
  mapContainer_initialized : bool;   (* [L.map] has taken the container *)
  markers : list jsstring       (* the salonId of each marker on the map *)
}.

Inductive effect :=
| ConsoleLog (text : string)
| ConsoleWarn (text : string)
| ConsoleError (text : string) (e : exn)
| Alert (text : jsstring)
| ValuesGet (spreadsheetId range : jsstring)
| ValuesUpdate (spreadsheetId : option jsstring) (range : jsstring)
               (values : list (list jsval))
| ClearInterval (handle : positive)
| UpdateSortOptions (headers : list jsstring)
| DisplayResults (c : content)   (* displayResults wrote the result list *)
| DisplayError (message : jsstring)
| DisplayFavorites (c : content).

Record state := {
  objects : list object;
  arrays : list (list loc);
  currentSalons : loc;
  headers : list jsstring;
  currentSpreadsheetId : option jsstring;
  dataPollingInterval : option positive;
  lastDataState : jsstring;
  isEditing : bool;
  currentSortKey : jsstring;
  currentSortDirection : direction;
  page : dom;
  trace : list effect            (* most recent last *)
}.

Definition set_objects (f : list object -> list object) (s : state) : state :=
  {| objects := f (objects s); arrays := arrays s;
     currentSalons := currentSalons s; headers := headers s;
     currentSpreadsheetId := currentSpreadsheetId s;
     dataPollingInterval := dataPollingInterval s;
     lastDataState := lastDataState s; isEditing := isEditing s;
     currentSortKey := currentSortKey s;
     currentSortDirection := currentSortDirection s;
     page := page s; trace := trace s |}.

Definition set_arrays (f : list (list loc) -> list (list loc)) (s : state) : state :=
  {| objects := objects s; arrays := f (arrays s);
     currentSalons := currentSalons s; headers := headers s;
     currentSpreadsheetId := currentSpreadsheetId s;
     dataPollingInterval := dataPollingInterval s;
     lastDataState := lastDataState s; isEditing := isEditing s;
     currentSortKey := currentSortKey s;
     currentSortDirection := currentSortDirection s;
     page := page s; trace := trace s |}.

Definition set_currentSalons (l : loc) (s : state) : state :=
  {| objects := objects s; arrays := arrays s;
     currentSalons := l; headers := headers s;
     currentSpreadsheetId := currentSpreadsheetId s;
     dataPollingInterval := dataPollingInterval s;
     lastDataState := lastDataState s; isEditing := isEditing s;
     currentSortKey := currentSortKey s;
     currentSortDirection := currentSortDirection s;
     page := page s; trace := trace s |}.

Definition set_headers (h : list jsstring) (s : state) : state :=
  {| objects := objects s; arrays := arrays s;
     currentSalons := currentSalons s; headers := h;
     currentSpreadsheetId := currentSpreadsheetId s;
     dataPollingInterval := dataPollingInterval s;
     lastDataState := lastDataState s; isEditing := isEditing s;
     currentSortKey := currentSortKey s;
     currentSortDirection := currentSortDirection s;
     page := page s; trace := trace s |}.

Definition set_dataPollingInterval (h : option positive) (s : state) : state :=
  {| objects := objects s; arrays := arrays s;
     currentSalons := currentSalons s; headers := headers s;
     currentSpreadsheetId := currentSpreadsheetId s;
     dataPollingInterval := h;
     lastDataState := lastDataState s; isEditing := isEditing s;
     currentSortKey := currentSortKey s;
     currentSortDirection := currentSortDirection s;
     page := page s; trace := trace s |}.

Definition set_lastDataState (d : jsstring) (s : state) : state :=
  {| objects := objects s; arrays := arrays s;
     currentSalons := currentSalons s; headers := headers s;
     currentSpreadsheetId := currentSpreadsheetId s;
     dataPollingInterval := dataPollingInterval s;
     lastDataState := d; isEditing := isEditing s;
     currentSortKey := currentSortKey s;
     currentSortDirection := currentSortDirection s;
     page := page s; trace := trace s |}.

Definition set_page (f : dom -> dom) (s : state) : state :=
  {| objects := objects s; arrays := arrays s;
     currentSalons := currentSalons s; headers := headers s;
     currentSpreadsheetId := currentSpreadsheetId s;
     dataPollingInterval := dataPollingInterval s;
     lastDataState := lastDataState s; isEditing := isEditing s;
     currentSortKey := currentSortKey s;
     currentSortDirection := currentSortDirection s;
     page := f (page s); trace := trace s |}.

Definition emit (e : effect) (s : state) : state :=
  {| objects := objects s; arrays := arrays s;
     currentSalons := currentSalons s; headers := headers s;
     currentSpreadsheetId := currentSpreadsheetId s;
     dataPollingInterval := dataPollingInterval s;
     lastDataState := lastDataState s; isEditing := isEditing s;
     currentSortKey := currentSortKey s;
     currentSortDirection := currentSortDirection s;
     page := page s; trace := trace s ++ [e] |}.

Definition set_loader_hidden (b : bool) (d : dom) : dom :=
  {| searchInput_value := searchInput_value d;
     favoritesContainer_hidden := favoritesContainer_hidden d;
     loader_hidden := b; mapContainer_hidden := mapContainer_hidden d;
     resultsContainer := resultsContainer d; favoritesList := favoritesList d;
     favoritesList_first := favoritesList_first d;
     map_created := map_created d;
     mapContainer_initialized := mapContainer_initialized d;
     markers := markers d |}.

Definition set_mapContainer_hidden (b : bool) (d : dom) : dom :=
  {| searchInput_value := searchInput_value d;
     favoritesContainer_hidden := favoritesContainer_hidden d;
     loader_hidden := loader_hidden d; mapContainer_hidden := b;
     resultsContainer := resultsContainer d; favoritesList := favoritesList d;
     favoritesList_first := favoritesList_first d;
     map_created := map_created d;
     mapContainer_initialized := mapContainer_initialized d;
     markers := markers d |}.

Definition set_resultsContainer (c : content) (d : dom) : dom :=
  {| searchInput_value := searchInput_value d;
     favoritesContainer_hidden := favoritesContainer_hidden d;
     loader_hidden := loader_hidden d;
     mapContainer_hidden := mapContainer_hidden d;
     resultsContainer := c; favoritesList := favoritesList d;
     favoritesList_first := favoritesList_first d;
     map_created := map_created d;
     mapContainer_initialized := mapContainer_initialized d;
     markers := markers d |}.

Definition set_favoritesList (c : content) (d : dom) : dom :=
  {| searchInput_value := searchInput_value d;
     favoritesContainer_hidden := favoritesContainer_hidden d;
     loader_hidden := loader_hidden d;
     mapContainer_hidden := mapContainer_hidden d;
     resultsContainer := resultsContainer d; favoritesList := c;
     favoritesList_first := favoritesList_first d;
     map_created := map_created d;
     mapContainer_initialized := mapContainer_initialized d;
     markers := markers d |}.

Definition set_map_created (b : bool) (d : dom) : dom :=
  {| searchInput_value := searchInput_value d;
     favoritesContainer_hidden := favoritesContainer_hidden d;
     loader_hidden := loader_hidden d;
     mapContainer_hidden := mapContainer_hidden d;
     resultsContainer := resultsContainer d; favoritesList := favoritesList d;
     favoritesList_first := favoritesList_first d;
     map_created := b;
     mapContainer_initialized := mapContainer_initialized d;
     markers := markers d |}.

Definition set_mapContainer_initialized (b : bool) (d : dom) : dom :=
  {| searchInput_value := searchInput_value d;
     favoritesContainer_hidden := favoritesContainer_hidden d;
     loader_hidden := loader_hidden d;
     mapContainer_hidden := mapContainer_hidden d;
     resultsContainer := resultsContainer d; favoritesList := favoritesList d;
     favoritesList_first := favoritesList_first d;
     map_created := map_created d;
     mapContainer_initialized := b;
     markers := markers d |}.

Definition set_markers (f : list jsstring -> list jsstring) (d : dom) : dom :=
  {| searchInput_value := searchInput_value d;
     favoritesContainer_hidden := favoritesContainer_hidden d;
     loader_hidden := loader_hidden d;
     mapContainer_hidden := mapContainer_hidden d;
     resultsContainer := resultsContainer d; favoritesList := favoritesList d;
     favoritesList_first := favoritesList_first d;
     map_created := map_created d;
     mapContainer_initialized := mapContainer_initialized d;
     markers := f (markers d) |}.

Abbreviation M := (JS.M state).
Local Open Scope js_scope.

Definition log (e : effect) : M unit := modify (emit e).

(** *** The store *)

Definition read_object (l : loc) : M object :=
  fun s => (s, Ok (default [] (objects s !! l))).

Definition write_object (l : loc) (o : object) : M unit :=
  modify (set_objects (fun os => <[l := o]> os)).

Definition read_array (a : loc) : M (list loc) :=
  fun s => (s, Ok (default [] (arrays s !! a))).

Definition new_array (elems : list loc) : M loc :=
  fun s => (set_arrays (fun ars => ars ++ [elems]) s, Ok (length (arrays s))).

Definition write_array (a : loc) (elems : list loc) : M unit :=
  modify (set_arrays (fun ars => <[a := elems]> ars)).

Definition new_objects (os : list object) : M (list loc) :=
  fun s => (set_objects (fun old => old ++ os) s,
            Ok (seq (length (objects s)) (length os))).

Definition read_objects (ls : list loc) : M (list object) :=
  fun s => (s, Ok (map (fun l => default [] (objects s !! l)) ls)).


(** ** The functions of the source file *)

Section Program.
Context {U : Host}.

Definition quoted (s : jsstring) : jsstring := [34%N] ++ s ++ [34%N].

Definition parseGapiError (err : exn) : jsstring :=
  match err with
  | RequestFailed (Some error) =>
      let fallback :=
        match error_message error with
        | Some (c :: m) => c :: m
        | _ => lit "An unknown error occurred while communicating with Google Sheets."
        end in
      match error_status error with
      | Some status =>
          if str_eqb status (lit "NOT_FOUND") then
            lit "The Google Sheet could not be found. Please check the URL or ID and make sure it's correct."
          else if str_eqb status (lit "PERMISSION_DENIED") then
            lit "You do not have permission to access this Google Sheet. Please check the sheet's sharing settings and ensure you are signed in with the correct Google account."
          else if str_eqb status (lit "RESOURCE_EXHAUSTED") then
            lit "The app has made too many requests to Google Sheets. Please wait a moment and try again later."
          else fallback
      | None => fallback
      end
  | _ => lit "An unexpected error occurred. Please check the console for more details."
  end.

(** [err?.result?.error?.status] *)
Definition error_status_of (err : exn) : option jsstring :=
  match err with
  | RequestFailed (Some error) => error_status error
  | _ => None
  end.

(** The classes [parseGapiError] tells apart. *)
Inductive error_class := NotFound | PermissionDenied | RateLimited | Unknown.

Definition classify (err : exn) : error_class :=
  match error_status_of err with
  | Some status =>
      if str_eqb status (lit "NOT_FOUND") then NotFound
      else if str_eqb status (lit "PERMISSION_DENIED") then PermissionDenied
      else if str_eqb status (lit "RESOURCE_EXHAUSTED") then RateLimited
      else Unknown
  | None => Unknown
  end.

Definition getSalonId (salon : object) : result jsstring :=
  btoa (ToString (js_add (obj_get salon (lit "name")) (obj_get salon (lit "address")))).

Definition isFavorited (salon : object) : bool :=
  let favorite := obj_get salon (lit "favorite") in
  let favValue := if truthy favorite then toUpperCase (ToString favorite)
                  else lit "FALSE" in
  str_eqb favValue (lit "TRUE").

Definition setLoading (isLoading : bool) : M unit :=
  modify (set_page (set_loader_hidden (negb isLoading))).

Definition displayError (message : jsstring) : M unit :=
  run modify (set_page (set_resultsContainer (ErrorBox message))) in
  log (DisplayError message).

Definition retitle (salonId : jsstring) (favorited : bool) (c : card) : card :=
  if str_eqb (card_id c) salonId
  then {| card_id := card_id c; card_salonInfo := card_salonInfo c;
          card_favorited := favorited; card_canEdit := card_canEdit c;
          card_sources := card_sources c; card_socials := card_socials c |}
  else c.

Definition map_cards (f : card -> card) (c : content) : content :=
  match c with
  | Cards cs => Cards (map f cs)
  | other => other
  end.

(** Every [.favorite-button] whose [data-salon-id] is the record's
    identifier gets the text and class of the record's current state. *)
Definition updateFavoriteButtons (salon : loc) : M unit :=
  let* o := read_object salon in
  let* salonId := lift (getSalonId o) in
  let isNowFavorited := isFavorited o in
  modify (set_page (fun d =>
    set_favoritesList (map_cards (retitle salonId isNowFavorited) (favoritesList d))
      (set_resultsContainer
         (map_cards (retitle salonId isNowFavorited) (resultsContainer d)) d))).

(** [url && url.startsWith('http')], the test of both link filters: a
    truthy value that is not a string has no [startsWith] to call. *)
Definition is_link (url : jsval) : result bool :=
  if truthy url then
    match url with
    | JStr s => Ok (startsWith s (lit "http"))
    | _ => Throw TypeError
    end
  else Ok false.

(** The links of [salon.sources] that [renderSources] keeps.  Only an
    array has a [filter] to call. *)
Definition renderSources (salon : object) : result (list jsval) :=
  let sources := obj_get salon (lit "sources") in
  if negb (truthy sources) then Ok []
  else
    match get_prop sources (lit "length") with
    | Throw e => Throw e
    | Ok len =>
        if strict_equals len (JNum (S754_zero false)) then Ok []
        else match sources with
             | JArr elems => filter_result is_link elems
             | _ => Throw TypeError
             end
    end.

(** [{ ...v }]: the own properties of [v], in enumeration order. *)
Definition spread (v : jsval) : object :=
  match v with
  | JObj o => enumerate o
  | JArr elems => combine (index_keys (length elems)) elems
  | JStr s => combine (index_keys (length s)) (map (fun c => JStr [c]) s)
  | _ => []
  end.

(** The keys of [socialIcons].  For a name every plain object inherits
    from [Object.prototype], [socialIcons[key]] and [collectedSocials[key]]
    answer with a function or an object. *)
Definition social_platforms : list jsstring :=
  [lit "instagram"; lit "facebook"; lit "tiktok"].

(** [socialIcons[key] && !collectedSocials[key]] *)
Definition wants_social (collected : object) (key : jsstring) : bool :=
  (existsb (str_eqb key) social_platforms || inherited key)
  && (if has_own collected key then negb (truthy (obj_get collected key))
      else negb (inherited key)).

Definition collect_socials (salon : object) : object :=
  fold_left (fun collected key =>
               if wants_social collected key
               then obj_set collected key (obj_get salon key)
               else collected)
            (Object_keys salon)
            (spread (obj_get salon (lit "social_media"))).

(** The entries of the collected links that [renderSocials] keeps. *)
Definition renderSocials (salon : object) : result (list (jsstring * jsval)) :=
  filter_result (fun entry => is_link (snd entry)) (enumerate (collect_socials salon)).

Definition createSalonCard (salon : object) : result card :=
  match getSalonId salon with
  | Throw e => Throw e
  | Ok salonId =>
      match renderSources salon with
      | Throw e => Throw e
      | Ok sources =>
          match renderSocials salon with
          | Throw e => Throw e
          | Ok socials =>
              Ok {| card_id := salonId;
                    card_salonInfo := JSON_stringify (JObj salon);
                    card_favorited := isFavorited salon;
                    card_canEdit :=
                      negb (strict_equals (obj_get salon (lit "rowIndex")) JUndefined);
                    card_sources := sources;
                    card_socials := socials |}
          end
      end
  end.

Definition createSalonCards (salons : list object) : result (list card) :=
  map_result createSalonCard salons.

(** *** The map

    Leaflet is a library the page loads.  Of what it does the model keeps
    whether [map] is assigned, whether [L.map] has taken the container
    (it takes a container once and throws when asked again), and the
    markers of the layer.  Whether a pair of coordinates makes a position
    is the host's [L_position]; where it makes none, the call throws. *)

(** [map.setView([lat, lon], 13)] *)
Definition setView (lat lon : number) : M unit :=
  if L_position (JNum lat) (JNum lon) then ret tt else throw LeafletError.

Definition initMap (lat lon : number) : M unit :=
  let* st := get in
  if map_created (page st) then setView lat lon
  else if mapContainer_initialized (page st) then throw LeafletError
  else
    run modify (set_page (set_mapContainer_initialized true)) in
    run setView lat lon in
    run modify (set_page (set_map_created true)) in
    modify (set_page (set_markers (fun _ => []))).

(** [L.marker([latitude, longitude], ...)] and the calls that put it on
    the layer. *)
Definition add_marker (salonId : jsstring) (latitude longitude : jsval) : M unit :=
  if L_position latitude longitude
  then modify (set_page (set_markers (fun ms => ms ++ [salonId])))
  else throw LeafletError.

(** [updateMap], as far as the file at hand shows it: up to the end of
    the loop that places the markers. *)
Definition updateMap (salons : list loc) : M unit :=
  let* os := read_objects salons in
  let validSalons :=
    List.filter (fun o => truthy (obj_get o (lit "latitude"))
                          && truthy (obj_get o (lit "longitude"))) os in
  match validSalons with
  | [] => modify (set_page (set_mapContainer_hidden true))
  | first :: _ =>
      run modify (set_page (set_mapContainer_hidden false)) in
      run (let* st := get in
           if map_created (page st) then ret tt
           else initMap (parseFloat (obj_get first (lit "latitude")))
                        (parseFloat (obj_get first (lit "longitude")))) in
      run modify (set_page (set_markers (fun _ => []))) in
      for_each validSalons (fun salon =>
        let* salonId := lift (getSalonId salon) in
        add_marker salonId (obj_get salon (lit "latitude"))
                           (obj_get salon (lit "longitude")))
  end.

Definition displayResults (salons : loc) : M unit :=
  let* elems := read_array salons in
  match elems with
  | [] =>
      let* st := get in
      let query := trim (searchInput_value (page st)) in
      let c := match query with
               | [] => Notice "No salons found."
               | _ => NoMatch query
               end in
      run modify (set_page (set_resultsContainer c)) in
      run log (DisplayResults c) in
      updateMap []
  | _ =>
      let* os := read_objects elems in
      let* cards := lift (createSalonCards os) in
      run modify (set_page (set_resultsContainer (Cards cards))) in
      run log (DisplayResults (Cards cards)) in
      updateMap elems
  end.

Definition displayFavorites : M unit :=
  run modify (set_page (set_mapContainer_hidden true)) in
  run modify (set_page (set_resultsContainer Blank)) in
  let* st := get in
  let* elems := read_array (currentSalons st) in
  let* os := read_objects elems in
  let* favoriteSalons :=
    new_array (map fst (List.filter (fun p => isFavorited (snd p)) (combine elems os))) in
  let* favs := read_array favoriteSalons in
  match favs with
  | [] =>
      let c := Notice "You haven't saved any favorite salons yet." in
      run modify (set_page (set_favoritesList c)) in
      log (DisplayFavorites c)
  | _ =>
      let* fos := read_objects favs in
      let* cards := lift (createSalonCards fos) in
      run modify (set_page (set_favoritesList (Cards cards))) in
      log (DisplayFavorites (Cards cards))
  end.

(** *** Sorting *)

(** The rewrite of a 'TRUE' / 'FALSE' string to a boolean. *)
Definition as_boolean (v : jsval) : jsval :=
  match v with
  | JStr s =>
      if str_eqb (toUpperCase s) (lit "TRUE") || str_eqb (toUpperCase s) (lit "FALSE")
      then JBool (str_eqb (toUpperCase s) (lit "TRUE"))
      else v
  | _ => v
  end.

(** The guard of the numeric branch, on the two values as the comparator
    holds them when it reaches the guard. *)
Definition numeric_guard (valA valB : jsval) : bool :=
  let numA := parseFloat valA in
  let numB := parseFloat valB in
  negb (isNaN numA) && negb (isNaN numB)
  && str_eqb (ToString valA) (Number_toString numA)
  && str_eqb (ToString valB) (Number_toString numB).

Definition sign (direction : direction) : Z :=
  match direction with asc => 1 | desc => -1 end.

(** The comparator of [sortSalons], from the two field values
    [a[key] ?? ''] and [b[key] ?? '']. *)
Definition compare_values (dir : Z) (a b : jsval) : Z :=
  let valA := as_boolean a in
  let valB := as_boolean b in
  let numA := parseFloat valA in
  let numB := parseFloat valB in
  if numeric_guard valA valB then
    if number_lt numA numB then (-1 * dir)%Z
    else if number_gt numA numB then (1 * dir)%Z
    else 0%Z
  else (localeCompare (ToString valA) (ToString valB) * dir)%Z.

Definition compare_salons (key : jsstring) (dir : Z) (a b : object) : Z :=
  compare_values dir (nullish (obj_get a key) (JStr []))
                     (nullish (obj_get b key) (JStr [])).

Definition sortSalons (salons : loc) (key : jsstring) (direction : direction) : M loc :=
  let* elems := read_array salons in
  let* sorted := new_array elems in
  let dir := sign direction in
  let* st := get in
  let field l := default [] (objects st !! l) in
  let* copy := read_array sorted in
  run write_array sorted
        (Array_sort (fun a b => compare_salons key dir (field a) (field b)) copy) in
  ret sorted.

(** *** Filtering *)

(** [(v || '').toLowerCase()] *)
Definition lower_or_empty (v : jsval) : result jsstring :=
  match or_else v (JStr []) with
  | JStr s => Ok (toLowerCase s)
  | _ => Throw TypeError
  end.

Definition matches_query (query : jsstring) (salon : object) : result bool :=
  match lower_or_empty (obj_get salon (lit "name")) with
  | Throw e => Throw e
  | Ok name =>
      match lower_or_empty (obj_get salon (lit "address")) with
      | Throw e => Throw e
      | Ok address =>
          match lower_or_empty (obj_get salon (lit "description")) with
          | Throw e => Throw e
          | Ok description =>
              Ok (includes name query || includes address query
                  || includes description query)
          end
      end
  end.

(** The array [salonsToRender] names when [displayResults] is called:
    the record set, filtered when there is a query, sorted when a sort key
    is chosen. *)
Definition salonsToRender (st : state) : M loc :=
  let query := toLowerCase (trim (searchInput_value (page st))) in
  let* filtered :=
    match query with
    | [] => ret (currentSalons st)
    | _ =>
        let* elems := read_array (currentSalons st) in
        let field l := default [] (objects st !! l) in
        let* kept := lift (filter_result (fun l => matches_query query (field l)) elems) in
        new_array kept
    end in
  if str_eqb (currentSortKey st) (lit "none") then ret filtered
  else sortSalons filtered (currentSortKey st) (currentSortDirection st).

Definition applyFilterAndRender : M unit :=
  let* st := get in
  if favoritesContainer_hidden (page st) then
    let* visible := salonsToRender st in
    displayResults visible
  else ret tt.

(** *** Loading and polling *)

(** What the awaited read of the range settles with: the rows of
    [response.result.values] (absent for an empty sheet), or a rejection. *)
Inductive fetch_outcome :=
| Fetched (values : option (list (list jsstring)))
| FetchFailed (e : exn).

Definition rows_value (data : list (list jsstring)) : jsval :=
  JArr (map (fun row => JArr (map JStr row)) data).

Definition strings_value (l : list jsstring) : jsval := JArr (map JStr l).

(** [row[i] || ''] *)
Definition cell (row : list jsstring) (i : nat) : jsval :=
  or_else (match row !! i with Some c => JStr c | None => JUndefined end) (JStr []).

(** [headers.forEach((header, i) => salon[header.toLowerCase()] = row[i] || '')],
    from column [i] on. *)
Fixpoint assign_cells (hs : list jsstring) (i : nat) (row : list jsstring)
         (salon : object) : object :=
  match hs with
  | [] => salon
  | header :: rest =>
      assign_cells rest (S i) row (obj_set salon (toLowerCase header) (cell row i))
  end.

(** The record built for the data row at position [index]; the sum
    [index + 2] is exact on array positions. *)
Definition normalize_row (hs : list jsstring) (index : nat) (row : list jsstring) : object :=
  assign_cells hs 0 row [(lit "rowIndex", JNum (of_Z (Z.of_nat index + 2)))].

Definition normalize_rows (hs : list jsstring) (rows : list (list jsstring)) : list object :=
  imap (normalize_row hs) rows.

(** [loadData] up to its [await]: the two guards, the loader, and the
    request.  The answer tells whether a read is on its way. *)
Definition loadData_request : M (option jsstring) :=
  let* st := get in
  if isEditing st then
    run log (ConsoleLog "Polling skipped: user is editing.") in
    ret None
  else
    match currentSpreadsheetId st with
    | None | Some [] => ret None
    | Some ((_ :: _) as spreadsheetId) =>
        run setLoading true in
        run log (ValuesGet spreadsheetId (lit "Sheet1!A:Z")) in
        ret (Some spreadsheetId)
    end.

(** [loadData] from its [await] on, with the outcome the read settles
    with: the rest of the [try] block, the [catch] and the [finally]. *)
Definition loadData_settle (response : fetch_outcome) : M unit :=
  finally
    (try_catch
       (match response with
        | FetchFailed e => throw e
        | Fetched values =>
            match values with
            | Some ((newHeaders :: _ :: _) as data) =>
                let currentState := JSON_stringify (rows_value data) in
                let* st := get in
                if str_eqb currentState (lastDataState st) then
                  run log (ConsoleLog "Data unchanged. Skipping re-render.") in
                  setLoading false
                else
                  run modify (set_lastDataState currentState) in
                  run (if negb (str_eqb (JSON_stringify (strings_value (headers st)))
                                        (JSON_stringify (strings_value newHeaders)))
                       then
                         run modify (set_headers newHeaders) in
                         log (UpdateSortOptions newHeaders)
                       else ret tt) in
                  let rows := tail data in
                  let* st := get in
                  let* salons := new_objects (normalize_rows (headers st) rows) in
                  let* fresh := new_array salons in
                  run modify (set_currentSalons fresh) in
                  applyFilterAndRender
            | _ =>
                run displayError (lit "No data found in the sheet, or sheet is missing a header row.") in
                setLoading false
            end
        end)
       (fun err =>
          run log (ConsoleError "Error loading sheet data:" err) in
          let friendlyMessage := parseGapiError err in
          run displayError friendlyMessage in
          let status := error_status_of err in
          if match status with
             | Some s => str_eqb s (lit "NOT_FOUND")
                         || str_eqb s (lit "PERMISSION_DENIED")
             | None => false
             end
          then
            let* st := get in
            match dataPollingInterval st with
            | Some handle =>
                run log (ClearInterval handle) in
                run modify (set_dataPollingInterval None) in
                log (ConsoleWarn "Polling stopped due to a fatal error.")
            | None => ret tt
            end
          else ret tt))
    (setLoading false).

(** One call of [loadData] during which no other handler runs: the request
    and, when it went out, its outcome. *)
Definition loadData (response : fetch_outcome) : M unit :=
  let* pending := loadData_request in
  match pending with
  | Some _ => loadData_settle response
  | None => ret tt
  end.

(** *** Favourites *)

Definition updateSheetData (range : jsstring) (values : list (list jsval)) : M unit :=
  let* st := get in
  log (ValuesUpdate (currentSpreadsheetId st) range values).

Fixpoint find_index {A} (p : A -> bool) (l : list A) : option nat :=
  match l with
  | [] => None
  | x :: r => if p x then Some 0 else option_map S (find_index p r)
  end.

(** A write that was issued and has not settled: the record it belongs to
    and the value its [favorite] field had before the toggle. *)
Record pending_write := {
  pending_salon : loc;
  originalFavoriteState : jsval
}.

Definition set_favorite (salon : loc) (v : jsval) : M unit :=
  let* o := read_object salon in
  write_object salon (obj_set o (lit "favorite") v).

(** [toggleFavorite] up to the point where the write is on its way. *)
Definition toggleFavorite (salon : loc) : M (option pending_write) :=
  let* o := read_object salon in
  if strict_equals (obj_get o (lit "rowIndex")) JUndefined then
    run log (Alert (lit "You can only favorite items that are loaded from a Google Sheet.")) in
    ret None
  else
    let original := obj_get o (lit "favorite") in
    let isNowFavorited := negb (isFavorited o) in
    run set_favorite salon (JStr (if isNowFavorited then lit "TRUE" else lit "FALSE")) in
    run updateFavoriteButtons salon in
    let* st := get in
    match find_index (fun h => str_eqb (toLowerCase h) (lit "favorite")) (headers st) with
    | None =>
        run log (Alert (lit "Could not find a " ++ quoted (lit "favorite")
                        ++ lit " column in your sheet.")) in
        run set_favorite salon original in
        run updateFavoriteButtons salon in
        ret None
    | Some favoriteColIndex =>
        let colLetter := [((65 + N.of_nat favoriteColIndex) mod 65536)%N] in
        let* o := read_object salon in
        let range := lit "Sheet1!" ++ colLetter ++ ToString (obj_get o (lit "rowIndex")) in
        run updateSheetData range [[obj_get o (lit "favorite")]] in
        ret (Some {| pending_salon := salon; originalFavoriteState := original |})
    end.

Inductive write_outcome :=
| Written
| WriteFailed (e : exn).

Fixpoint set_first_info (cardId info : jsstring) (cs : list card) : option (list card) :=
  match cs with
  | [] => None
  | c :: r =>
      if str_eqb (card_id c) cardId
      then Some ({| card_id := card_id c; card_salonInfo := info;
                    card_favorited := card_favorited c;
                    card_canEdit := card_canEdit c;
                    card_sources := card_sources c;
                    card_socials := card_socials c |} :: r)
      else option_map (cons c) (set_first_info cardId info r)
  end.

Definition set_info_in (cardId info : jsstring) (c : content) : option content :=
  match c with
  | Cards cs => option_map Cards (set_first_info cardId info cs)
  | _ => None
  end.

(** [document.getElementById('card-' + id)] followed by the assignment to
    its [dataset.salonInfo]: the first card with that id in document order. *)
Definition set_salonInfo (salonId info : jsstring) (d : dom) : dom :=
  if favoritesList_first d then
    match set_info_in salonId info (favoritesList d) with
    | Some c => set_favoritesList c d
    | None => match set_info_in salonId info (resultsContainer d) with
              | Some c => set_resultsContainer c d
              | None => d
              end
    end
  else
    match set_info_in salonId info (resultsContainer d) with
    | Some c => set_resultsContainer c d
    | None => match set_info_in salonId info (favoritesList d) with
              | Some c => set_favoritesList c d
              | None => d
              end
    end.

(** The [.then] callback of the write. *)
Definition favoriteWritten (salon : loc) : M unit :=
  let* st := get in
  let* elems := read_array (currentSalons st) in
  let* os := read_objects elems in
  let* o := read_object salon in
  run match find_index (fun s => strict_equals (obj_get s (lit "rowIndex"))
                                               (obj_get o (lit "rowIndex"))) os with
      | Some index =>
          let target := default 0 (elems !! index) in
          run set_favorite target (obj_get o (lit "favorite")) in
          let* o := read_object salon in
          let* salonId := lift (getSalonId o) in
          let* current := read_object target in
          modify (set_page (set_salonInfo salonId (JSON_stringify (JObj current))))
      | None => ret tt
      end in
  let* st := get in
  if favoritesContainer_hidden (page st) then ret tt else displayFavorites.

(** The [.catch] callback of the write. *)
Definition favoriteFailed (p : pending_write) (err : exn) : M unit :=
  run log (ConsoleError "Favorite update failed:" err) in
  let friendlyMessage := parseGapiError err in
  run log (Alert (lit "Failed to update favorite status: " ++ friendlyMessage)) in
  run set_favorite (pending_salon p) (originalFavoriteState p) in
  updateFavoriteButtons (pending_salon p).

(** The write settles: [.then(...)] on success, and [.catch(...)] on a
    rejection of the write or on an exception of the [.then] callback. *)
Definition settleFavorite (p : pending_write) (outcome : write_outcome) : M unit :=
  try_catch
    (match outcome with
     | Written => favoriteWritten (pending_salon p)
     | WriteFailed e => throw e
     end)
    (favoriteFailed p).

(** *** The handlers as events

    The handlers this file defines, as the steps the page can take.  A
    scheduled poll is a [Poll] when no other handler runs between its
    request and the outcome, and a [Request] with a later [Response]
    otherwise; it fires only while [dataPollingInterval] holds a timer. *)

Inductive event :=
| Poll (response : fetch_outcome)
| Request
| Response (response : fetch_outcome)
| Toggle (salon : loc)
| Settle (p : pending_write) (outcome : write_outcome).

Definition handle (e : event) (st : state) : state :=
  match e with
  | Poll response => fst (loadData response st)
  | Request => fst (loadData_request st)
  | Response response => fst (loadData_settle response st)
  | Toggle salon => fst (toggleFavorite salon st)
  | Settle p outcome => fst (settleFavorite p outcome st)
  end.

Definition handle_all (es : list event) (st : state) : state :=
  fold_left (fun s e => handle e s) es st.


End Program.

End Sheet.

(* ===================================================================== *)
(** * The AI variant ([src/index.tsx])                                     *)
(* ===================================================================== *)

Module Scout.
Import JS.
Local Open Scope js_scope.

Definition escape_char (c : N) : jsstring :=
  if (c =? 38)%N then lit "&amp;"
  else if (c =? 60)%N then lit "&lt;"
  else if (c =? 62)%N then lit "&gt;"
  else if (c =? 34)%N then lit "&quot;"
  else if (c =? 39)%N then lit "&#39;"
  else [c].

Definition escapeHTML (str : jsval) : jsstring :=
  match str with
  | JStr s => flat_map escape_char s
  | _ => ToString (or_else str (JStr []))
  end.

Definition getBusinessId (business : jsval) : result jsstring :=
  match get_prop business (lit "name") with
  | Throw e => Throw e
  | Ok name =>
      match get_prop business (lit "address") with
      | Throw e => Throw e
      | Ok address =>
          match encodeURIComponent (js_add name address) with
          | Throw e => Throw e
          | Ok encoded => btoa encoded
          end
      end
  end.

(** ** CSV export *)

Definition quoted (s : jsstring) : jsstring := [34%N] ++ s ++ [34%N].

(** [data.find(d => d.socialMedia)]; [data.some] walks the list the same
    way, so it throws where this does and is true where this finds. *)
Fixpoint find_social (data : list jsval) : result (option jsval) :=
  match data with
  | [] => Ok None
  | d :: rest =>
      match get_prop d (lit "socialMedia") with
      | Throw e => Throw e
      | Ok sm => if truthy sm then Ok (Some sm) else find_social rest
      end
  end.

Section CsvExport.
Context {U : Host}.

(** What [v[key]] finds: an own member, a member of the prototype chain
    (kept as the text [String] makes of it: a function, or the prototype
    itself under [__proto__]), or nothing. *)
Inductive member :=
| Own (v : jsval)
| Inherited (text : jsstring)
| Absent.

(** On a plain object: its own members first, then those of
    [Object.prototype]. *)
Definition object_member (o : object) (key : jsstring) : member :=
  if has_own o key then Own (obj_get o key)
  else if str_eqb key (lit "__proto__") then Inherited (lit "[object Object]")
  else if inherited key then Inherited (native_text key)
  else Absent.

Definition member_of (v : jsval) (key : jsstring) : result member :=
  match v with
  | JObj o => Ok (object_member o key)
  | _ =>
      match get_prop v key with
      | Throw e => Throw e
      | Ok JUndefined =>
          Ok (match inherited_text v key with
              | Some text => Inherited text
              | None => Absent
              end)
      | Ok own => Ok (Own own)
      end
  end.

(** [escapeHTML(m)] for a member read with [member_of]: what is inherited
    is no string, so its text is returned as it is. *)
Definition escapeHTML_member (m : member) : jsstring :=
  match m with
  | Own v => escapeHTML v
  | Inherited text => text
  | Absent => escapeHTML JUndefined
  end.

(** [escapeHTML(m || '')] *)
Definition escapeHTML_member_or_empty (m : member) : jsstring :=
  match m with
  | Own v => escapeHTML (or_else v (JStr []))
  | Inherited text => text
  | Absent => escapeHTML (JStr [])
  end.

(** [row.socialMedia?.[header]] *)
Definition social_member (row : jsval) (header : jsstring) : result member :=
  match get_prop row (lit "socialMedia") with
  | Throw e => Throw e
  | Ok (JUndefined | JNull) => Ok Absent
  | Ok sm => member_of sm header
  end.

Definition csv_row (headers socialHeaders : list jsstring) (row : jsval) : result jsstring :=
  match map_result (fun header =>
                      match member_of row header with
                      | Ok m => Ok (quoted (escapeHTML_member m))
                      | Throw e => Throw e
                      end) headers with
  | Throw e => Throw e
  | Ok mainValues =>
      match map_result (fun header =>
                          match social_member row header with
                          | Throw e => Throw e
                          | Ok m => Ok (quoted (escapeHTML_member_or_empty m))
                          end) socialHeaders with
      | Throw e => Throw e
      | Ok socialValues => Ok (join [44%N] (mainValues ++ socialValues))
      end
  end.

Definition convertToCsv (data : list jsval) : result jsstring :=
  match data with
  | [] => Ok []
  | first :: _ =>
      match Object_keys_of first with
      | Throw e => Throw e
      | Ok keys =>
          let headers :=
            List.filter (fun key => negb (str_eqb key (lit "socialMedia"))) keys in
          match find_social data with
          | Throw e => Throw e
          | Ok found =>
              match match found with
                    | Some sm => Object_keys_of sm
                    | None => Ok []
                    end with
              | Throw e => Throw e
              | Ok socialHeaders =>
                  let allHeaders := headers ++ socialHeaders in
                  let headerRow := join [44%N] (map quoted allHeaders) in
                  match map_result (csv_row headers socialHeaders) data with
                  | Throw e => Throw e
                  | Ok rows => Ok (join [10%N] (headerRow :: rows))
                  end
              end
          end
      end
  end.

End CsvExport.

(** ** Rendering and filtering *)

Inductive content :=
| Blank
| Notice (text : string)
| Cards (ids : list jsstring).    (* the data-id of each card *)

Record state := {
  currentBusinesses : list jsval;
  searchInput_value : jsstring;
  instagramHandleInput_value : jsstring;
  followsFilterCheckbox_checked : bool;
  resultsContainer : content;
  controls_hidden : bool;   (* the map and the export and save buttons *)
  map_created : bool;
  markers : list jsstring
}.

Definition set_resultsContainer (c : content) (s : state) : state :=
  {| currentBusinesses := currentBusinesses s;
     searchInput_value := searchInput_value s;
     instagramHandleInput_value := instagramHandleInput_value s;
     followsFilterCheckbox_checked := followsFilterCheckbox_checked s;
     resultsContainer := c; controls_hidden := controls_hidden s;
     map_created := map_created s; markers := markers s |}.

Definition set_controls_hidden (b : bool) (s : state) : state :=
  {| currentBusinesses := currentBusinesses s;
     searchInput_value := searchInput_value s;
     instagramHandleInput_value := instagramHandleInput_value s;
     followsFilterCheckbox_checked := followsFilterCheckbox_checked s;
     resultsContainer := resultsContainer s; controls_hidden := b;
     map_created := map_created s; markers := markers s |}.

Definition set_markers (ms : list jsstring) (s : state) : state :=
  {| currentBusinesses := currentBusinesses s;
     searchInput_value := searchInput_value s;
     instagramHandleInput_value := instagramHandleInput_value s;
     followsFilterCheckbox_checked := followsFilterCheckbox_checked s;
     resultsContainer := resultsContainer s;
     controls_hidden := controls_hidden s;
     map_created := map_created s; markers := ms |}.

Abbreviation M := (JS.M state).

Definition append_card (id : jsstring) (c : content) : content :=
  match c with
  | Cards ids => Cards (ids ++ [id])
  | _ => Cards [id]
  end.

Section Program.
Context {U : Host}.

(** The body of the loop of [updateMapMarkers]. *)
Definition add_marker (business : jsval) : M unit :=
  let* lat := lift (get_prop business (lit "lat")) in
  let* lng := lift (get_prop business (lit "lng")) in
  if truthy lat && truthy lng then
    if L_position lat lng then
      let* id := lift (getBusinessId business) in
      modify (fun s => set_markers (markers s ++ [id]) s)
    else throw LeafletError
  else ret tt.

(** [[business.lat, business.lng]] *)
Definition coordinates (business : jsval) : jsval * jsval :=
  (get_prop_opt business (lit "lat"), get_prop_opt business (lit "lng")).

(** [updateMapMarkers].  Whether a pair of coordinates makes a position
    is the host's [L_position]; where it makes none, Leaflet throws.
    When the loop has placed a marker for each lead with coordinates, the
    view is fitted to them, which is the host's [L_fitBounds]. *)
Definition updateMapMarkers (businesses : list jsval) : M unit :=
  let* st := get in
  if map_created st then
    run modify (set_markers []) in
    run for_each businesses add_marker in
    match List.filter (fun business => truthy (fst (coordinates business))
                                       && truthy (snd (coordinates business)))
                      businesses with
    | [] => ret tt
    | first :: others =>
        if L_fitBounds (map coordinates (first :: others)) then ret tt
        else throw LeafletError
    end
  else ret tt.

Definition renderResults (businesses : list jsval) : M unit :=
  run modify (set_resultsContainer Blank) in
  match businesses with
  | [] =>
      run modify (set_resultsContainer
                    (Notice "No businesses found matching your criteria.")) in
      modify (set_controls_hidden true)
  | _ =>
      run for_each businesses (fun business =>
            let* id := lift (getBusinessId business) in
            modify (fun s => set_resultsContainer
                               (append_card id (resultsContainer s)) s)) in
      run updateMapMarkers businesses in
      modify (set_controls_hidden false)
  end.

(** [(v || '').toLowerCase()] *)
Definition lower_or_empty (v : jsval) : result jsstring :=
  match or_else v (JStr []) with
  | JStr s => Ok (toLowerCase s)
  | _ => Throw TypeError
  end.

(** [b.socialMedia?.instagram] *)
Definition instagram_of (b : jsval) : result jsval :=
  match get_prop b (lit "socialMedia") with
  | Throw e => Throw e
  | Ok sm => Ok (get_prop_opt sm (lit "instagram"))
  end.

(** The predicate [filterAndRenderResults] filters with. *)
Definition matches (searchTerm instagramSearchTerm : jsstring)
           (hasInstagramOnly : bool) (b : jsval) : result bool :=
  match stringify b with
  | None => Throw TypeError
  | Some text =>
      let fullText := toLowerCase text in
      let matchesSearch :=
        match searchTerm with [] => true | _ => includes fullText searchTerm end in
      match match instagramSearchTerm with
            | [] => Ok true
            | _ =>
                match instagram_of b with
                | Throw e => Throw e
                | Ok handle =>
                    match lower_or_empty handle with
                    | Throw e => Throw e
                    | Ok h => Ok (includes h instagramSearchTerm)
                    end
                end
            end with
      | Throw e => Throw e
      | Ok matchesInstagram =>
          match (if hasInstagramOnly then
                   match instagram_of b with
                   | Throw e => Throw e
                   | Ok handle => Ok (truthy handle)
                   end
                 else Ok true) with
          | Throw e => Throw e
          | Ok matchesHasInstagram =>
              Ok (matchesSearch && matchesInstagram && matchesHasInstagram)
          end
      end
  end.

Definition filtered (st : state) : result (list jsval) :=
  filter_result
    (matches (toLowerCase (searchInput_value st))
             (toLowerCase (instagramHandleInput_value st))
             (followsFilterCheckbox_checked st))
    (currentBusinesses st).

Definition filterAndRenderResults : M unit :=
  let* st := get in
  let* kept := lift (filtered st) in
  renderResults kept.

End Program.

End Scout.

(* ===================================================================== *)
(** * A host for running examples                                          *)
(* ===================================================================== *)

(** ASCII case mapping and code-unit order.  On ASCII text this is what
    every host computes for the two case mappings; the comparison stands
    in for the collation of the host and no property below depends on it.
    The sort is an insertion sort, which is what a stable sort gives for
    a consistent comparator.  Native functions print as the browsers
    built on V8 print them.  Leaflet makes a position of what [isNaN]
    does not take for a NaN: numbers other than NaN, booleans, and the
    strings [Number] reads as a number; fitting the view always returns. *)

Fixpoint compare_units (a b : JS.jsstring) : Z :=
  match a, b with
  | [], [] => 0
  | [], _ :: _ => -1
  | _ :: _, [] => 1
  | x :: a', y :: b' =>
      if (x <? y)%N then -1 else if (y <? x)%N then 1 else compare_units a' b'
  end.

Fixpoint insert_sorted {A} (cmp : A -> A -> Z) (x : A) (l : list A) : list A :=
  match l with
  | [] => [x]
  | y :: r => if (cmp x y <? 0)%Z then x :: l else y :: insert_sorted cmp x r
  end.

Definition insertion_sort {A} (cmp : A -> A -> Z) (l : list A) : list A :=
  fold_left (fun acc x => insert_sorted cmp x acc) l [].

Lemma insert_sorted_perm {A} (cmp : A -> A -> Z) (x : A) (l : list A) :
  insert_sorted cmp x l ≡ₚ x :: l.
Proof.
  induction l as [|y l IH]; simpl; [reflexivity|].
  destruct (cmp x y <? 0)%Z; [reflexivity|].
  rewrite IH. apply Permutation_swap.
Qed.

Lemma insertion_sort_perm {A} (cmp : A -> A -> Z) (l : list A) :
  insertion_sort cmp l ≡ₚ l.
Proof.
  unfold insertion_sort.
  assert (H : forall acc, fold_left (fun acc x => insert_sorted cmp x acc) l acc
                          ≡ₚ l ++ acc).
  { induction l as [|x l IH]; intros acc; simpl; [reflexivity|].
    rewrite IH, insert_sorted_perm. symmetry. apply Permutation_middle. }
  rewrite H. now rewrite app_nil_r.
Qed.

(** [function name() { [native code] }]; the function under
    [constructor] is [Object]. *)
Definition native_function (name : JS.jsstring) : JS.jsstring :=
  JS.lit "function "
  ++ (if JS.str_eqb name (JS.lit "constructor") then JS.lit "Object" else name)
  ++ JS.lit "() { [native code] }".

(** What a value that is no plain object finds under a name of
    [Object.prototype]: its own prototype under [__proto__], its own
    constructor, and the functions of [Object.prototype] under the other
    names.  The members particular to the prototypes of strings, numbers,
    booleans and arrays are not listed. *)
Definition inherited_member (v : JS.jsval) (key : JS.jsstring) : option JS.jsstring :=
  if JS.str_eqb key (JS.lit "__proto__") then
    Some match v with
         | JS.JNum _ => JS.lit "0"
         | JS.JBool _ => JS.lit "false"
         | _ => []
         end
  else if JS.str_eqb key (JS.lit "constructor") then
    Some (JS.lit "function "
          ++ match v with
             | JS.JStr _ => JS.lit "String"
             | JS.JNum _ => JS.lit "Number"
             | JS.JBool _ => JS.lit "Boolean"
             | JS.JArr _ => JS.lit "Array"
             | _ => JS.lit "Object"
             end
          ++ JS.lit "() { [native code] }")
  else if JS.inherited key then Some (native_function key)
  else None.

(** A decimal numeral as [Number] reads it: an optional sign, digits with
    an optional fraction or a fraction alone, an optional exponent. *)
Definition all_digits (s : JS.jsstring) : bool :=
  match s with [] => false | _ => forallb JS.is_digit s end.

Definition is_exponent (s : JS.jsstring) : bool :=
  match s with
  | [] => true
  | e :: r =>
      ((e =? 101) || (e =? 69))%N
      && match r with
         | sign :: digits =>
             if ((sign =? 43) || (sign =? 45))%N then all_digits digits
             else all_digits r
         | [] => false
         end
  end.

Definition is_decimal (s : JS.jsstring) : bool :=
  let unsigned :=
    match s with
    | sign :: r => if ((sign =? 43) || (sign =? 45))%N then r else s
    | [] => s
    end in
  let '(whole, rest) := JS.span_digits unsigned in
  match rest with
  | 46%N :: r =>
      let '(fraction, tail) := JS.span_digits r in
      negb (match whole, fraction with [], [] => true | _, _ => false end)
      && is_exponent tail
  | _ => negb (match whole with [] => true | _ => false end) && is_exponent rest
  end.

(** [Infinity], with an optional sign. *)
Definition is_infinity (s : JS.jsstring) : bool :=
  let unsigned :=
    match s with
    | sign :: r => if ((sign =? 43) || (sign =? 45))%N then r else s
    | [] => s
    end in
  JS.str_eqb unsigned (JS.lit "Infinity").

(** The value of a digit of a numeral with a radix prefix. *)
Definition radix_digit (c : N) : N :=
  (if (48 <=? c) && (c <=? 57) then c - 48
   else if (97 <=? c) && (c <=? 102) then c - 87
   else if (65 <=? c) && (c <=? 70) then c - 55
   else 16)%N.

Definition radix_digits (radix : N) (s : JS.jsstring) : bool :=
  match s with
  | [] => false
  | _ => forallb (fun c => (radix_digit c <? radix)%N) s
  end.

(** A numeral with the prefix [0x], [0o] or [0b]. *)
Definition is_radix_numeral (s : JS.jsstring) : bool :=
  match s with
  | 48%N :: p :: digits =>
      if ((p =? 120) || (p =? 88))%N then radix_digits 16 digits
      else if ((p =? 111) || (p =? 79))%N then radix_digits 8 digits
      else if ((p =? 98) || (p =? 66))%N then radix_digits 2 digits
      else false
  | _ => false
  end.

(** A value that [isNaN] does not take for a NaN, which is what Leaflet
    asks of a coordinate. *)
Definition is_coordinate (v : JS.jsval) : bool :=
  match v with
  | JS.JNum n => negb (JS.isNaN n)
  | JS.JBool _ => true
  | JS.JStr s =>
      match JS.trim s with
      | [] => true
      | t => is_decimal t || is_infinity t || is_radix_numeral t
      end
  | _ => false
  end.

#[export] Instance ascii_host : JS.Host.
Proof.
  refine {| JS.toLowerCase := map JS.ascii_lower;
            JS.toUpperCase := map JS.ascii_upper;
            JS.localeCompare := fun a b =>
              compare_units (map JS.ascii_lower a) (map JS.ascii_lower b);
            JS.Array_sort := @insertion_sort;
            JS.native_text := native_function;
            JS.inherited_text := inherited_member;
            JS.L_position := fun lat lng => is_coordinate lat && is_coordinate lng;
            JS.L_fitBounds := fun _ => true |}.
  - reflexivity.
  - reflexivity.
  - intros s. induction s as [|c s IH]; simpl; [reflexivity|].
    apply andb_true_iff. split; [|exact IH].
    unfold JS.ascii_lower, JS.is_ascii_upper.
    destruct ((65 <=? c)%N && (c <=? 90)%N) eqn:E; [|now rewrite E].
    apply andb_true_iff in E as [E1 E2].
    apply N.leb_le in E1. apply N.leb_le in E2.
    apply negb_true_iff, andb_false_iff. right. apply N.leb_gt. lia.
  - intros A cmp l. apply insertion_sort_perm.
  - intros v. split; [reflexivity|]. cbn. apply andb_false_r.
Defined.

(* ===================================================================== *)
(** * The scenario of the specification                                    *)
(* ===================================================================== *)

Module Example.
Import JS Sheet.

Definition blank_page (favorites_hidden : bool) : dom :=
  {| searchInput_value := [];
     favoritesContainer_hidden := favorites_hidden;
     loader_hidden := true;
     mapContainer_hidden := true;
     resultsContainer := Blank;
     favoritesList := Blank;
     favoritesList_first := false;
     map_created := false;
     mapContainer_initialized := false;
     markers := [] |}.

(** A signed-in page with a sheet chosen and the poll timer running,
    before the first load. *)
Definition session (editing favorites_hidden : bool) : state :=
  {| objects := [];
     arrays := [[]];
     currentSalons := 0;
     headers := [];
     currentSpreadsheetId := Some (lit "sheet-1");
     dataPollingInterval := Some 1%positive;
     lastDataState := [];
     isEditing := editing;
     currentSortKey := lit "none";
     currentSortDirection := asc;
     page := blank_page favorites_hidden;
     trace := [] |}.

Definition acme_headers : list jsstring :=
  [lit "Name"; lit "Address"; lit "Favorite"].

(** Headers [Name, Address, Favorite] and the row ["Acme", "1 Main St", "FALSE"]. *)
Definition acme : list (list jsstring) :=
  [acme_headers; [lit "Acme"; lit "1 Main St"; lit "FALSE"]].

(** The same sheet after someone marked the row as a favourite. *)
Definition acme_favorited : list (list jsstring) :=
  [acme_headers; [lit "Acme"; lit "1 Main St"; lit "TRUE"]].


(** The page after its first load of a sheet. *)
Definition loaded (favorites_hidden : bool) (data : list (list jsstring)) : state :=
  fst (loadData (Fetched (Some data)) (session false favorites_hidden)).

(** The page after the user typed [query] into the search box. *)
Definition searching (query : jsstring) (st : state) : state :=
  set_page (fun d =>
    {| searchInput_value := query;
       favoritesContainer_hidden := favoritesContainer_hidden d;
       loader_hidden := loader_hidden d;
       mapContainer_hidden := mapContainer_hidden d;
       resultsContainer := resultsContainer d;
       favoritesList := favoritesList d;
       favoritesList_first := favoritesList_first d;
       map_created := map_created d;
       mapContainer_initialized := mapContainer_initialized d;
       markers := markers d |}) st.

Definition not_found : exn :=
  RequestFailed (Some {| error_status := Some (lit "NOT_FOUND");
                         error_message := Some (lit "Requested entity was not found.") |}).


(** A lead as the AI variant holds it, and the page of that variant with
    the lead loaded and a telephone number typed into the search box. *)
Definition lead : object :=
  [(lit "name", JStr (lit "A")); (lit "address", JStr (lit "B"));
   (lit "phone", JStr (lit "555"))].

Definition leads : Scout.state :=
  {| Scout.currentBusinesses := [JObj lead];
     Scout.searchInput_value := lit "555";
     Scout.instagramHandleInput_value := [];
     Scout.followsFilterCheckbox_checked := false;
     Scout.resultsContainer := Scout.Blank;
     Scout.controls_hidden := true;
     Scout.map_created := false;
     Scout.markers := [] |}.

End Example.

(* ===================================================================== *)
(** * The sheet variant: choosing a sheet and signing out                  *)
(* ===================================================================== *)

Module Session.
Import JS Sheet.
Local Open Scope js_scope.

(** ** getSpreadsheetIdFromUrl *)

(** The class [[a-zA-Z0-9-_]]: after the range [0-9] the hyphen and the
    underscore stand for themselves. *)
Definition id_unit (c : N) : bool := (is_alnum c || (c =? 45) || (c =? 95))%N.

Fixpoint take_while (p : N -> bool) (s : jsstring) : jsstring :=
  match s with
  | c :: r => if p c then c :: take_while p r else []
  | [] => []
  end.

(** The expression [/\/spreadsheets\/d\/([a-zA-Z0-9-_]+)/] at the head of
    [s]: the literal, then the longest run of id characters, which must
    not be empty.  Nothing follows the group, so the greedy run is the
    capture. *)
Definition match_here (s : jsstring) : option jsstring :=
  if startsWith s (lit "/spreadsheets/d/") then
    match take_while id_unit (skipn 16 s) with
    | [] => None
    | id => Some id
    end
  else None.

(** [exec]: the match at the leftmost position that has one. *)
Fixpoint exec_id (s : jsstring) : option jsstring :=
  match match_here s with
  | Some id => Some id
  | None =>
      match s with
      | [] => None
      | _ :: r => exec_id r
      end
  end.

Definition getSpreadsheetIdFromUrl (url : jsstring) : jsstring :=
  match exec_id url with
  | Some id => id
  | None => url
  end.

(** ** updateSigninStatus *)

(** The page around the sheet view: the state of the sheet view and the
    [hidden] class of the four containers the sign-in status shows and
    hides. *)
Record shell := {
  app : state;
  authContainer_hidden : bool;
  signoutButton_hidden : bool;
  sheetContainer_hidden : bool;
  sortContainer_hidden : bool
}.

Definition set_app (f : state -> state) (s : shell) : shell :=
  {| app := f (app s);
     authContainer_hidden := authContainer_hidden s;
     signoutButton_hidden := signoutButton_hidden s;
     sheetContainer_hidden := sheetContainer_hidden s;
     sortContainer_hidden := sortContainer_hidden s |}.

Definition set_containers (auth signout sheet : bool) (s : shell) : shell :=
  {| app := app s;
     authContainer_hidden := auth;
     signoutButton_hidden := signout;
     sheetContainer_hidden := sheet;
     sortContainer_hidden := sortContainer_hidden s |}.

Definition set_sortContainer_hidden (b : bool) (s : shell) : shell :=
  {| app := app s;
     authContainer_hidden := authContainer_hidden s;
     signoutButton_hidden := signoutButton_hidden s;
     sheetContainer_hidden := sheetContainer_hidden s;
     sortContainer_hidden := b |}.

Definition set_currentSpreadsheetId (id : option jsstring) (s : state) : state :=
  {| objects := objects s; arrays := arrays s;
     currentSalons := currentSalons s; headers := headers s;
     currentSpreadsheetId := id;
     dataPollingInterval := dataPollingInterval s;
     lastDataState := lastDataState s; isEditing := isEditing s;
     currentSortKey := currentSortKey s;
     currentSortDirection := currentSortDirection s;
     page := page s; trace := trace s |}.

(** A statement of the sheet view, run inside the page. *)
Definition in_app {A} (c : Sheet.M A) : JS.M shell A :=
  fun s => let '(a, r) := c (app s) in (set_app (fun _ => a) s, r).

Definition updateSigninStatus (isSignedIn : bool) : JS.M shell unit :=
  if isSignedIn then
    modify (set_containers true false false)
  else
    run modify (set_containers false true true) in
    run in_app (modify (set_page (set_resultsContainer
                  (Notice "Please connect your Google Account to load a sheet.")))) in
    run in_app (modify (set_page (set_mapContainer_hidden true))) in
    run in_app (let* st := get in
                match dataPollingInterval st with
                | Some handle =>
                    run log (ClearInterval handle) in
                    modify (set_dataPollingInterval None)
                | None => ret tt
                end) in
    run in_app (modify (set_currentSpreadsheetId None)) in
    run in_app (let* fresh := new_array [] in modify (set_currentSalons fresh)) in
    modify (set_sortContainer_hidden true).

End Session.

(* ===================================================================== *)
(** * The AI variant: exporting and saving the leads                       *)
(* ===================================================================== *)

Module Desk.
Import JS Scout.
Local Open Scope js_scope.

(** ** String.prototype.split *)

(** [s.split(sep)] for a separator that is not empty: the pieces between
    the occurrences of [sep], found from the left and not overlapping.
    [skip] counts the code units of an occurrence still to pass over. *)
Fixpoint split_on (sep s : jsstring) (skip : nat) : list jsstring :=
  match s with
  | [] => [[]]
  | c :: r =>
      match skip with
      | S k => split_on sep r k
      | O =>
          if startsWith s sep then [] :: split_on sep r (length sep - 1)
          else match split_on sep r 0 with
               | piece :: rest => (c :: piece) :: rest
               | [] => [[c]]
               end
      end
  end.

Definition split (s sep : jsstring) : list jsstring :=
  match sep with
  | [] => map (fun c => [c]) s
  | _ => split_on sep s 0
  end.

(** ** The status line and the two save buttons *)

Inductive status_type := success | error.

(** A button as [setButtonLoadingState] leaves it: [disabled] and the
    class [loading]. *)
Record button := {
  disabled : bool;
  loading : bool
}.

Inductive request :=
| ConsoleError (text : string) (e : exn)
| SpreadsheetsCreate (title : jsstring)
| ValuesUpdate (spreadsheetId : jsval) (values : list (list jsstring))
| DriveUpload (body : jsstring)
| Download (fileName csvContent : jsstring).

Record desk := {
  view : Scout.state;
  statusMessage_innerHTML : jsstring;
  statusMessage_class : option status_type;   (* [visible] with the type, or no class *)
  status_timers : nat;                        (* callbacks of [showStatus] not yet run *)
  saveToSheetsButton : button;
  saveToDriveButton : button;
  requests : list request                     (* most recent last *)
}.

Definition set_status (html : jsstring) (class : option status_type)
           (timers : nat) (d : desk) : desk :=
  {| view := view d;
     statusMessage_innerHTML := html;
     statusMessage_class := class;
     status_timers := timers;
     saveToSheetsButton := saveToSheetsButton d;
     saveToDriveButton := saveToDriveButton d;
     requests := requests d |}.

Definition set_saveToSheetsButton (b : button) (d : desk) : desk :=
  {| view := view d;
     statusMessage_innerHTML := statusMessage_innerHTML d;
     statusMessage_class := statusMessage_class d;
     status_timers := status_timers d;
     saveToSheetsButton := b;
     saveToDriveButton := saveToDriveButton d;
     requests := requests d |}.

Definition set_saveToDriveButton (b : button) (d : desk) : desk :=
  {| view := view d;
     statusMessage_innerHTML := statusMessage_innerHTML d;
     statusMessage_class := statusMessage_class d;
     status_timers := status_timers d;
     saveToSheetsButton := saveToSheetsButton d;
     saveToDriveButton := b;
     requests := requests d |}.

Definition send (r : request) (d : desk) : desk :=
  {| view := view d;
     statusMessage_innerHTML := statusMessage_innerHTML d;
     statusMessage_class := statusMessage_class d;
     status_timers := status_timers d;
     saveToSheetsButton := saveToSheetsButton d;
     saveToDriveButton := saveToDriveButton d;
     requests := requests d ++ [r] |}.

Abbreviation M := (JS.M desk).

(** [showStatus(message, type)], with the default duration of five
    seconds: the message shows, and a timer is started. *)
Definition showStatus (message : jsstring) (type : status_type) : M unit :=
  modify (fun d => set_status message (Some type) (S (status_timers d)) d).

(** The callback of a timer of [showStatus]. *)
Definition status_expired : M unit :=
  modify (fun d => set_status (statusMessage_innerHTML d) None
                              (Nat.pred (status_timers d)) d).

Definition setButtonLoadingState (isLoading : bool) : button :=
  {| disabled := isLoading; loading := isLoading |}.

Section Program.
Context {U : Host}.

(** ** exportToCsv *)

Definition exportToCsv : M unit :=
  let* d := get in
  let* csvContent := lift (convertToCsv (currentBusinesses (view d))) in
  run modify (send (Download (lit "scout-ai-leads.csv") csvContent)) in
  showStatus (lit "CSV file downloaded.") success.

(** ** saveToSheets *)

(** What the awaited [spreadsheets.create] resolves with. *)
Record created := {
  spreadsheetId : jsval;
  spreadsheetUrl : jsval
}.

(** The [catch] and the [finally] of [saveToSheets]. *)
Definition saveToSheets_failed (e : exn) : M unit :=
  run modify (send (ConsoleError "Save to Sheets Error:" e)) in
  showStatus (lit "Failed to save to Google Sheets.") error.

Definition saveToSheets_finally : M unit :=
  modify (set_saveToSheetsButton (setButtonLoadingState false)).

(** Up to the first [await]; [now] is [new Date().toLocaleString()].  The
    answer tells whether the request is on its way. *)
Definition saveToSheets_click (now : jsstring) : M bool :=
  let* d := get in
  match currentBusinesses (view d) with
  | [] =>
      run showStatus (lit "No data to save.") error in
      ret false
  | _ =>
      run modify (set_saveToSheetsButton (setButtonLoadingState true)) in
      run modify (send (SpreadsheetsCreate (lit "Scout AI Leads - " ++ now))) in
      ret true
  end.

(** From the first [await] to the second: the answer is the sheet that
    was created when the values are on their way. *)
Definition saveToSheets_created (outcome : result created) : M (option created) :=
  let step : M (option created) :=
    match outcome with
    | Throw e => throw e
    | Ok sheetResponse =>
        let* d := get in
        let* csv := lift (convertToCsv (currentBusinesses (view d))) in
        let data := map (fun row => split row (lit ",")) (split csv [10%N]) in
        run modify (send (ValuesUpdate (spreadsheetId sheetResponse) data)) in
        ret (Some sheetResponse)
    end in
  fun d =>
    match step d with
    | (d', Ok r) => (d', Ok r)
    | (d', Throw e) =>
        (run saveToSheets_failed e in
         run saveToSheets_finally in
         ret None) d'
    end.

(** From the second [await] on. *)
Definition saveToSheets_updated (sheetResponse : created) (outcome : result unit) : M unit :=
  finally
    (try_catch
       (match outcome with
        | Throw e => throw e
        | Ok _ =>
            showStatus (lit "Successfully saved to <a href=" ++ [34%N]
                        ++ ToString (spreadsheetUrl sheetResponse) ++ [34%N]
                        ++ lit " target=" ++ [34%N] ++ lit "_blank" ++ [34%N]
                        ++ lit ">Google Sheet</a>.") success
        end)
       saveToSheets_failed)
    saveToSheets_finally.

(** One call of [saveToSheets] during which no other handler runs. *)
Definition saveToSheets (now : jsstring) (create : result created)
           (update : result unit) : M unit :=
  let* sent := saveToSheets_click now in
  if sent then
    let* pending := saveToSheets_created create in
    match pending with
    | Some sheetResponse => saveToSheets_updated sheetResponse update
    | None => ret tt
    end
  else ret tt.

(** ** saveToDrive *)

Definition boundary : jsstring := lit "-------314159265358979323846".
Definition crlf : jsstring := [13%N; 10%N].
Definition delimiter : jsstring := crlf ++ lit "--" ++ boundary ++ crlf.
Definition close_delim : jsstring := crlf ++ lit "--" ++ boundary ++ lit "--".

Definition multipartRequestBody (fileName csvContent : jsstring) : jsstring :=
  delimiter
  ++ lit "Content-Type: application/json; charset=UTF-8" ++ crlf ++ crlf
  ++ JSON_stringify (JObj [(lit "name", JStr fileName);
                           (lit "mimeType", JStr (lit "text/csv"))])
  ++ delimiter
  ++ lit "Content-Type: text/csv" ++ crlf ++ crlf
  ++ csvContent
  ++ close_delim.

(** Up to the [await]; [now] is [new Date().toISOString()].  The CSV text
    is built before the [try] block is entered.  The answer is the file
    name when the upload is on its way. *)
Definition saveToDrive_click (now : jsstring) : M (option jsstring) :=
  let* d := get in
  match currentBusinesses (view d) with
  | [] =>
      run showStatus (lit "No data to save.") error in
      ret None
  | _ =>
      run modify (set_saveToDriveButton (setButtonLoadingState true)) in
      let* csvContent := lift (convertToCsv (currentBusinesses (view d))) in
      let fileName := lit "scout-ai-leads-" ++ now ++ lit ".csv" in
      run modify (send (DriveUpload (multipartRequestBody fileName csvContent))) in
      ret (Some fileName)
  end.

(** From the [await] on. *)
Definition saveToDrive_settled (fileName : jsstring) (outcome : result unit) : M unit :=
  finally
    (try_catch
       (match outcome with
        | Throw e => throw e
        | Ok _ =>
            showStatus (lit "CSV saved to Google Drive as " ++ [34%N]
                        ++ fileName ++ [34%N] ++ lit ".") success
        end)
       (fun e =>
          run modify (send (ConsoleError "Save to Drive Error:" e)) in
          showStatus (lit "Failed to save CSV to Google Drive.") error))
    (modify (set_saveToDriveButton (setButtonLoadingState false))).

(** One call of [saveToDrive] during which no other handler runs. *)
Definition saveToDrive (now : jsstring) (upload : result unit) : M unit :=
  let* pending := saveToDrive_click now in
  match pending with
  | Some fileName => saveToDrive_settled fileName upload
  | None => ret tt
  end.

End Program.

End Desk.


(* ===================================================================== *)
(** * More examples                                                        *)
(* ===================================================================== *)

Module Sample.
Import JS Sheet Example Desk.

(** A sheet without a favourite column. *)
Definition plain_sheet : list (list jsstring) :=
  [[lit "Name"; lit "Address"]; [lit "Acme"; lit "1 Main St"]].

(** A sheet whose row has text in a [Sources] column. *)
Definition sourced_sheet : list (list jsstring) :=
  [[lit "Name"; lit "Address"; lit "Sources"];
   [lit "Acme"; lit "1 Main St"; lit "https://example.com"]].

(** The record of the row of [acme]. *)
Definition acme_record : object :=
  default [] (objects (loaded true acme) !! 0%nat).

(** The record of another row. *)
Definition bolt_record : object :=
  [(lit "rowIndex", JNum (of_Z 3)); (lit "name", JStr (lit "Bolt"));
   (lit "address", JStr (lit "9 Elm Rd"))].




(** A lead whose address holds a comma. *)
Definition lead_in_town : object :=
  [(lit "name", JStr (lit "A")); (lit "address", JStr (lit "1 Main St, Springfield"))].

(** The page of the AI variant with these leads, nothing typed and
    nothing rendered yet. *)
Definition holding (businesses : list jsval) : Scout.state :=
  {| Scout.currentBusinesses := businesses;
     Scout.searchInput_value := [];
     Scout.instagramHandleInput_value := [];
     Scout.followsFilterCheckbox_checked := false;
     Scout.resultsContainer := Scout.Blank;
     Scout.controls_hidden := true;
     Scout.map_created := false;
     Scout.markers := [] |}.


(** The same page with its status line and its save buttons at rest. *)
Definition at_rest (businesses : list jsval) : desk :=
  {| view := holding businesses;
     statusMessage_innerHTML := [];
     statusMessage_class := None;
     status_timers := 0;
     saveToSheetsButton := setButtonLoadingState false;
     saveToDriveButton := setButtonLoadingState false;
     requests := [] |}.

Definition new_sheet : created :=
  {| spreadsheetId := JStr (lit "sheet-2");
     spreadsheetUrl := JStr (lit "https://docs.google.com/spreadsheets/d/sheet-2/edit") |}.

End Sample.
(* ===================================================================== *)
(** * Properties of the run time                                           *)
(* ===================================================================== *)

Module JSFacts.
Import JS Decode.

Lemma str_eqb_eq (a b : jsstring) : str_eqb a b = true <-> a = b.
Proof.
  revert b. induction a as [|x a IH]; intros [|y b]; simpl; split;
    try congruence; try reflexivity.
  - intros H. apply andb_true_iff in H as [Hx Hr].
    apply N.eqb_eq in Hx. apply IH in Hr. congruence.
  - intros H. injection H as -> ->. rewrite N.eqb_refl. simpl. now apply IH.
Qed.

Lemma str_eqb_refl (a : jsstring) : str_eqb a a = true.
Proof. now apply str_eqb_eq. Qed.

Lemma str_eqb_neq (a b : jsstring) : str_eqb a b = false <-> a <> b.
Proof.
  destruct (str_eqb a b) eqn:E.
  - apply str_eqb_eq in E. split; [discriminate | congruence].
  - split; [|reflexivity]. intros _ H. apply str_eqb_eq in H. congruence.
Qed.

Lemma lit_cons (s : string) :
  s <> EmptyString -> lit s <> [].
Proof. destruct s; [congruence|]. intros _. discriminate. Qed.


(** ** JSON.stringify is injective on rows of strings *)

Lemma hex_value_lower (x : N) : (x < 16)%N -> hex_value (hex_lower x) = Some x.
Proof.
  intros H. unfold hex_value, hex_lower.
  destruct (x <? 10)%N eqn:E.
  - apply N.ltb_lt in E.
    replace ((48 <=? 48 + x) && (48 + x <=? 57))%N with true.
    + f_equal. lia.
    + symmetry. apply andb_true_iff. split; apply N.leb_le; lia.
  - apply N.ltb_ge in E.
    replace ((48 <=? 87 + x) && (87 + x <=? 57))%N with false.
    + replace ((97 <=? 87 + x) && (87 + x <=? 102))%N with true.
      * f_equal. lia.
      * symmetry. apply andb_true_iff. split; apply N.leb_le; lia.
    + symmetry. apply andb_false_iff. right. apply N.leb_gt. lia.
Qed.

Lemma hex_digits_value (c : N) :
  (c < 65536)%N ->
  (c / 4096 mod 16 * 4096 + c / 256 mod 16 * 256 + c / 16 mod 16 * 16 + c mod 16 = c)%N.
Proof.
  intros H.
  assert (H1 := N.div_mod c 16).
  assert (H2 := N.div_mod (c / 16) 16).
  assert (H3 := N.div_mod (c / 256) 16).
  assert (E2 : (c / 16 / 16 = c / 256)%N) by (rewrite N.Div0.div_div; reflexivity).
  assert (E3 : (c / 256 / 16 = c / 4096)%N) by (rewrite N.Div0.div_div; reflexivity).
  assert (H4 : (c / 4096 < 16)%N) by (apply N.Div0.div_lt_upper_bound; lia).
  rewrite (N.mod_small (c / 4096) 16) by exact H4.
  rewrite E2 in H2. rewrite E3 in H3. lia.
Qed.

Lemma unquote_unicode_escape (c : N) (t : jsstring) :
  (c < 65536)%N ->
  unquote_body (unicode_escape c ++ t) = push c (unquote_body t).
Proof.
  intros Hc. unfold unicode_escape. cbn [app unquote_body].
  change (92 =? 34)%N with false. change (92 =? 92)%N with true.
  change (117 =? 117)%N with true. cbv iota.
  rewrite !hex_value_lower by (apply N.mod_lt; discriminate).
  now rewrite hex_digits_value.
Qed.

(** Decoding undoes the escape of one code unit. *)
Lemma unquote_json_escape (c : N) (t : jsstring) :
  unquote_body (json_escape c ++ t) = push c (unquote_body t).
Proof.
  unfold json_escape.
  destruct (c =? 8)%N eqn:E8; [apply N.eqb_eq in E8; subst; reflexivity|].
  destruct (c =? 9)%N eqn:E9; [apply N.eqb_eq in E9; subst; reflexivity|].
  destruct (c =? 10)%N eqn:E10; [apply N.eqb_eq in E10; subst; reflexivity|].
  destruct (c =? 12)%N eqn:E12; [apply N.eqb_eq in E12; subst; reflexivity|].
  destruct (c =? 13)%N eqn:E13; [apply N.eqb_eq in E13; subst; reflexivity|].
  destruct (c =? 34)%N eqn:E34; [apply N.eqb_eq in E34; subst; reflexivity|].
  destruct (c =? 92)%N eqn:E92; [apply N.eqb_eq in E92; subst; reflexivity|].
  destruct ((c <? 32)%N || is_high_surrogate c || is_low_surrogate c) eqn:E.
  - apply unquote_unicode_escape.
    unfold is_high_surrogate, is_low_surrogate in E.
    apply orb_true_iff in E as [E|E]; [apply orb_true_iff in E as [E|E]|].
    + apply N.ltb_lt in E. lia.
    + apply andb_true_iff in E as [_ E]. apply N.leb_le in E. lia.
    + apply andb_true_iff in E as [_ E]. apply N.leb_le in E. lia.
  - cbn [app unquote_body]. now rewrite E34, E92.
Qed.

Lemma unquote_raw (c : N) (t : jsstring) :
  (c =? 34)%N = false -> (c =? 92)%N = false ->
  unquote_body (c :: t) = push c (unquote_body t).
Proof. intros H1 H2. cbn [unquote_body]. now rewrite H1, H2. Qed.

Lemma surrogate_raw (c : N) :
  is_high_surrogate c || is_low_surrogate c = true ->
  (c =? 34)%N = false /\ (c =? 92)%N = false.
Proof.
  unfold is_high_surrogate, is_low_surrogate. intros H.
  assert (55296 <= c)%N.
  { apply orb_true_iff in H as [H|H]; apply andb_true_iff in H as [H _];
      apply N.leb_le in H; lia. }
  split; apply N.eqb_neq; lia.
Qed.

Lemma quote_body_pair (c d : N) (s : jsstring) :
  is_high_surrogate c && is_low_surrogate d = true ->
  quote_body (c :: d :: s) = c :: d :: quote_body s.
Proof. intros E. change (quote_body (c :: d :: s)) with
  (if is_high_surrogate c && is_low_surrogate d
   then c :: d :: quote_body s else json_escape c ++ quote_body (d :: s)).
  now rewrite E.
Qed.

Lemma quote_body_lone (c d : N) (s : jsstring) :
  is_high_surrogate c && is_low_surrogate d = false ->
  quote_body (c :: d :: s) = json_escape c ++ quote_body (d :: s).
Proof. intros E. change (quote_body (c :: d :: s)) with
  (if is_high_surrogate c && is_low_surrogate d
   then c :: d :: quote_body s else json_escape c ++ quote_body (d :: s)).
  now rewrite E.
Qed.

(** Reading back a quoted body gives the string and what followed it. *)
Lemma unquote_quote_body (s r : jsstring) :
  unquote_body (quote_body s ++ 34%N :: r) = Some (s, r).
Proof.
  remember (length s) as n eqn:Hn.
  revert s Hn. induction n as [n IH] using lt_wf_ind. intros s Hn.
  destruct s as [|c [|d s]].
  - reflexivity.
  - change (quote_body [c]) with (json_escape c).
    rewrite unquote_json_escape. reflexivity.
  - destruct (is_high_surrogate c && is_low_surrogate d) eqn:E.
    + rewrite quote_body_pair by exact E.
      apply andb_true_iff in E as [Ec Ed].
      destruct (surrogate_raw c) as [c1 c2]; [now rewrite Ec|].
      destruct (surrogate_raw d) as [d1 d2]; [now rewrite Ed, orb_true_r|].
      rewrite <- !app_comm_cons. rewrite unquote_raw, unquote_raw by assumption.
      rewrite (IH (length s)); [reflexivity | subst; simpl; lia | reflexivity].
    + rewrite quote_body_lone by exact E.
      rewrite <- app_assoc, unquote_json_escape.
      rewrite (IH (length (d :: s))); [reflexivity | subst; simpl; lia | reflexivity].
Qed.

(** An encoder is self-delimiting when the end of an encoded value can be
    told without looking at what follows it. *)
Definition self_delimiting {A} (enc : A -> jsstring) : Prop :=
  forall x y t u, enc x ++ t = enc y ++ u -> x = y /\ t = u.

Definition json_array {A} (enc : A -> jsstring) (l : list A) : jsstring :=
  [91%N] ++ join [44%N] (map enc l) ++ [93%N].

Lemma quote_self_delimiting : self_delimiting quote.
Proof.
  intros x y t u H. unfold quote in H. rewrite <- !app_assoc in H.
  simpl in H. injection H as H.
  assert (E := unquote_quote_body x t). rewrite H, unquote_quote_body in E.
  injection E as -> ->. auto.
Qed.

(** The elements of an array after the first: each follows a comma. *)
Lemma join_cons {A} (enc : A -> jsstring) (x : A) (l : list A) :
  join [44%N] (map enc (x :: l)) = enc x ++ flat_map (fun y => 44%N :: enc y) l.
Proof.
  revert x. induction l as [|y l IH]; intros x.
  - simpl. now rewrite app_nil_r.
  - change (join [44%N] (map enc (x :: y :: l)))
      with (enc x ++ [44%N] ++ join [44%N] (map enc (y :: l))).
    rewrite IH. reflexivity.
Qed.

Lemma array_tail_inj {A} (enc : A -> jsstring) :
  self_delimiting enc ->
  forall l1 l2 t u,
    flat_map (fun y => 44%N :: enc y) l1 ++ 93%N :: t =
    flat_map (fun y => 44%N :: enc y) l2 ++ 93%N :: u ->
    l1 = l2 /\ t = u.
Proof.
  intros Henc. induction l1 as [|x l1 IH]; intros [|y l2] t u H; simpl in H.
  - injection H as ->. auto.
  - discriminate.
  - discriminate.
  - injection H as H. rewrite <- !app_assoc in H.
    apply Henc in H as [-> H]. apply IH in H as [-> ->]. auto.
Qed.

Lemma json_array_self_delimiting {A} (enc : A -> jsstring) :
  self_delimiting enc ->
  (forall x, exists c r, enc x = c :: r /\ c <> 93%N) ->
  self_delimiting (json_array enc).
Proof.
  intros Henc Hhead l1 l2 t u H. unfold json_array in H.
  simpl in H. injection H as H. rewrite <- !app_assoc in H. simpl in H.
  destruct l1 as [|x l1], l2 as [|y l2].
  - simpl in H. injection H as ->. auto.
  - rewrite join_cons in H. destruct (Hhead y) as (c & r & E & Hc).
    rewrite E in H. simpl in H. congruence.
  - rewrite join_cons in H. destruct (Hhead x) as (c & r & E & Hc).
    rewrite E in H. simpl in H. congruence.
  - rewrite !join_cons, <- !app_assoc in H.
    apply Henc in H as [-> H].
    apply (array_tail_inj enc Henc) in H as [-> ->]. auto.
Qed.

Lemma self_delimiting_inj {A} (enc : A -> jsstring) :
  self_delimiting enc -> forall x y, enc x = enc y -> x = y.
Proof.
  intros H x y E. apply (H x y [] []). now rewrite E.
Qed.

Lemma stringify_strings (l : list jsstring) :
  stringify (JArr (map JStr l)) = Some (json_array quote l).
Proof.
  cbn [stringify]. unfold json_array. rewrite map_map. reflexivity.
Qed.

Lemma stringify_rows (data : list (list jsstring)) :
  stringify (JArr (map (fun row => JArr (map JStr row)) data))
  = Some (json_array (json_array quote) data).
Proof.
  cbn [stringify]. unfold json_array at 1. rewrite map_map.
  do 4 f_equal. apply map_ext. intros row.
  change (match stringify (JArr (map JStr row)) with
          | Some t => t | None => lit "null" end = json_array quote row).
  now rewrite stringify_strings.
Qed.

Lemma strings_array_self_delimiting : self_delimiting (json_array quote).
Proof.
  apply json_array_self_delimiting; [apply quote_self_delimiting|].
  intros x. exists 34%N, (quote_body x ++ [34%N]). split; [reflexivity|discriminate].
Qed.

(** Two header rows with the same serialization are the same row. *)
Lemma JSON_stringify_strings_inj (l1 l2 : list jsstring) :
  JSON_stringify (JArr (map JStr l1)) = JSON_stringify (JArr (map JStr l2)) ->
  l1 = l2.
Proof.
  unfold JSON_stringify. rewrite !stringify_strings.
  apply self_delimiting_inj, strings_array_self_delimiting.
Qed.

(** Two row sets with the same serialization are the same row set: the
    comparison of serializations misses no difference. *)
Lemma JSON_stringify_rows_inj (d1 d2 : list (list jsstring)) :
  JSON_stringify (JArr (map (fun row => JArr (map JStr row)) d1))
  = JSON_stringify (JArr (map (fun row => JArr (map JStr row)) d2)) ->
  d1 = d2.
Proof.
  unfold JSON_stringify. rewrite !stringify_rows.
  apply self_delimiting_inj, json_array_self_delimiting.
  - apply strings_array_self_delimiting.
  - intros x. exists 91%N, (join [44%N] (map quote x) ++ [93%N]).
    split; [reflexivity|discriminate].
Qed.

(** ** Frame reasoning

    [respects R c]: every run of [c] takes a state to one related to it by
    [R], whether it completes or throws. *)

Section Frame.
Context {S : Type} (R : relation S) `{!PreOrder R}.
Local Open Scope js_scope.

Definition respects {A} (c : M S A) : Prop := forall s, R s (fst (c s)).

Lemma respects_ret {A} (a : A) : respects (ret a).
Proof. intros s. reflexivity. Qed.

Lemma respects_throw {A} (e : exn) : respects (@throw S A e).
Proof. intros s. reflexivity. Qed.

Lemma respects_lift {A} (r : result A) : respects (lift r).
Proof. intros s. reflexivity. Qed.

Lemma respects_pure {A} (c : M S A) : (forall s, fst (c s) = s) -> respects c.
Proof. intros H s. rewrite H. reflexivity. Qed.

Lemma respects_get : respects get.
Proof. intros s. reflexivity. Qed.

Lemma respects_modify (f : S -> S) :
  (forall s, R s (f s)) -> respects (modify f).
Proof. intros H s. apply H. Qed.

Lemma respects_bind {A B} (c : M S A) (k : A -> M S B) :
  respects c -> (forall a, respects (k a)) -> respects (bind c k).
Proof.
  intros Hc Hk s. unfold bind. specialize (Hc s).
  destruct (c s) as [s' [a|e]]; simpl in *; [|exact Hc].
  etransitivity; [exact Hc | apply Hk].
Qed.

Lemma respects_try_catch {A} (c : M S A) (h : exn -> M S A) :
  respects c -> (forall e, respects (h e)) -> respects (try_catch c h).
Proof.
  intros Hc Hh s. unfold try_catch. specialize (Hc s).
  destruct (c s) as [s' [a|e]]; simpl in *; [exact Hc|].
  etransitivity; [exact Hc | apply Hh].
Qed.

Lemma respects_finally {A} (c : M S A) (f : M S unit) :
  respects c -> respects f -> respects (finally c f).
Proof.
  intros Hc Hf s. unfold finally. specialize (Hc s).
  destruct (c s) as [s' r]. specialize (Hf s').
  destruct (f s') as [s'' [[]|e]]; simpl in *; etransitivity; eauto.
Qed.

Lemma respects_for_each {A} (l : list A) (body : A -> M S unit) :
  (forall x, respects (body x)) -> respects (for_each l body).
Proof.
  intros Hb. induction l as [|x l IH]; simpl.
  - apply respects_ret.
  - apply respects_bind; auto.
Qed.

End Frame.

(** Relations the frame lemmas are used with. *)

Definition same {S X} (f : S -> X) : relation S :=
  fun s s' => f s' = f s.

#[export] Instance same_preorder {S X} (f : S -> X) : PreOrder (same f).
Proof.
  split.
  - intros s. reflexivity.
  - intros a b c Hab Hbc. unfold same in *. congruence.
Qed.

Ltac frame_core :=
  match goal with
  | |- respects _ (bind _ _) => apply respects_bind; [typeclasses eauto| |intros]
  | |- respects _ (try_catch _ _) =>
      apply respects_try_catch; [typeclasses eauto| |intros]
  | |- respects _ (finally _ _) => apply respects_finally; [typeclasses eauto| |]
  | |- respects _ (for_each _ _) =>
      apply respects_for_each; [typeclasses eauto|intros]
  | |- respects _ (ret _) => apply respects_ret; typeclasses eauto
  | |- respects _ (throw _) => apply respects_throw; typeclasses eauto
  | |- respects _ (lift _) => apply respects_lift; typeclasses eauto
  | |- respects _ get => apply respects_get; typeclasses eauto
  | |- respects _ (match ?x with _ => _ end) => destruct x
  | |- respects _ (let _ := _ in _) => cbv zeta
  end.

(** The text a field is matched on: the field itself when it is a string,
    nothing when it is absent or empty. *)
Definition field_text (v : jsval) : jsstring :=
  match or_else v (JStr []) with
  | JStr s => s
  | _ => []
  end.

Lemma filter_result_filter {A} (p : A -> result bool) (f : A -> bool)
      (l kept : list A) :
  (forall x b, p x = Ok b -> b = f x) ->
  filter_result p l = Ok kept -> kept = List.filter f l.
Proof.
  intros Hp. revert kept. induction l as [|x l IH]; intros kept H; simpl in *.
  - now injection H as <-.
  - destruct (p x) as [b|] eqn:Ex; [|discriminate].
    destruct (filter_result p l) as [k|]; [|discriminate].
    injection H as <-. rewrite <- (Hp x b Ex), (IH k eq_refl). reflexivity.
Qed.

Lemma filter_result_total {A} (p : A -> result bool) (l : list A) :
  Forall (fun x => exists b, p x = Ok b) l -> exists k, filter_result p l = Ok k.
Proof.
  induction 1 as [|x l [b Hb] _ [k Hk]]; cbn [filter_result]; [eauto|].
  rewrite Hb, Hk. eauto.
Qed.

Lemma map_result_inv {A B} (f : A -> result B) (l : list A) (ys : list B) :
  map_result f l = Ok ys -> Forall2 (fun x y => f x = Ok y) l ys.
Proof.
  revert ys. induction l as [|x l IH]; intros ys; cbn [map_result].
  - intros [= <-]. constructor.
  - destruct (f x) as [y|e] eqn:E; [|discriminate].
    destruct (map_result f l) as [ys'|e]; [|discriminate].
    intros [= <-]. constructor; [exact E | now apply IH].
Qed.

(** ** Plain objects *)

Lemma obj_get_put_same (o : object) (k : jsstring) (v : jsval) :
  obj_get (obj_put o k v) k = v.
Proof.
  induction o as [|[k' v'] o IH]; simpl.
  - now rewrite str_eqb_refl.
  - destruct (str_eqb k' k) eqn:E; simpl; now rewrite E.
Qed.

Lemma obj_get_put_other (o : object) (k k' : jsstring) (v : jsval) :
  k <> k' -> obj_get (obj_put o k v) k' = obj_get o k'.
Proof.
  intros Hne. induction o as [|[k0 v0] o IH]; simpl.
  - apply str_eqb_neq in Hne. now rewrite Hne.
  - destruct (str_eqb k0 k) eqn:E; simpl.
    + apply str_eqb_eq in E. subst k0.
      apply str_eqb_neq in Hne. now rewrite Hne.
    + now rewrite IH.
Qed.

Lemma obj_get_set_other (o : object) (k k' : jsstring) (v : jsval) :
  k <> k' -> obj_get (obj_set o k v) k' = obj_get o k'.
Proof.
  intros Hne. unfold obj_set.
  destruct (str_eqb k (lit "__proto__") && negb (has_own o k)); [reflexivity|].
  now apply obj_get_put_other.
Qed.

Lemma obj_get_set_same (o : object) (k : jsstring) (v : jsval) :
  k <> lit "__proto__" -> obj_get (obj_set o k v) k = v.
Proof.
  intros Hne. unfold obj_set. apply str_eqb_neq in Hne. rewrite Hne. simpl.
  apply obj_get_put_same.
Qed.

(** ** The characters of a Number's text *)

(** The code units [Number.prototype.toString] can produce: the digits,
    the point, the sign and exponent marks, and the letters of [Infinity]
    and [NaN]. *)
Definition numeral_unit (c : N) : bool :=
  is_digit c
  || existsb (N.eqb c) [43; 45; 46; 101; 73; 110; 102; 105; 116; 121; 78; 97]%N.

Definition numeral (s : jsstring) : bool := forallb numeral_unit s.

Lemma numeral_app (s t : jsstring) :
  numeral (s ++ t) = numeral s && numeral t.
Proof. apply forallb_app. Qed.

Lemma uint_units_numeral (d : Decimal.uint) : numeral (uint_units d) = true.
Proof. induction d; simpl; auto. Qed.

Lemma decimal_numeral (n : N) : numeral (decimal n) = true.
Proof. apply uint_units_numeral. Qed.

Lemma zeros_numeral (n : Z) : numeral (zeros n) = true.
Proof. unfold zeros. induction (Z.to_nat n); simpl; auto. Qed.

Lemma numeral_split (n : nat) (s : jsstring) :
  numeral s = true ->
  numeral (firstn n s) = true /\ numeral (skipn n s) = true.
Proof.
  intros H. rewrite <- (firstn_skipn n s), numeral_app in H.
  now apply andb_true_iff in H.
Qed.

Lemma format_digits_numeral (ds : jsstring) (n : Z) :
  numeral ds = true -> numeral (format_digits ds n) = true.
Proof.
  intros Hds. unfold format_digits.
  destruct (_ && _).
  { now rewrite numeral_app, Hds, zeros_numeral. }
  destruct (_ && _).
  { destruct (numeral_split (Z.to_nat n) ds Hds) as [H1 H2].
    rewrite !numeral_app, H1, H2. reflexivity. }
  destruct (_ && _).
  { rewrite !numeral_app, Hds, zeros_numeral. reflexivity. }
  assert (He : numeral [101%N; if (0 <=? n - 1)%Z then 43%N else 45%N] = true)
    by (now destruct (0 <=? n - 1)%Z).
  destruct ds as [|d [|d' rest]].
  - now rewrite numeral_app, He, decimal_numeral.
  - change (numeral ([d] ++ [101%N; if (0 <=? n - 1)%Z then 43%N else 45%N]
                        ++ decimal (Z.to_N (Z.abs (n - 1)))) = true).
    now rewrite !numeral_app, Hds, He, decimal_numeral.
  - change (numeral ([d] ++ [46%N] ++ (d' :: rest)
                     ++ [101%N; if (0 <=? n - 1)%Z then 43%N else 45%N]
                     ++ decimal (Z.to_N (Z.abs (n - 1)))) = true).
    change (numeral ([d] ++ d' :: rest) = true) in Hds.
    rewrite numeral_app in Hds. apply andb_true_iff in Hds as [Hd Hr].
    now rewrite !numeral_app, Hd, Hr, He, decimal_numeral.
Qed.

(** The text of a Number holds numeral characters only. *)
Lemma Number_toString_numeral (x : number) : numeral (Number_toString x) = true.
Proof.
  destruct x as [neg|neg| |neg m e]; try reflexivity.
  - destruct neg; reflexivity.
  - unfold Number_toString.
    destruct (if (0 <=? e)%Z then _ else _) as [a b].
    destruct (shortest_from _ _ _ _ _ _) as [s p].
    destruct (strip_zeros _ _ _) as [s' p'].
    rewrite numeral_app, format_digits_numeral by apply decimal_numeral.
    now destruct neg.
Qed.

(** A string with a character that no Number's text has is not the text
    of a Number. *)
Lemma not_numeral_not_text (s : jsstring) (x : number) :
  numeral s = false -> str_eqb s (Number_toString x) = false.
Proof.
  intros H. destruct (str_eqb s (Number_toString x)) eqn:E; [|reflexivity].
  apply str_eqb_eq in E. rewrite E, Number_toString_numeral in H. discriminate.
Qed.

End JSFacts.

(* ===================================================================== *)
(** * Properties of the sheet variant                                      *)
(* ===================================================================== *)

Module SheetFacts.
Import JS Sheet JSFacts.
Local Open Scope js_scope.

(** Unfolds the monad and the accessors of the state, and nothing else. *)
Ltac mstep :=
  unfold bind, ret, get, modify, log, lift, throw, try_catch, finally,
         setLoading, displayError, read_object, write_object, read_array,
         new_array, write_array, new_objects, read_objects in *;
  cbn [emit set_page set_objects set_arrays set_currentSalons set_headers
       set_dataPollingInterval set_lastDataState
       set_loader_hidden set_mapContainer_hidden set_resultsContainer
       set_favoritesList set_map_created set_mapContainer_initialized
       set_markers
       objects arrays currentSalons headers currentSpreadsheetId
       dataPollingInterval lastDataState isEditing currentSortKey
       currentSortDirection page trace
       searchInput_value favoritesContainer_hidden loader_hidden
       mapContainer_hidden resultsContainer favoritesList
       favoritesList_first map_created mapContainer_initialized markers
       fst snd] in *.

(** Arrays are only added: every array that exists keeps its elements. *)
Definition arrays_kept : relation state :=
  fun s s' => exists more, arrays s' = arrays s ++ more.

#[export] Instance arrays_kept_preorder : PreOrder arrays_kept.
Proof.
  split.
  - intros s. exists []. now rewrite app_nil_r.
  - intros a b c [m1 H1] [m2 H2]. exists (m1 ++ m2).
    rewrite H2, H1. now rewrite app_assoc.
Qed.


(** Relations that do not look at the page, at the trace, or at arrays
    that are added. *)
Class Blind (R : relation state) := {
  blind_page : forall f s, R s (set_page f s);
  blind_trace : forall e s, R s (emit e s);
  blind_alloc : forall x s, R s (set_arrays (fun a => a ++ [x]) s)
}.

#[export] Instance arrays_kept_blind : Blind arrays_kept.
Proof.
  split; intros; unfold arrays_kept; simpl.
  - exists []. now rewrite app_nil_r.
  - exists []. now rewrite app_nil_r.
  - now exists [x].
Qed.

(** Once the timer is cleared it stays cleared. *)
Definition stays_stopped : relation state :=
  fun s s' => dataPollingInterval s = None -> dataPollingInterval s' = None.

#[export] Instance stays_stopped_preorder : PreOrder stays_stopped.
Proof. split; unfold stays_stopped; [intros s; auto | intros a b c; auto]. Qed.

#[export] Instance stays_stopped_blind : Blind stays_stopped.
Proof. split; intros; unfold stays_stopped; simpl; auto. Qed.

#[export] Instance same_objects_blind : Blind (same objects).
Proof. split; reflexivity. Qed.
#[export] Instance same_headers_blind : Blind (same headers).
Proof. split; reflexivity. Qed.
#[export] Instance same_lastDataState_blind : Blind (same lastDataState).
Proof. split; reflexivity. Qed.
#[export] Instance same_currentSalons_blind : Blind (same currentSalons).
Proof. split; reflexivity. Qed.
#[export] Instance same_isEditing_blind : Blind (same isEditing).
Proof. split; reflexivity. Qed.
#[export] Instance same_currentSpreadsheetId_blind : Blind (same currentSpreadsheetId).
Proof. split; reflexivity. Qed.
#[export] Instance same_dataPollingInterval_blind : Blind (same dataPollingInterval).
Proof. split; reflexivity. Qed.

(** The trace only grows. *)
Definition trace_grows : relation state :=
  fun s s' => exists more, trace s' = trace s ++ more.

#[export] Instance trace_grows_preorder : PreOrder trace_grows.
Proof.
  split.
  - intros s. exists []. now rewrite app_nil_r.
  - intros a b c [m1 H1] [m2 H2]. exists (m1 ++ m2).
    rewrite H2, H1. now rewrite app_assoc.
Qed.

#[export] Instance trace_grows_blind : Blind trace_grows.
Proof.
  split; intros; unfold trace_grows; simpl.
  - exists []. now rewrite app_nil_r.
  - now exists [e].
  - exists []. now rewrite app_nil_r.
Qed.

Create HintDb frame discriminated.

Ltac frame_side :=
  first [ apply blind_page | apply blind_trace | apply blind_alloc
        | reflexivity
        | progress (unfold stays_stopped, same; simpl; intros; auto) ].

Ltac frame_step :=
  first
    [ frame_core
    | match goal with
      | |- respects _ (read_object _) =>
          apply respects_pure; [typeclasses eauto|reflexivity]
      | |- respects _ (read_objects _) =>
          apply respects_pure; [typeclasses eauto|reflexivity]
      | |- respects _ (read_array _) =>
          apply respects_pure; [typeclasses eauto|reflexivity]
      | |- respects _ (new_array _) => intros ?; first [apply blind_alloc | frame_side]
      | |- respects _ (new_objects _) => intros ?; frame_side
      | |- respects _ (write_object _ _) => apply respects_modify; intros; frame_side
      | |- respects _ (write_array _ _) => apply respects_modify; intros; frame_side
      | |- respects _ (log _) => apply respects_modify; intros; frame_side
      | |- respects _ (modify _) => apply respects_modify; intros; frame_side
      | |- respects _ (setLoading _) => apply respects_modify; intros; frame_side
      | |- respects _ _ => solve [eauto with frame typeclass_instances]
      end ].

Ltac frame := repeat frame_step.

Section Frames.
Context {U : Host}.
Context (R : relation state) `{!PreOrder R} `{!Blind R}.

Lemma displayError_respects message : respects R (displayError message).
Proof. unfold displayError. frame. Qed.

Lemma setView_respects lat lon : respects R (setView lat lon).
Proof. unfold setView. frame. Qed.

Lemma initMap_respects lat lon : respects R (initMap lat lon).
Proof. unfold initMap. frame; apply setView_respects. Qed.

Lemma add_marker_respects salonId latitude longitude :
  respects R (add_marker salonId latitude longitude).
Proof. unfold add_marker. frame. Qed.

Lemma updateMap_respects salons : respects R (updateMap salons).
Proof.
  unfold updateMap. frame;
    first [apply initMap_respects | apply add_marker_respects].
Qed.

Lemma displayResults_respects salons : respects R (displayResults salons).
Proof. unfold displayResults. frame; apply updateMap_respects. Qed.

Lemma displayFavorites_respects : respects R displayFavorites.
Proof. unfold displayFavorites. frame. Qed.

(** [sortSalons] adds one array, the sorted copy, and touches no other. *)
Lemma sortSalons_run salons key direction (s : state) :
  sortSalons salons key direction s =
  (set_arrays (fun a => a ++ [Array_sort
     (fun a b => compare_salons key (sign direction)
                   (default [] (objects s !! a)) (default [] (objects s !! b)))
     (default [] (arrays s !! salons))]) s,
   Ok (length (arrays s))).
Proof.
  unfold sortSalons. mstep. f_equal.
  destruct s; unfold set_arrays; simpl. f_equal.
  rewrite list_lookup_middle by reflexivity. simpl.
  rewrite insert_app_r_alt by reflexivity. now rewrite Nat.sub_diag.
Qed.

Lemma sortSalons_respects salons key direction :
  respects R (sortSalons salons key direction).
Proof. intros s. rewrite sortSalons_run. apply blind_alloc. Qed.

Lemma salonsToRender_respects st : respects R (salonsToRender st).
Proof. unfold salonsToRender. frame; apply sortSalons_respects. Qed.

Lemma applyFilterAndRender_respects : respects R applyFilterAndRender.
Proof.
  unfold applyFilterAndRender. frame;
    first [apply displayResults_respects | apply salonsToRender_respects].
Qed.

End Frames.

#[export] Hint Resolve displayError_respects updateMap_respects
  displayResults_respects displayFavorites_respects sortSalons_respects
  salonsToRender_respects applyFilterAndRender_respects : frame.


(** ** The message of an error *)

Section Messages.
Context {U : Host}.

(** The sentence [parseGapiError] has for an error, by the class of the
    error. *)
Lemma parseGapiError_by_class (err : exn) :
  parseGapiError err
  = match classify err with
    | NotFound =>
        lit "The Google Sheet could not be found. Please check the URL or ID and make sure it's correct."
    | PermissionDenied =>
        lit "You do not have permission to access this Google Sheet. Please check the sheet's sharing settings and ensure you are signed in with the correct Google account."
    | RateLimited =>
        lit "The app has made too many requests to Google Sheets. Please wait a moment and try again later."
    | Unknown =>
        match err with
        | RequestFailed (Some error) =>
            match error_message error with
            | Some (c :: m) => c :: m
            | _ => lit "An unknown error occurred while communicating with Google Sheets."
            end
        | _ => lit "An unexpected error occurred. Please check the console for more details."
        end
    end.
Proof.
  unfold parseGapiError, classify, error_status_of.
  destruct err as [| | | |[[status message]|]]; try reflexivity.
  cbn [error_status error_message].
  destruct status as [status|]; [|reflexivity].
  destruct (str_eqb status (lit "NOT_FOUND")); [reflexivity|].
  destruct (str_eqb status (lit "PERMISSION_DENIED")); [reflexivity|].
  destruct (str_eqb status (lit "RESOURCE_EXHAUSTED")); reflexivity.
Qed.

Lemma parseGapiError_says_something (err : exn) : parseGapiError err <> [].
Proof.
  rewrite parseGapiError_by_class.
  destruct (classify err); try (apply lit_cons; discriminate).
  destruct err as [| | | |[[status [[|c m]|]]|]];
    try (apply lit_cons; discriminate).
  discriminate.
Qed.

(** An exception that is not the failure of a request. *)
Definition local (e : exn) : Prop :=
  match e with
  | RequestFailed _ => False
  | _ => True
  end.

Lemma parseGapiError_local (e : exn) :
  local e ->
  parseGapiError e
  = lit "An unexpected error occurred. Please check the console for more details.".
Proof. destruct e; [reflexivity..|contradiction]. Qed.

Lemma classify_local (e : exn) : local e -> classify e = Unknown.
Proof. destruct e; [reflexivity..|contradiction]. Qed.

End Messages.

(** ** The record normalizer *)

Section Normalizer.
Context {U : Host}.

(** No header lower-cases to [rowIndex]: the name has a capital in it. *)
Lemma toLowerCase_not_rowIndex (h : jsstring) : toLowerCase h <> lit "rowIndex".
Proof.
  intros E. pose proof (toLowerCase_no_capital h) as H. rewrite E in H.
  discriminate H.
Qed.

Lemma cell_string (row : list jsstring) (i : nat) :
  cell row i = JStr (default [] (row !! i)).
Proof. unfold cell. destruct (row !! i) as [[|c s]|]; reflexivity. Qed.

Lemma assign_cells_other (hs : list jsstring) (i : nat) (row : list jsstring)
      (salon : object) (k : jsstring) :
  (forall h, In h hs -> toLowerCase h <> k) ->
  obj_get (assign_cells hs i row salon) k = obj_get salon k.
Proof.
  revert i salon. induction hs as [|h hs IH]; intros i salon Hk; simpl.
  - reflexivity.
  - rewrite IH by (intros h' Hin; apply Hk; now right).
    apply obj_get_set_other. apply Hk. now left.
Qed.

(** The field a header names holds the cell under it, or the empty string
    when the row is shorter; of two headers with the same lower-cased
    name the one further right wins. *)
Lemma assign_cells_field (hs : list jsstring) (i : nat) (row : list jsstring)
      (salon : object) (j : nat) (h : jsstring) :
  hs !! j = Some h ->
  toLowerCase h <> lit "__proto__" ->
  (forall j' h', (j < j')%nat -> hs !! j' = Some h' ->
                 toLowerCase h' <> toLowerCase h) ->
  obj_get (assign_cells hs i row salon) (toLowerCase h)
  = JStr (default [] (row !! (i + j)%nat)).
Proof.
  revert i salon j. induction hs as [|h0 hs IH]; intros i salon j Hj Hp Hlast.
  - discriminate.
  - destruct j as [|j]; simpl in *.
    + injection Hj as ->. rewrite assign_cells_other.
      * rewrite obj_get_set_same by exact Hp. rewrite Nat.add_0_r. apply cell_string.
      * intros h' Hin. apply list_elem_of_In, list_elem_of_lookup in Hin as [j' Hj'].
        apply (Hlast (S j') h'); [lia | exact Hj'].
    + rewrite (IH (S i) _ j Hj Hp).
      * f_equal. f_equal. f_equal. lia.
      * intros j' h' Hlt Hj'. apply (Hlast (S j') h'); [lia | exact Hj'].
Qed.

Lemma normalize_row_rowIndex (hs : list jsstring) (index : nat) (row : list jsstring) :
  obj_get (normalize_row hs index row) (lit "rowIndex")
  = JNum (of_Z (Z.of_nat index + 2)).
Proof.
  unfold normalize_row. rewrite assign_cells_other.
  - reflexivity.
  - intros h _. apply toLowerCase_not_rowIndex.
Qed.

Lemma normalize_row_field (hs : list jsstring) (index : nat) (row : list jsstring)
      (j : nat) (h : jsstring) :
  hs !! j = Some h ->
  toLowerCase h <> lit "__proto__" ->
  (forall j' h', (j < j')%nat -> hs !! j' = Some h' ->
                 toLowerCase h' <> toLowerCase h) ->
  obj_get (normalize_row hs index row) (toLowerCase h)
  = JStr (default [] (row !! j)).
Proof. intros. unfold normalize_row. now rewrite (assign_cells_field hs 0 row _ j h). Qed.

Lemma normalize_rows_length (hs : list jsstring) (rows : list (list jsstring)) :
  length (normalize_rows hs rows) = length rows.
Proof. unfold normalize_rows. apply length_imap. Qed.

Lemma normalize_rows_lookup (hs : list jsstring) (rows : list (list jsstring))
      (k : nat) (row : list jsstring) :
  rows !! k = Some row ->
  normalize_rows hs rows !! k = Some (normalize_row hs k row).
Proof. intros H. unfold normalize_rows. now rewrite list_lookup_imap, H. Qed.

(** The normalizer, for every header but [__proto__]: one record per data
    row; [rowIndex] is the position of the row plus 2; the field named by
    a lower-cased header holds the cell under that header, or the empty
    string where the row has no such cell. *)
Lemma normalizer_fields (hs : list jsstring) (rows : list (list jsstring)) :
  length (normalize_rows hs rows) = length rows
  /\ forall k row, rows !! k = Some row ->
       exists salon,
         normalize_rows hs rows !! k = Some salon
         /\ obj_get salon (lit "rowIndex") = JNum (of_Z (Z.of_nat k + 2))
         /\ forall j h,
              hs !! j = Some h ->
              toLowerCase h <> lit "__proto__" ->
              (forall j' h', (j < j')%nat -> hs !! j' = Some h' ->
                             toLowerCase h' <> toLowerCase h) ->
              obj_get salon (toLowerCase h) = JStr (default [] (row !! j)).
Proof.
  split; [apply normalize_rows_length|].
  intros k row Hk. exists (normalize_row hs k row).
  split; [now apply normalize_rows_lookup|].
  split; [apply normalize_row_rowIndex|].
  intros j h. apply normalize_row_field.
Qed.

Lemma lower_literal (s : string) :
  forallb is_ascii (lit s) = true -> toLowerCase (lit s) = map ascii_lower (lit s).
Proof. apply toLowerCase_ascii. Qed.

(** The example of the specification: headers [Name, Address, Favorite]
    and the row ["Acme", "1 Main St", "FALSE"] give the one record
    {rowIndex: 2, name: "Acme", address: "1 Main St", favorite: "FALSE"}. *)
Lemma normalizer_example :
  normalize_rows [lit "Name"; lit "Address"; lit "Favorite"]
                 [[lit "Acme"; lit "1 Main St"; lit "FALSE"]]
  = [[(lit "rowIndex", JNum (of_Z 2));
      (lit "name", JStr (lit "Acme"));
      (lit "address", JStr (lit "1 Main St"));
      (lit "favorite", JStr (lit "FALSE"))]].
Proof.
  unfold normalize_rows, normalize_row. cbn [imap assign_cells].
  rewrite !lower_literal by reflexivity. reflexivity.
Qed.

(** C4.  The normalizer on a sheet one of whose headers is [__proto__]:
    the record of the data row has no field for that header, because the
    assignment [salon["__proto__"] = "x"] reaches the accessor of
    Object.prototype and creates no property.  (For every other header
    the claim holds: [normalizer_fields].) *)
Theorem proto_header_makes_no_field :
  normalize_rows [lit "Name"; lit "__proto__"] [[lit "Acme"; lit "x"]]
  = [[(lit "rowIndex", JNum (of_Z 2)); (lit "name", JStr (lit "Acme"))]].
Proof.
  unfold normalize_rows, normalize_row. cbn [imap assign_cells].
  rewrite !lower_literal by reflexivity. reflexivity.
Qed.

End Normalizer.

(** ** Records whose fields are strings *)

(** Every field but [rowIndex] holds a string. *)
Definition plain (o : object) : Prop :=
  Forall (fun p => fst p = lit "rowIndex" \/ exists s, snd p = JStr s) o.

Lemma plain_get (o : object) (k : jsstring) :
  plain o -> k <> lit "rowIndex" ->
  obj_get o k = JUndefined \/ exists s, obj_get o k = JStr s.
Proof.
  intros Ho Hk. induction Ho as [|[k' v] o Hp _ IH]; cbn [obj_get]; [now left|].
  destruct (str_eqb k' k) eqn:E; [|exact IH].
  apply str_eqb_eq in E. subst k'. cbn [fst snd] in Hp.
  destruct Hp as [Hp|Hp]; [contradiction|now right].
Qed.

Lemma obj_put_Forall (P : jsstring * jsval -> Prop) (o : object) (k : jsstring) (v : jsval) :
  Forall P o -> (forall k', P (k', v)) -> Forall P (obj_put o k v).
Proof.
  intros Ho Hv. induction Ho as [|[k' v'] o Hp Ho IH]; cbn [obj_put].
  - constructor; [apply Hv|constructor].
  - destruct (str_eqb k' k); constructor; auto.
Qed.

Section Plain.
Context {U : Host}.

Lemma assign_cells_plain (hs : list jsstring) (i : nat) (row : list jsstring)
      (salon : object) :
  plain salon -> plain (assign_cells hs i row salon).
Proof.
  revert i salon. induction hs as [|h hs IH]; intros i salon Hp; [exact Hp|].
  cbn [assign_cells]. apply IH. unfold obj_set.
  destruct (_ && _); [exact Hp|].
  rewrite cell_string.
  apply obj_put_Forall; [exact Hp|]. intros k'. right. eauto.
Qed.

Lemma normalize_row_plain (hs : list jsstring) (index : nat) (row : list jsstring) :
  plain (normalize_row hs index row).
Proof.
  unfold normalize_row. apply assign_cells_plain.
  constructor; [now left|constructor].
Qed.

Lemma normalize_rows_plain (hs : list jsstring) (rows : list (list jsstring)) :
  Forall plain (normalize_rows hs rows).
Proof.
  apply List.Forall_forall. intros o Ho.
  apply list_elem_of_In, list_elem_of_lookup in Ho as [k Hk].
  unfold normalize_rows in Hk. rewrite list_lookup_imap in Hk.
  destruct (rows !! k) as [row|]; [|discriminate].
  injection Hk as <-. apply normalize_row_plain.
Qed.

Lemma createSalonCard_inv (o : object) (c : card) :
  createSalonCard o = Ok c ->
  getSalonId o = Ok (card_id c)
  /\ card_favorited c = isFavorited o
  /\ card_salonInfo c = JSON_stringify (JObj o)
  /\ card_canEdit c = negb (strict_equals (obj_get o (lit "rowIndex")) JUndefined).
Proof.
  unfold createSalonCard.
  destruct (getSalonId o) as [id|e]; [|discriminate].
  destruct (renderSources o) as [sources|e]; [|discriminate].
  destruct (renderSocials o) as [socials|e]; [|discriminate].
  intros [= <-]. repeat split.
Qed.

End Plain.

(** ** Filtering and sorting *)

Section Filtering.
Context {U : Host}.

(** The words of the specification: the name, the address or the
    description of the record contains the needle, case-insensitively.
    The needle is the query as the code compares it, trimmed and
    lower-cased. *)
Definition contains_query (needle : jsstring) (salon : object) : bool :=
  includes (toLowerCase (field_text (obj_get salon (lit "name")))) needle
  || includes (toLowerCase (field_text (obj_get salon (lit "address")))) needle
  || includes (toLowerCase (field_text (obj_get salon (lit "description")))) needle.

Lemma includes_nil (s : jsstring) : includes s [] = true.
Proof. destruct s; reflexivity. Qed.

Lemma contains_query_nil (salon : object) : contains_query [] salon = true.
Proof. unfold contains_query. now rewrite includes_nil. Qed.

Lemma lower_or_empty_text (v : jsval) (s : jsstring) :
  lower_or_empty v = Ok s -> s = toLowerCase (field_text v).
Proof.
  unfold lower_or_empty, field_text.
  destruct (or_else v (JStr [])); intros H; try discriminate.
  now injection H as <-.
Qed.

Lemma matches_query_contains (query : jsstring) (salon : object) (b : bool) :
  matches_query query salon = Ok b -> b = contains_query query salon.
Proof.
  unfold matches_query, contains_query.
  destruct (lower_or_empty (obj_get salon (lit "name"))) as [n|] eqn:En;
    [|discriminate].
  destruct (lower_or_empty (obj_get salon (lit "address"))) as [a|] eqn:Ea;
    [|discriminate].
  destruct (lower_or_empty (obj_get salon (lit "description"))) as [d|] eqn:Ed;
    [|discriminate].
  apply lower_or_empty_text in En, Ea, Ed. subst. intros H. now injection H as <-.
Qed.

(** Only the three fields are consulted. *)
Lemma matches_query_fields (query : jsstring) (a b : object) :
  obj_get a (lit "name") = obj_get b (lit "name") ->
  obj_get a (lit "address") = obj_get b (lit "address") ->
  obj_get a (lit "description") = obj_get b (lit "description") ->
  matches_query query a = matches_query query b.
Proof. intros Hn Ha Hd. unfold matches_query. now rewrite Hn, Ha, Hd. Qed.

Lemma filter_all {A} (f : A -> bool) (l : list A) :
  (forall x, f x = true) -> List.filter f l = l.
Proof.
  intros H. induction l as [|x l IH]; simpl; [reflexivity|].
  now rewrite H, IH.
Qed.

(** *** The sort is a rearrangement *)

(** What [salonsToRender] names, when it completes: the records of
    [currentSalons] that contain the query, rearranged when a sort key is
    chosen and in their order otherwise; the records and the array
    [currentSalons] are what they were. *)
Lemma salonsToRender_filters (st s' : state) (visible : loc) :
  (currentSalons st < length (arrays st))%nat ->
  salonsToRender st st = (s', Ok visible) ->
  let elems := default [] (arrays st !! currentSalons st) in
  let needle := toLowerCase (trim (searchInput_value (page st))) in
  let kept := List.filter
                (fun l => contains_query needle (default [] (objects st !! l)))
                elems in
  let shown := default [] (arrays s' !! visible) in
  shown ≡ₚ kept
  /\ (currentSortKey st = lit "none" -> shown = kept)
  /\ objects s' = objects st
  /\ arrays s' !! currentSalons st = arrays st !! currentSalons st
  /\ currentSalons s' = currentSalons st.
Proof.
  intros Hvalid Hrun elems needle kept shown.
  pose proof (salonsToRender_respects (same objects) st st) as Fo.
  pose proof (salonsToRender_respects (same currentSalons) st st) as Fc.
  pose proof (salonsToRender_respects arrays_kept st st) as [more Fa].
  rewrite Hrun in Fo, Fc, Fa. unfold same in Fo, Fc. simpl in Fo, Fc, Fa.
  assert (Hframe : arrays s' !! currentSalons st = arrays st !! currentSalons st).
  { rewrite Fa. now apply lookup_app_l. }
  cut (shown ≡ₚ kept /\ (currentSortKey st = lit "none" -> shown = kept)).
  { intros [H1 H2]. auto. }
  clear Fo Fc Fa more. subst shown kept.
  unfold salonsToRender in Hrun. fold needle in Hrun.
  destruct needle as [|q0 q] eqn:En.
  - (* no query: every record *)
    rewrite filter_all by (intros; apply contains_query_nil).
    mstep. destruct (str_eqb (currentSortKey st) (lit "none")) eqn:Ek.
    + injection Hrun as <- <-. fold elems. split; reflexivity.
    + rewrite sortSalons_run in Hrun. injection Hrun as <- <-.
      cbn [arrays set_arrays]. rewrite list_lookup_middle by reflexivity.
      cbn [default]. fold elems. split; [apply Array_sort_perm|].
      intros Hk. apply str_eqb_neq in Ek. contradiction.
  - (* a query: the records that contain it *)
    mstep. fold elems in Hrun.
    destruct (filter_result _ elems) as [k|e] eqn:Ef; [|discriminate].
    apply (filter_result_filter _
             (fun l => contains_query (q0 :: q) (default [] (objects st !! l))))
      in Ef; [|intros x b; apply matches_query_contains].
    mstep. destruct (str_eqb (currentSortKey st) (lit "none")) eqn:Ek.
    + injection Hrun as <- <-. cbn [arrays set_arrays].
      rewrite list_lookup_middle by reflexivity. cbn [default].
      subst k. split; reflexivity.
    + rewrite sortSalons_run in Hrun. injection Hrun as <- <-.
      cbn [arrays set_arrays objects].
      rewrite (list_lookup_middle (arrays st ++ [k]) []) by reflexivity.
      rewrite (list_lookup_middle (arrays st) []) by reflexivity.
      cbn [default]. subst k. split; [apply Array_sort_perm|].
      intros Hk. apply str_eqb_neq in Ek. contradiction.
Qed.

End Filtering.

(** ** Sorting: the guard of the numeric branch *)

Section Sorting.
Context {U : Host}.

(** A value reads as a number whose text is the value's own text. *)
Definition round_trips (v : jsval) : Prop :=
  isNaN (parseFloat v) = false
  /\ ToString v = Number_toString (parseFloat v).

Lemma numeric_guard_round_trips (valA valB : jsval) :
  numeric_guard valA valB = true <-> round_trips valA /\ round_trips valB.
Proof.
  unfold numeric_guard, round_trips.
  rewrite !andb_true_iff, !negb_true_iff.
  split.
  - intros [[[HA HB] EA] EB]. apply str_eqb_eq in EA, EB. tauto.
  - intros [[HA EA] [HB EB]]. rewrite <- EA, <- EB, !str_eqb_refl. tauto.
Qed.

Lemma as_boolean_string (s : jsstring) :
  as_boolean (JStr s) = JStr s \/ exists b, as_boolean (JStr s) = JBool b.
Proof. unfold as_boolean. destruct (_ || _); eauto. Qed.

Lemma numeric_guard_boolean (b : bool) (other : jsval) :
  numeric_guard (JBool b) other = false /\ numeric_guard other (JBool b) = false.
Proof.
  assert (H : isNaN (parseFloat (JBool b)) = true) by (destruct b; reflexivity).
  unfold numeric_guard. rewrite H. split; [reflexivity|].
  now destruct (negb (isNaN (parseFloat other))).
Qed.

Lemma numeric_guard_text (s : jsstring) (other : jsval) :
  numeral s = false ->
  numeric_guard (JStr s) other = false /\ numeric_guard other (JStr s) = false.
Proof.
  intros H. unfold numeric_guard.
  change (ToString (JStr s)) with s.
  rewrite (not_numeral_not_text s _ H).
  split; [now rewrite andb_false_r | apply andb_false_r].
Qed.

(** A string with a character that is not a numeral's never takes the
    numeric branch, whatever it is compared with. *)
Lemma text_is_never_numeric (s : jsstring) (other : jsval) :
  numeral s = false ->
  numeric_guard (as_boolean (JStr s)) other = false
  /\ numeric_guard other (as_boolean (JStr s)) = false.
Proof.
  intros H. destruct (as_boolean_string s) as [E|[b E]]; rewrite E.
  - now apply numeric_guard_text.
  - apply numeric_guard_boolean.
Qed.

Lemma as_boolean_plain (s : jsstring) :
  forallb is_ascii s = true ->
  str_eqb (map ascii_upper s) (lit "TRUE") = false ->
  str_eqb (map ascii_upper s) (lit "FALSE") = false ->
  as_boolean (JStr s) = JStr s.
Proof.
  intros Hs Ht Hf. unfold as_boolean.
  now rewrite (toUpperCase_ascii s Hs), Ht, Hf.
Qed.

(** C3.  The comparator of [sortSalons] takes its numeric branch exactly
    when both values parse to a number other than NaN whose text is the
    text of the value; it then orders by the numbers, and otherwise by
    [localeCompare] on the two texts with the options
    [numeric: true, sensitivity: 'base'], times the direction.  A string
    that holds a character no numeral has, such as 123 Main St, never
    takes the numeric branch, on either side; 123 against 45 does, and is
    ordered after it. *)
Theorem numeric_path_needs_round_trip (dir : Z) (a b : jsval) :
  let valA := as_boolean a in
  let valB := as_boolean b in
  (numeric_guard valA valB = true <-> round_trips valA /\ round_trips valB)
  /\ compare_values dir a b
     = (if numeric_guard valA valB
        then if number_lt (parseFloat valA) (parseFloat valB) then (-1 * dir)%Z
             else if number_gt (parseFloat valA) (parseFloat valB) then (1 * dir)%Z
             else 0%Z
        else (localeCompare (ToString valA) (ToString valB) * dir)%Z)
  /\ (forall s, numeral s = false ->
        compare_values dir (JStr s) b
        = (localeCompare (ToString (as_boolean (JStr s))) (ToString valB) * dir)%Z
        /\ compare_values dir a (JStr s)
           = (localeCompare (ToString valA) (ToString (as_boolean (JStr s))) * dir)%Z)
  /\ compare_values dir (JStr (lit "123 Main St")) b
     = (localeCompare (lit "123 Main St") (ToString valB) * dir)%Z
  /\ numeric_guard (as_boolean (JStr (lit "123"))) (as_boolean (JStr (lit "45"))) = true
  /\ compare_values dir (JStr (lit "123")) (JStr (lit "45")) = (1 * dir)%Z.
Proof.
  cbn zeta. split; [apply numeric_guard_round_trips|].
  split; [reflexivity|].
  assert (Htext : forall s, numeral s = false ->
            compare_values dir (JStr s) b
            = (localeCompare (ToString (as_boolean (JStr s)))
                             (ToString (as_boolean b)) * dir)%Z
            /\ compare_values dir a (JStr s)
               = (localeCompare (ToString (as_boolean a))
                                (ToString (as_boolean (JStr s))) * dir)%Z).
  { intros s Hs. unfold compare_values.
    destruct (text_is_never_numeric s (as_boolean b) Hs) as [-> _].
    destruct (text_is_never_numeric s (as_boolean a) Hs) as [_ ->].
    split; reflexivity. }
  split; [exact Htext|].
  assert (Hst : as_boolean (JStr (lit "123 Main St")) = JStr (lit "123 Main St"))
    by (apply as_boolean_plain; reflexivity).
  assert (H123 : as_boolean (JStr (lit "123")) = JStr (lit "123"))
    by (apply as_boolean_plain; reflexivity).
  assert (H45 : as_boolean (JStr (lit "45")) = JStr (lit "45"))
    by (apply as_boolean_plain; reflexivity).
  split.
  { destruct (Htext (lit "123 Main St") eq_refl) as [-> _]. now rewrite Hst. }
  assert (Hg : numeric_guard (JStr (lit "123")) (JStr (lit "45")) = true)
    by (vm_compute; reflexivity).
  split; [now rewrite H123, H45|].
  unfold compare_values. rewrite H123, H45, Hg.
  replace (number_lt (parseFloat (JStr (lit "123"))) (parseFloat (JStr (lit "45"))))
    with false by (vm_compute; reflexivity).
  replace (number_gt (parseFloat (JStr (lit "123"))) (parseFloat (JStr (lit "45"))))
    with true by (vm_compute; reflexivity).
  reflexivity.
Qed.

End Sorting.

(** ** Favourites *)

Section Favourites.
Context {U : Host}.

Definition cards_of (c : content) : list card :=
  match c with
  | Cards cs => cs
  | _ => []
  end.

(** The favourite buttons of the page, one per card. *)
Definition buttons (st : state) : list card :=
  cards_of (resultsContainer (page st)) ++ cards_of (favoritesList (page st)).

(** The text the code writes for a state of the favourite flag. *)
Definition flag (favorited : bool) : jsstring :=
  if favorited then lit "TRUE" else lit "FALSE".

(** The range of the favourite cell of a record, from the position of the
    favourite column and the record's [rowIndex]. *)
Definition favorite_cell (column : nat) (salon : object) : jsstring :=
  lit "Sheet1!" ++ [((65 + N.of_nat column) mod 65536)%N]
  ++ ToString (obj_get salon (lit "rowIndex")).

Lemma getSalonId_fields (a b : object) :
  obj_get a (lit "name") = obj_get b (lit "name") ->
  obj_get a (lit "address") = obj_get b (lit "address") ->
  getSalonId a = getSalonId b.
Proof. intros Hn Ha. unfold getSalonId. now rewrite Hn, Ha. Qed.

Lemma isFavorited_fields (a b : object) :
  obj_get a (lit "favorite") = obj_get b (lit "favorite") ->
  isFavorited a = isFavorited b.
Proof. intros H. unfold isFavorited. now rewrite H. Qed.

Lemma isFavorited_flag (o : object) (b : bool) :
  obj_get o (lit "favorite") = JStr (flag b) -> isFavorited o = b.
Proof.
  intros H. unfold isFavorited. rewrite H.
  destruct b; cbn [flag truthy ToString];
    change (truthy (JStr (lit "TRUE"))) with true;
    change (truthy (JStr (lit "FALSE"))) with true; cbn iota;
    rewrite toUpperCase_ascii by reflexivity; reflexivity.
Qed.

Lemma favorite_not_proto : lit "favorite" <> lit "__proto__".
Proof. discriminate. Qed.

Lemma set_favorite_get (o : object) (v : jsval) :
  obj_get (obj_set o (lit "favorite") v) (lit "favorite") = v.
Proof. apply obj_get_set_same, favorite_not_proto. Qed.

Lemma set_favorite_other (o : object) (v : jsval) (k : jsstring) :
  k <> lit "favorite" ->
  obj_get (obj_set o (lit "favorite") v) k = obj_get o k.
Proof. intros H. apply obj_get_set_other. congruence. Qed.

Lemma set_favorite_id (o : object) (v : jsval) :
  getSalonId (obj_set o (lit "favorite") v) = getSalonId o.
Proof. apply getSalonId_fields; apply set_favorite_other; discriminate. Qed.

Definition retitle_page (salonId : jsstring) (favorited : bool) (d : dom) : dom :=
  set_favoritesList (map_cards (retitle salonId favorited) (favoritesList d))
    (set_resultsContainer
       (map_cards (retitle salonId favorited) (resultsContainer d)) d).

(** [updateFavoriteButtons] on a record whose identifier exists. *)
Lemma updateFavoriteButtons_run (st : state) (salon : loc) (o : object) (id : jsstring) :
  objects st !! salon = Some o ->
  getSalonId o = Ok id ->
  updateFavoriteButtons salon st
  = (set_page (retitle_page id (isFavorited o)) st, Ok tt).
Proof.
  intros Ho Hid. unfold updateFavoriteButtons. mstep. rewrite Ho.
  cbn [from_option Datatypes.id]. rewrite Hid. reflexivity.
Qed.

Lemma set_favorite_run (st : state) (salon : loc) (o : object) (v : jsval) :
  objects st !! salon = Some o ->
  set_favorite salon v st
  = (set_objects (fun os => <[salon := obj_set o (lit "favorite") v]> os) st, Ok tt).
Proof. intros Ho. unfold set_favorite. mstep. now rewrite Ho. Qed.

Lemma objects_set_lookup (st : state) (salon : loc) (o o' : object) :
  objects st !! salon = Some o ->
  objects (set_objects (fun os => <[salon := o']> os) st) !! salon = Some o'.
Proof.
  intros Ho. cbn [objects set_objects].
  apply list_lookup_insert_eq. now apply lookup_lt_Some in Ho.
Qed.

(** The state a toggle leaves when it issues its write. *)
Definition toggled (st : state) (salon : loc) (o : object) (id : jsstring)
           (column : nat) : state :=
  let o1 := obj_set o (lit "favorite") (JStr (flag (negb (isFavorited o)))) in
  emit (ValuesUpdate (currentSpreadsheetId st) (favorite_cell column o)
                     [[JStr (flag (negb (isFavorited o)))]])
    (set_page (retitle_page id (negb (isFavorited o)))
       (set_objects (fun os => <[salon := o1]> os) st)).

Lemma toggleFavorite_issues (st : state) (salon : loc) (o : object)
      (id : jsstring) (column : nat) :
  objects st !! salon = Some o ->
  strict_equals (obj_get o (lit "rowIndex")) JUndefined = false ->
  getSalonId o = Ok id ->
  find_index (fun h => str_eqb (toLowerCase h) (lit "favorite")) (headers st)
    = Some column ->
  toggleFavorite salon st
  = (toggled st salon o id column,
     Ok (Some {| pending_salon := salon;
                 originalFavoriteState := obj_get o (lit "favorite") |})).
Proof.
  intros Ho Hrow Hid Hcol. unfold toggleFavorite.
  unfold bind at 1. unfold read_object at 1. rewrite Ho. cbn [from_option Datatypes.id].
  rewrite Hrow.
  set (v := flag (negb (isFavorited o))).
  set (o1 := obj_set o (lit "favorite") (JStr v)).
  assert (Hv : (if negb (isFavorited o) then lit "TRUE" else lit "FALSE") = v)
    by reflexivity.
  rewrite Hv. unfold bind at 1. rewrite (set_favorite_run st salon o _ Ho).
  fold o1.
  set (st1 := set_objects (fun os => <[salon := o1]> os) st).
  assert (Ho1 : objects st1 !! salon = Some o1)
    by (apply (objects_set_lookup st salon o o1 Ho)).
  unfold bind at 1.
  rewrite (updateFavoriteButtons_run st1 salon o1 id Ho1)
    by (unfold o1; rewrite set_favorite_id; exact Hid).
  assert (Hf : isFavorited o1 = negb (isFavorited o)).
  { apply isFavorited_flag. unfold o1. apply set_favorite_get. }
  rewrite Hf.
  assert (Hfav1 : obj_get o1 (lit "favorite") = JStr v)
    by (unfold o1; apply set_favorite_get).
  assert (Hrow1 : obj_get o1 (lit "rowIndex") = obj_get o (lit "rowIndex"))
    by (unfold o1; apply set_favorite_other; discriminate).
  subst st1. unfold updateSheetData. mstep. rewrite Hcol. mstep. rewrite Ho1.
  cbn [from_option Datatypes.id]. rewrite Hfav1, Hrow1. reflexivity.
Qed.




(** *** The controls of a record *)

Lemma cards_of_map_cards (g : card -> card) (c : content) :
  cards_of (map_cards g c) = map g (cards_of c).
Proof. destruct c; reflexivity. Qed.

Lemma retitle_id (salonId : jsstring) (f : bool) (c : card) :
  card_id (retitle salonId f c) = card_id c.
Proof. unfold retitle. destruct (str_eqb (card_id c) salonId); reflexivity. Qed.

Lemma retitle_bound (salonId : jsstring) (f : bool) (c : card) :
  card_id c = salonId -> card_favorited (retitle salonId f c) = f.
Proof. intros <-. unfold retitle. now rewrite str_eqb_refl. Qed.

Lemma buttons_retitled (st : state) (salonId : jsstring) (f : bool) :
  buttons (set_page (retitle_page salonId f) st)
  = map (retitle salonId f) (buttons st).
Proof.
  unfold buttons, retitle_page. cbn [page set_page].
  cbn [resultsContainer favoritesList set_favoritesList set_resultsContainer].
  now rewrite !cards_of_map_cards, map_app.
Qed.

(** After [updateFavoriteButtons], every button of the record shows the
    state it was given, and the buttons are the ones there were. *)
Lemma retitled_buttons (l : list card) (salonId : jsstring) (f : bool) :
  map card_id (map (retitle salonId f) l) = map card_id l
  /\ forall c, In c (map (retitle salonId f) l) ->
               card_id c = salonId -> card_favorited c = f.
Proof.
  split.
  - rewrite map_map. apply map_ext. intros c. apply retitle_id.
  - intros c Hin Hc. apply in_map_iff in Hin as (c0 & <- & _).
    apply retitle_bound. now rewrite retitle_id in Hc.
Qed.


Lemma rollback_fields (o : object) (v : jsval) (k : jsstring) :
  obj_get (obj_set (obj_set o (lit "favorite") v)
                   (lit "favorite") (obj_get o (lit "favorite"))) k
  = obj_get o k.
Proof.
  destruct (str_eqb k (lit "favorite")) eqn:Ek.
  - apply str_eqb_eq in Ek. subst k. apply set_favorite_get.
  - apply str_eqb_neq in Ek. now rewrite !set_favorite_other.
Qed.



(** *** A write that succeeds *)

Lemma set_salonInfo_hidden (salonId info : jsstring) (d : dom) :
  favoritesContainer_hidden (set_salonInfo salonId info d)
  = favoritesContainer_hidden d.
Proof.
  unfold set_salonInfo.
  destruct (favoritesList_first d);
    destruct (set_info_in salonId info (favoritesList d));
    destruct (set_info_in salonId info (resultsContainer d)); reflexivity.
Qed.

(** Writing [favorite] into the record at [target] with the value the
    record at [salon] already has leaves every field of [salon]. *)
Lemma copy_favorite_fields (os : list object) (salon target : loc) (o : object) :
  os !! salon = Some o ->
  exists o',
    <[target := obj_set (default [] (os !! target)) (lit "favorite")
                        (obj_get o (lit "favorite"))]> os !! salon = Some o'
    /\ forall k, obj_get o' k = obj_get o k.
Proof.
  intros Ho. destruct (decide (target = salon)) as [->|Hne].
  - rewrite Ho. cbn [from_option Datatypes.id].
    eexists. split.
    + apply list_lookup_insert_eq. now apply lookup_lt_Some in Ho.
    + intros k. destruct (str_eqb k (lit "favorite")) eqn:Ek.
      * apply str_eqb_eq in Ek. subst k. apply set_favorite_get.
      * apply str_eqb_neq in Ek. now apply set_favorite_other.
  - exists o. split; [|reflexivity].
    now rewrite list_lookup_insert_ne.
Qed.





End Favourites.

(** ** Polling *)

Section Polling.
Context {U : Host}.

Lemma updateFavoriteButtons_respects R `{!PreOrder R} `{!Blind R} salon :
  respects R (updateFavoriteButtons salon).
Proof. unfold updateFavoriteButtons. frame. Qed.

Lemma loadData_request_stays_stopped : respects stays_stopped loadData_request.
Proof. unfold loadData_request. frame. Qed.

Lemma loadData_settle_stays_stopped response :
  respects stays_stopped (loadData_settle response).
Proof. unfold loadData_settle. frame. Qed.

Lemma loadData_stays_stopped response : respects stays_stopped (loadData response).
Proof. unfold loadData, loadData_request, loadData_settle. frame. Qed.

Lemma toggleFavorite_stays_stopped salon :
  respects stays_stopped (toggleFavorite salon).
Proof.
  unfold toggleFavorite, set_favorite, updateSheetData.
  frame; apply updateFavoriteButtons_respects; typeclasses eauto.
Qed.

Lemma settleFavorite_stays_stopped p outcome :
  respects stays_stopped (settleFavorite p outcome).
Proof.
  unfold settleFavorite, favoriteWritten, favoriteFailed, set_favorite.
  frame; apply updateFavoriteButtons_respects; typeclasses eauto.
Qed.

(** No handler of this file starts the timer again. *)
Lemma handle_all_stays_stopped (es : list event) (st : state) :
  dataPollingInterval st = None ->
  dataPollingInterval (handle_all es st) = None.
Proof.
  revert st. induction es as [|e es IH]; intros st H; simpl; [exact H|].
  apply IH. destruct e; simpl.
  - now apply loadData_stays_stopped.
  - now apply loadData_request_stays_stopped.
  - now apply loadData_settle_stays_stopped.
  - now apply toggleFavorite_stays_stopped.
  - now apply settleFavorite_stays_stopped.
Qed.

Lemma loadData_failed (st : state) (id : jsstring) (err : exn) :
  isEditing st = false ->
  currentSpreadsheetId st = Some id ->
  id <> [] ->
  let fatal := match classify err with
               | NotFound | PermissionDenied => true
               | RateLimited | Unknown => false
               end in
  let st' := fst (loadData (FetchFailed err) st) in
  resultsContainer (page st') = ErrorBox (parseGapiError err)
  /\ dataPollingInterval st' =
       (if fatal then None else dataPollingInterval st)
  /\ trace st' =
       trace st ++ [ValuesGet id (lit "Sheet1!A:Z");
                    ConsoleError "Error loading sheet data:" err;
                    DisplayError (parseGapiError err)]
       ++ (if fatal then
             match dataPollingInterval st with
             | Some handle => [ClearInterval handle;
                               ConsoleWarn "Polling stopped due to a fatal error."]
             | None => []
             end
           else []).
Proof.
  intros Hedit Hid Hne. destruct id as [|c0 id0]; [congruence|].
  unfold loadData, loadData_request, loadData_settle, classify. mstep. rewrite Hedit, Hid. mstep.
  destruct (error_status_of err) as [status|]; mstep.
  - destruct (str_eqb status (lit "NOT_FOUND")); simpl.
    + destruct (dataPollingInterval st) eqn:Hh; mstep;
        rewrite <- ?app_assoc; simpl; rewrite ?app_nil_r; auto.
    + destruct (str_eqb status (lit "PERMISSION_DENIED")); simpl.
      * destruct (dataPollingInterval st) eqn:Hh; mstep;
          rewrite <- ?app_assoc; simpl; rewrite ?app_nil_r; auto.
      * destruct (str_eqb status (lit "RESOURCE_EXHAUSTED")); simpl;
          rewrite <- ?app_assoc; simpl; auto.
  - rewrite <- ?app_assoc; simpl; auto.
Qed.

(** C6.  A poll whose read fails puts into the error box, and so before
    the user, the message of the class of the error: a fixed sentence for
    each of not-found, permission-denied and rate-limited; for any other
    failed request the text the server sent or, when it sent none, a
    fixed sentence; and another fixed sentence for an exception that is
    no failed request.  The message is never empty.  For the classes
    not-found and permission-denied the poll also clears the interval
    timer, and no later poll, toggle or settled write of this file sets
    it again; for the classes rate-limited and unknown the timer is left
    as it was, so polling goes on. *)
Theorem fatal_errors_stop_polling (st : state) (id : jsstring) (err : exn) :
  isEditing st = false ->
  currentSpreadsheetId st = Some id ->
  id <> [] ->
  let st' := fst (loadData (FetchFailed err) st) in
  let message :=
    match classify err with
    | NotFound =>
        lit "The Google Sheet could not be found. Please check the URL or ID and make sure it's correct."
    | PermissionDenied =>
        lit "You do not have permission to access this Google Sheet. Please check the sheet's sharing settings and ensure you are signed in with the correct Google account."
    | RateLimited =>
        lit "The app has made too many requests to Google Sheets. Please wait a moment and try again later."
    | Unknown =>
        match err with
        | RequestFailed (Some error) =>
            match error_message error with
            | Some (c :: m) => c :: m
            | _ => lit "An unknown error occurred while communicating with Google Sheets."
            end
        | _ => lit "An unexpected error occurred. Please check the console for more details."
        end
    end in
  resultsContainer (page st') = ErrorBox message
  /\ message <> []
  /\ In (DisplayError message) (trace st')
  /\ match classify err with
     | NotFound | PermissionDenied =>
         dataPollingInterval st' = None
         /\ (forall handle, dataPollingInterval st = Some handle ->
                            In (ClearInterval handle) (trace st'))
         /\ forall later, dataPollingInterval (handle_all later st') = None
     | RateLimited | Unknown =>
         dataPollingInterval st' = dataPollingInterval st
         /\ forall handle, In (ClearInterval handle) (trace st') ->
                           In (ClearInterval handle) (trace st)
     end.
Proof.
  intros Hedit Hid Hne st' message.
  destruct (loadData_failed st id err Hedit Hid Hne) as (Hbox & Hint & Htr).
  fold st' in Hbox, Hint, Htr.
  assert (Hmessage : message = parseGapiError err)
    by (symmetry; apply parseGapiError_by_class).
  clearbody message. subst message.
  split; [exact Hbox|]. split; [apply parseGapiError_says_something|]. split.
  { rewrite Htr, !in_app_iff. simpl. right; left; right; right; left. reflexivity. }
  destruct (classify err); simpl in *.
  - split; [exact Hint|]. split.
    + intros handle Hh. rewrite Htr, Hh, !in_app_iff. simpl.
      right; right; right; right; left. reflexivity.
    + intros later. now apply handle_all_stays_stopped.
  - split; [exact Hint|]. split.
    + intros handle Hh. rewrite Htr, Hh, !in_app_iff. simpl.
      right; right; right; right; left. reflexivity.
    + intros later. now apply handle_all_stays_stopped.
  - split; [exact Hint|]. intros handle. rewrite Htr, !in_app_iff. simpl.
    intuition discriminate.
  - split; [exact Hint|]. intros handle. rewrite Htr, !in_app_iff. simpl.
    intuition discriminate.
Qed.

End Polling.

(** ** Change detection *)

Section ChangeDetection.
Context {U : Host}.

Lemma loadData_keeps_isEditing response : respects (same isEditing) (loadData response).
Proof. unfold loadData, loadData_request, loadData_settle. frame. Qed.

Lemma loadData_keeps_currentSpreadsheetId response :
  respects (same currentSpreadsheetId) (loadData response).
Proof. unfold loadData, loadData_request, loadData_settle. frame. Qed.

(** A poll whose rows serialize to the last-seen text. *)
Lemma loadData_unchanged (st : state) (id : jsstring) (data : list (list jsstring)) :
  isEditing st = false ->
  currentSpreadsheetId st = Some id ->
  id <> [] ->
  (2 <= length data)%nat ->
  JSON_stringify (rows_value data) = lastDataState st ->
  let st' := fst (loadData (Fetched (Some data)) st) in
  objects st' = objects st
  /\ arrays st' = arrays st
  /\ currentSalons st' = currentSalons st
  /\ headers st' = headers st
  /\ lastDataState st' = lastDataState st
  /\ resultsContainer (page st') = resultsContainer (page st)
  /\ favoritesList (page st') = favoritesList (page st)
  /\ markers (page st') = markers (page st)
  /\ trace st' = trace st ++ [ValuesGet id (lit "Sheet1!A:Z");
                              ConsoleLog "Data unchanged. Skipping re-render."].
Proof.
  intros Hedit Hid Hne Hlen Hsame.
  destruct data as [|hdr [|row rest]]; simpl in Hlen; try lia.
  destruct id as [|c0 id0]; [congruence|].
  unfold loadData, loadData_request, loadData_settle. mstep. rewrite Hedit, Hid. mstep.
  rewrite Hsame, str_eqb_refl. mstep.
  rewrite <- app_assoc. repeat split.
Qed.

(** A poll whose rows serialize to another text, up to the call of
    [applyFilterAndRender]: the state in which that call starts. *)
Definition refreshed (st : state) (id : jsstring) (data : list (list jsstring)) : state :=
  let hdr := hd [] data in
  let st1 := emit (ValuesGet id (lit "Sheet1!A:Z"))
                  (set_page (set_loader_hidden false) st) in
  let st2 := set_lastDataState (JSON_stringify (rows_value data)) st1 in
  let st3 := if str_eqb (JSON_stringify (strings_value (headers st)))
                        (JSON_stringify (strings_value hdr))
             then st2
             else emit (UpdateSortOptions hdr) (set_headers hdr st2) in
  set_currentSalons (length (arrays st))
    (set_arrays (fun a => a ++ [seq (length (objects st))
                                    (length (normalize_rows hdr (tail data)))])
       (set_objects (fun o => o ++ normalize_rows hdr (tail data)) st3)).

Lemma refreshed_headers (st : state) (id : jsstring) (data : list (list jsstring)) :
  headers (refreshed st id data) = hd [] data.
Proof.
  unfold refreshed.
  destruct (str_eqb (JSON_stringify (strings_value (headers st)))
                    (JSON_stringify (strings_value (hd [] data)))) eqn:E.
  - apply str_eqb_eq, JSON_stringify_strings_inj in E. exact E.
  - reflexivity.
Qed.

Definition handled (s : state) (e : exn) : state :=
  let s1 := emit (DisplayError (parseGapiError e))
              (set_page (set_resultsContainer (ErrorBox (parseGapiError e)))
                 (emit (ConsoleError "Error loading sheet data:" e) s)) in
  match classify e, dataPollingInterval s with
  | (NotFound | PermissionDenied), Some handle =>
      emit (ConsoleWarn "Polling stopped due to a fatal error.")
        (set_dataPollingInterval None (emit (ClearInterval handle) s1))
  | _, _ => s1
  end.

(** The state a changed poll ends in, from what [applyFilterAndRender]
    made of the refreshed state. *)
Lemma loadData_changed (st : state) (id : jsstring) (data : list (list jsstring)) :
  isEditing st = false ->
  currentSpreadsheetId st = Some id ->
  id <> [] ->
  (2 <= length data)%nat ->
  JSON_stringify (rows_value data) <> lastDataState st ->
  fst (loadData (Fetched (Some data)) st) =
  set_page (set_loader_hidden true)
    (match applyFilterAndRender (refreshed st id data) with
     | (s, Ok _) => s
     | (s, Throw e) => handled s e
     end).
Proof.
  intros Hedit Hid Hne Hlen Hdiff.
  destruct data as [|hdr [|row rest]]; simpl in Hlen; try lia.
  apply str_eqb_neq in Hdiff.
  destruct id as [|c0 id0]; [congruence|].
  unfold loadData, loadData_request, loadData_settle, refreshed, handled, classify. mstep. rewrite Hedit, Hid. mstep.
  rewrite Hdiff. mstep. cbn [hd tail negb].
  destruct (str_eqb (JSON_stringify (strings_value (headers st)))
                    (JSON_stringify (strings_value hdr))) eqn:E;
    cbn [negb]; mstep.
  - apply str_eqb_eq, JSON_stringify_strings_inj in E.
    rewrite <- E.
    match goal with |- context [applyFilterAndRender ?s] =>
      destruct (applyFilterAndRender s) as [s2 [[]|e]] end; mstep; [reflexivity|].
    destruct (error_status_of e) as [status|]; mstep; [|reflexivity].
    destruct (str_eqb status (lit "NOT_FOUND")); cbn [orb]; mstep.
    { destruct (dataPollingInterval s2); mstep; reflexivity. }
    destruct (str_eqb status (lit "PERMISSION_DENIED")); mstep.
    { destruct (dataPollingInterval s2); mstep; reflexivity. }
    destruct (str_eqb status (lit "RESOURCE_EXHAUSTED")); reflexivity.
  - match goal with |- context [applyFilterAndRender ?s] =>
      destruct (applyFilterAndRender s) as [s2 [[]|e]] end; mstep; [reflexivity|].
    destruct (error_status_of e) as [status|]; mstep; [|reflexivity].
    destruct (str_eqb status (lit "NOT_FOUND")); cbn [orb]; mstep.
    { destruct (dataPollingInterval s2); mstep; reflexivity. }
    destruct (str_eqb status (lit "PERMISSION_DENIED")); mstep.
    { destruct (dataPollingInterval s2); mstep; reflexivity. }
    destruct (str_eqb status (lit "RESOURCE_EXHAUSTED")); reflexivity.
Qed.

(** *** What rendering leaves in the trace *)

Lemma updateMap_keeps_trace salons : respects (same trace) (updateMap salons).
Proof. unfold updateMap, initMap, setView, add_marker. frame. Qed.

Lemma updateMap_keeps_results salons :
  respects (same (fun s => resultsContainer (page s))) (updateMap salons).
Proof. unfold updateMap, initMap, setView, add_marker. frame. Qed.

(** A call of [displayResults] that completes has written the result list
    and said so in the trace. *)
Lemma displayResults_emits (a : loc) (s : state) :
  exists new, trace (fst (displayResults a s)) = trace s ++ new
    /\ (snd (displayResults a s) = Ok tt ->
        exists c, In (DisplayResults c) new
                  /\ resultsContainer (page (fst (displayResults a s))) = c).
Proof.
  unfold displayResults. mstep.
  destruct (default [] (arrays s !! a)) as [|l ls] eqn:Ea; mstep.
  - match goal with |- context [updateMap [] ?s0] =>
      pose proof (updateMap_keeps_trace [] s0) as Ht;
      pose proof (updateMap_keeps_results [] s0) as Hr;
      destruct (updateMap [] s0) as [s1 r] end.
    unfold same in Ht, Hr. simpl in *. rewrite Ht, Hr. eexists. split; [reflexivity|].
    intros _. eexists. split; [left; reflexivity | reflexivity].
  - destruct (createSalonCards _) as [cards|e]; mstep.
    + match goal with |- context [updateMap ?x ?s0] =>
        pose proof (updateMap_keeps_trace x s0) as Ht;
        pose proof (updateMap_keeps_results x s0) as Hr;
        destruct (updateMap x s0) as [s1 r] end.
      unfold same in Ht, Hr. simpl in *. rewrite Ht, Hr. eexists. split; [reflexivity|].
      intros _. eexists. split; [left; reflexivity | reflexivity].
    + exists []. split; [now rewrite app_nil_r | discriminate].
Qed.

Lemma sortSalons_keeps_trace salons key direction :
  respects (same trace) (sortSalons salons key direction).
Proof. intros s. now rewrite sortSalons_run. Qed.

Lemma salonsToRender_keeps_trace st : respects (same trace) (salonsToRender st).
Proof. unfold salonsToRender. frame. apply sortSalons_keeps_trace. Qed.

Lemma applyFilterAndRender_hidden (s : state) :
  favoritesContainer_hidden (page s) = true ->
  applyFilterAndRender s = bind (salonsToRender s) displayResults s.
Proof. intros Hh. unfold applyFilterAndRender, bind at 1, get. now rewrite Hh. Qed.

(** With the favourites view hidden, a call of [applyFilterAndRender]
    that completes has re-rendered. *)
Lemma applyFilterAndRender_renders (s : state) :
  favoritesContainer_hidden (page s) = true ->
  exists new, trace (fst (applyFilterAndRender s)) = trace s ++ new
    /\ (snd (applyFilterAndRender s) = Ok tt ->
        exists c, In (DisplayResults c) new
                  /\ resultsContainer (page (fst (applyFilterAndRender s))) = c).
Proof.
  intros Hh. rewrite applyFilterAndRender_hidden by exact Hh.
  unfold bind. pose proof (salonsToRender_keeps_trace s s) as Hc.
  unfold same in Hc. destruct (salonsToRender s s) as [s1 [a|e]]; simpl in Hc.
  - destruct (displayResults_emits a s1) as (new & Ht & Hr).
    rewrite Hc in Ht. exists new. split; [exact Ht | exact Hr].
  - exists []. simpl. rewrite Hc, app_nil_r. split; [reflexivity | discriminate].
Qed.

Lemma applyFilterAndRender_idle (s : state) :
  favoritesContainer_hidden (page s) = false ->
  applyFilterAndRender s = (s, Ok tt).
Proof. intros Hh. unfold applyFilterAndRender. mstep. now rewrite Hh. Qed.

Lemma handled_frame (s : state) (e : exn) :
  objects (handled s e) = objects s
  /\ arrays (handled s e) = arrays s
  /\ currentSalons (handled s e) = currentSalons s
  /\ headers (handled s e) = headers s
  /\ lastDataState (handled s e) = lastDataState s
  /\ resultsContainer (page (handled s e)) = ErrorBox (parseGapiError e)
  /\ exists more,
       trace (handled s e) =
       trace s ++ ConsoleError "Error loading sheet data:" e
               :: DisplayError (parseGapiError e) :: more.
Proof.
  unfold handled.
  destruct (classify e), (dataPollingInterval s); simpl;
    repeat split; rewrite <- ?app_assoc; simpl; eexists; reflexivity.
Qed.

Lemma refreshed_frame (st : state) (id : jsstring) (data : list (list jsstring)) :
  let r := refreshed st id data in
  objects r = objects st ++ normalize_rows (hd [] data) (tail data)
  /\ arrays r = arrays st ++ [seq (length (objects st)) (length (tail data))]
  /\ currentSalons r = length (arrays st)
  /\ lastDataState r = JSON_stringify (rows_value data)
  /\ page r = set_loader_hidden false (page st)
  /\ (exists new, trace r = trace st ++ new
                  /\ forall c, ~ In (DisplayResults c) new).
Proof.
  unfold refreshed. rewrite normalize_rows_length.
  destruct (str_eqb _ _); simpl; repeat split.
  - exists [ValuesGet id (lit "Sheet1!A:Z")]. split; [reflexivity|].
    intros c [H|[]]. discriminate.
  - exists [ValuesGet id (lit "Sheet1!A:Z"); UpdateSortOptions (hd [] data)].
    split; [now rewrite <- app_assoc|].
    intros c [H|[H|[]]]; discriminate.
Qed.

(** One poll whose rows serialize to a text other than the last-seen one. *)
Lemma loadData_refreshes (st : state) (id : jsstring) (data : list (list jsstring)) :
  isEditing st = false ->
  currentSpreadsheetId st = Some id ->
  id <> [] ->
  (2 <= length data)%nat ->
  JSON_stringify (rows_value data) <> lastDataState st ->
  let st' := fst (loadData (Fetched (Some data)) st) in
  lastDataState st' = JSON_stringify (rows_value data)
  /\ headers st' = hd [] data
  /\ objects st' = objects st ++ normalize_rows (hd [] data) (tail data)
  /\ arrays st' !! currentSalons st'
     = Some (seq (length (objects st)) (length (tail data)))
  /\ exists new, trace st' = trace st ++ new
     /\ if favoritesContainer_hidden (page st)
        then (exists c, In (DisplayResults c) new
                        /\ resultsContainer (page st') = c)
             \/ (exists m, In (DisplayError m) new
                           /\ resultsContainer (page st') = ErrorBox m)
        else resultsContainer (page st') = resultsContainer (page st)
             /\ forall c, ~ In (DisplayResults c) new.
Proof.
  intros Hedit Hid Hne Hlen Hdiff st'. subst st'.
  rewrite (loadData_changed st id data Hedit Hid Hne Hlen Hdiff).
  destruct (refreshed_frame st id data) as (Ho & Ha & Hc & Hl & Hp & new0 & Ht & Hn).
  pose proof (refreshed_headers st id data) as Hh.
  set (r := refreshed st id data) in *. clearbody r.
  pose proof (applyFilterAndRender_respects (same objects) r) as Fo.
  pose proof (applyFilterAndRender_respects (same headers) r) as Fh.
  pose proof (applyFilterAndRender_respects (same lastDataState) r) as Fl.
  pose proof (applyFilterAndRender_respects (same currentSalons) r) as Fc.
  pose proof (applyFilterAndRender_respects arrays_kept r) as [more Fa].
  unfold same in Fo, Fh, Fl, Fc.
  assert (Hlook : forall s, arrays s = arrays r ++ more ->
                            currentSalons s = currentSalons r ->
            arrays s !! currentSalons s
            = Some (seq (length (objects st)) (length (tail data)))).
  { intros s Hs Hcs. rewrite Hs, Hcs, Hc, Ha, <- app_assoc.
    change ([?x] ++ more) with (x :: more).
    now rewrite list_lookup_middle. }
  destruct (favoritesContainer_hidden (page st)) eqn:Hhid.
  - assert (Hhr : favoritesContainer_hidden (page r) = true) by now rewrite Hp.
    destruct (applyFilterAndRender_renders r Hhr) as (new1 & Ht1 & Hr1).
    destruct (applyFilterAndRender r) as [s2 [[]|e]]; simpl in *.
    + repeat split; try congruence; [now apply Hlook|].
      exists (new0 ++ new1). split; [now rewrite Ht1, Ht, app_assoc|].
      left. destruct (Hr1 eq_refl) as (c & Hin & Hc2).
      exists c. split; [apply in_or_app; now right | exact Hc2].
    + destruct (handled_frame s2 e) as (Go & Ga & Gc & Gh & Gl & Gr & more2 & Gt).
      repeat split; try congruence; [apply Hlook; congruence|].
      eexists. split.
      * rewrite Gt, Ht1, Ht, <- !app_assoc. reflexivity.
      * right. exists (parseGapiError e). split; [|exact Gr].
        rewrite !in_app_iff. simpl. auto.
  - assert (Hhr : favoritesContainer_hidden (page r) = false) by now rewrite Hp.
    rewrite applyFilterAndRender_idle in * by exact Hhr. simpl in *.
    repeat split; try congruence.
    + apply (Hlook r); [exact Fa | reflexivity].
    + exists new0. split; [exact Ht|]. split; [now rewrite Hp | exact Hn].
Qed.

(** After a poll that saw rows, the last-seen text is their serialization,
    and the flags the next poll looks at are what they were. *)
Lemma loadData_last_seen (st : state) (id : jsstring) (data : list (list jsstring)) :
  isEditing st = false ->
  currentSpreadsheetId st = Some id ->
  id <> [] ->
  (2 <= length data)%nat ->
  let st' := fst (loadData (Fetched (Some data)) st) in
  lastDataState st' = JSON_stringify (rows_value data)
  /\ isEditing st' = false
  /\ currentSpreadsheetId st' = Some id.
Proof.
  intros Hedit Hid Hne Hlen st'. split.
  - destruct (str_eqb (JSON_stringify (rows_value data)) (lastDataState st)) eqn:E.
    + apply str_eqb_eq in E.
      destruct (loadData_unchanged st id data Hedit Hid Hne Hlen E)
        as (_ & _ & _ & _ & Hl & _). subst st'. now rewrite Hl.
    + apply str_eqb_neq in E.
      now destruct (loadData_refreshes st id data Hedit Hid Hne Hlen E) as (Hl & _).
  - split.
    + subst st'. rewrite (loadData_keeps_isEditing _ st). exact Hedit.
    + subst st'. rewrite (loadData_keeps_currentSpreadsheetId _ st). exact Hid.
Qed.

(** *** Exceptions of rendering *)

Lemma btoa_local (s : jsstring) (e : exn) : btoa s = Throw e -> local e.
Proof. unfold btoa. destruct (forallb _ s); [discriminate|]. now intros [= <-]. Qed.

Lemma is_link_local (v : jsval) (e : exn) : is_link v = Throw e -> local e.
Proof.
  unfold is_link. destruct (truthy v); [|discriminate].
  destruct v; try discriminate; now intros [= <-].
Qed.

Lemma filter_result_local {A} (p : A -> result bool) (l : list A) (e : exn) :
  (forall x e, p x = Throw e -> local e) ->
  filter_result p l = Throw e -> local e.
Proof.
  intros Hp. induction l as [|x l IH]; cbn [filter_result]; [discriminate|].
  destruct (p x) as [b|e0] eqn:Ex.
  - destruct (filter_result p l) as [k|e1]; [discriminate|].
    intros [= <-]. now apply IH.
  - intros [= <-]. now apply (Hp x).
Qed.

Lemma map_result_local {A B} (f : A -> result B) (l : list A) (e : exn) :
  (forall x e, f x = Throw e -> local e) ->
  map_result f l = Throw e -> local e.
Proof.
  intros Hf. induction l as [|x l IH]; cbn [map_result]; [discriminate|].
  destruct (f x) as [y|e0] eqn:Ex.
  - destruct (map_result f l) as [k|e1]; [discriminate|].
    intros [= <-]. now apply IH.
  - intros [= <-]. now apply (Hf x).
Qed.

Lemma get_prop_local (v : jsval) (k : jsstring) (e : exn) :
  get_prop v k = Throw e -> local e.
Proof.
  destruct v; cbn [get_prop]; try discriminate; try (now intros [= <-]).
  - destruct (str_eqb k (lit "length")); [discriminate|].
    destruct (array_index k); discriminate.
  - destruct (str_eqb k (lit "length")); [discriminate|].
    destruct (array_index k); discriminate.
Qed.

Lemma createSalonCard_local (o : object) (e : exn) :
  createSalonCard o = Throw e -> local e.
Proof.
  unfold createSalonCard.
  destruct (getSalonId o) as [id|e0] eqn:Eid.
  - destruct (renderSources o) as [sources|e1] eqn:Es.
    + destruct (renderSocials o) as [socials|e2] eqn:Ec; [discriminate|].
      intros [= <-]. unfold renderSocials in Ec.
      apply filter_result_local in Ec; [exact Ec|].
      intros x e. apply is_link_local.
    + intros [= <-]. unfold renderSources in Es.
      destruct (negb _); [discriminate|].
      destruct (get_prop _ (lit "length")) as [len|e0] eqn:El.
      * destruct (strict_equals _ _); [discriminate|].
        destruct (obj_get o (lit "sources")); try (now injection Es as <-).
        apply filter_result_local in Es; [exact Es|].
        intros x e. apply is_link_local.
      * injection Es as <-. now apply get_prop_local in El.
  - intros [= <-]. now apply btoa_local in Eid.
Qed.

Lemma createSalonCards_local (os : list object) (e : exn) :
  createSalonCards os = Throw e -> local e.
Proof. apply map_result_local. exact createSalonCard_local. Qed.

Lemma createSalonCards_ids (os : list object) (cards : list card) :
  createSalonCards os = Ok cards ->
  forall o, In o os -> exists id, getSalonId o = Ok id.
Proof.
  intros Hc. apply map_result_inv in Hc.
  induction Hc as [|o c os cards Hoc _ IH]; intros x Hx; [contradiction|].
  destruct Hx as [<-|Hx]; [|now apply IH].
  exists (card_id c). now apply createSalonCard_inv.
Qed.

(** *** The map *)

(** A record with both coordinates: the records [updateMap] keeps. *)
Definition located (o : object) : bool :=
  truthy (obj_get o (lit "latitude")) && truthy (obj_get o (lit "longitude")).

(** A record of whose coordinates Leaflet makes a position. *)
Definition positioned (o : object) : bool :=
  L_position (obj_get o (lit "latitude")) (obj_get o (lit "longitude")).

(** Whether Leaflet goes along with [updateMap] on these records: there
    is a map already, or the container is free and the parsed coordinates
    of the first located record are a position; and the coordinates of
    every located record, as the record holds them, are a position. *)
Definition map_accepts (d : dom) (os : list object) : bool :=
  match List.filter located os with
  | [] => true
  | first :: others =>
      (map_created d
       || negb (mapContainer_initialized d)
          && L_position (JNum (parseFloat (obj_get first (lit "latitude"))))
                        (JNum (parseFloat (obj_get first (lit "longitude")))))
      && forallb positioned (first :: others)
  end.

Lemma place_markers (valid : list object) (s : state) :
  (forall o, In o valid -> exists id, getSalonId o = Ok id) ->
  snd (for_each valid
         (fun salon =>
            let* salonId := lift (getSalonId salon) in
            add_marker salonId (obj_get salon (lit "latitude"))
                               (obj_get salon (lit "longitude"))) s)
  = if forallb positioned valid then Ok tt else Throw LeafletError.
Proof.
  revert s. induction valid as [|x valid IH]; intros s Hids; [reflexivity|].
  cbn [for_each forallb]. destruct (Hids x (or_introl eq_refl)) as [id Hid].
  unfold bind at 1. unfold bind at 1, lift at 1. rewrite Hid.
  unfold add_marker, positioned at 1.
  destruct (L_position _ _); [|reflexivity].
  unfold modify at 1. cbn [andb]. apply IH. intros o Ho. apply Hids. now right.
Qed.

(** [updateMap] throws exactly when Leaflet does not go along. *)
Lemma updateMap_outcome (salons : list loc) (s : state) :
  (forall l, In l salons ->
             exists id, getSalonId (default [] (objects s !! l)) = Ok id) ->
  snd (updateMap salons s)
  = if map_accepts (page s) (map (fun l => default [] (objects s !! l)) salons)
    then Ok tt else Throw LeafletError.
Proof.
  intros Hids. unfold updateMap, map_accepts.
  unfold bind at 1, read_objects at 1.
  set (os := map _ salons).
  change (List.filter _ os) with (List.filter located os).
  assert (Hvalid : forall o, In o (List.filter located os) ->
                             exists id, getSalonId o = Ok id).
  { intros o Ho. apply filter_In in Ho as [Ho _].
    apply in_map_iff in Ho as (l & <- & Hl). now apply Hids. }
  destruct (List.filter located os) as [|first valid]; [reflexivity|].
  unfold bind at 1, modify at 1.
  unfold bind at 1. unfold bind at 1, get at 1.
  cbn [page set_page map_created set_mapContainer_hidden].
  destruct (map_created (page s)) eqn:Hmap.
  - unfold ret at 1. unfold bind at 1, modify at 1. cbn [orb].
    now apply place_markers.
  - unfold initMap. unfold bind at 1, get at 1.
    cbn [page set_page map_created mapContainer_initialized set_mapContainer_hidden].
    rewrite Hmap. cbn [orb].
    destruct (mapContainer_initialized (page s)); [reflexivity|].
    cbn [negb andb]. unfold bind at 1, modify at 1.
    unfold bind at 1, setView at 1.
    destruct (L_position _ _); [|reflexivity].
    unfold ret at 1. unfold bind at 1, modify at 1. unfold modify at 1.
    unfold bind at 1, modify at 1. now apply place_markers.
Qed.

(** Text that [parseFloat] cannot read leaves the first call without a
    map: Leaflet makes no position of a NaN. *)
Lemma map_accepts_NaN (d : dom) (os : list object) (first : object)
      (others : list object) :
  List.filter located os = first :: others ->
  map_created d = false ->
  parseFloat (obj_get first (lit "latitude")) = S754_nan
  \/ parseFloat (obj_get first (lit "longitude")) = S754_nan ->
  map_accepts d os = false.
Proof.
  intros Hf Hm Hnan. unfold map_accepts. rewrite Hf, Hm. cbn [orb].
  destruct Hnan as [-> | ->].
  - rewrite (proj1 (L_position_NaN _)). now rewrite andb_false_r.
  - rewrite (proj2 (L_position_NaN _)). now rewrite andb_false_r.
Qed.

(** The notice [displayResults] shows for an empty list. *)
Definition notice (d : dom) : content :=
  let query := trim (searchInput_value d) in
  match query with
  | [] => Notice "No salons found."
  | _ => NoMatch query
  end.

(** What [displayResults] shows for a list of records whose cards are
    [cards]. *)
Definition result_list (d : dom) (shown : list object) (cards : list card) : content :=
  match shown with
  | [] => notice d
  | _ => Cards cards
  end.

(** One call of [displayResults].  When the building of a card throws,
    nothing has happened.  Otherwise the result list is written and
    logged, and then the markers are placed, which throws when Leaflet
    does not go along. *)
Lemma displayResults_outcome (salons : loc) (s : state) :
  let elems := default [] (arrays s !! salons) in
  let os := map (fun l => default [] (objects s !! l)) elems in
  let s' := fst (displayResults salons s) in
  match createSalonCards os with
  | Throw e => displayResults salons s = (s, Throw e)
  | Ok cards =>
      resultsContainer (page s') = result_list (page s) os cards
      /\ trace s' = trace s ++ [DisplayResults (result_list (page s) os cards)]
      /\ snd (displayResults salons s)
         = if map_accepts (page s) os then Ok tt else Throw LeafletError
  end.
Proof.
  cbn zeta.
  destruct (default [] (arrays s !! salons)) as [|l ls] eqn:Ea.
  - assert (Hrun : displayResults salons s
                   = updateMap []
                       (emit (DisplayResults (notice (page s)))
                          (set_page (set_resultsContainer (notice (page s))) s))).
    { unfold displayResults. unfold bind at 1, read_array at 1. rewrite Ea.
      unfold bind at 1, get at 1. unfold bind at 1, modify at 1.
      unfold bind at 1, log at 1, modify at 1. reflexivity. }
    rewrite Hrun. cbn [map createSalonCards map_result result_list].
    match goal with |- context [updateMap [] ?s0] =>
      pose proof (updateMap_keeps_trace [] s0) as Ht;
      pose proof (updateMap_keeps_results [] s0) as Hr;
      pose proof (updateMap_outcome [] s0 ltac:(intros ? [])) as Ho;
      destruct (updateMap [] s0) as [s1 r] end.
    unfold same in Ht, Hr. cbn [fst snd] in *.
    rewrite Ht, Hr, Ho. auto.
  - set (os := map _ (l :: ls)).
    assert (Hrun : displayResults salons s
                   = match createSalonCards os with
                     | Ok cards =>
                         updateMap (l :: ls)
                           (emit (DisplayResults (Cards cards))
                              (set_page (set_resultsContainer (Cards cards)) s))
                     | Throw e => (s, Throw e)
                     end).
    { unfold displayResults. unfold bind at 1, read_array at 1. rewrite Ea.
      unfold bind at 1, read_objects at 1. unfold bind at 1, lift at 1.
      fold os. destruct (createSalonCards os); [|reflexivity].
      unfold bind at 1, modify at 1. unfold bind at 1, log at 1, modify at 1.
      reflexivity. }
    rewrite Hrun. destruct (createSalonCards os) as [cards|e] eqn:Ec; [|reflexivity].
    match goal with |- context [updateMap ?x ?s0] =>
      pose proof (updateMap_keeps_trace x s0) as Ht;
      pose proof (updateMap_keeps_results x s0) as Hr;
      pose proof (updateMap_outcome x s0) as Ho;
      destruct (updateMap x s0) as [s1 r] end.
    unfold same in Ht, Hr. cbn [fst snd] in *.
    rewrite Ht, Hr, Ho.
    + subst os. cbn [map result_list]. auto.
    + intros l0 Hl0. cbn [objects emit set_page].
      apply (createSalonCards_ids _ cards Ec).
      apply in_map_iff. exists l0. split; [reflexivity | exact Hl0].
Qed.

(** *** The records of a sheet pass the filter *)

Lemma lower_or_empty_string (v : jsval) :
  v = JUndefined \/ (exists s, v = JStr s) -> exists t, lower_or_empty v = Ok t.
Proof.
  intros [->|[s ->]]; unfold lower_or_empty, or_else.
  - cbn. eauto.
  - destruct (truthy (JStr s)); eauto.
Qed.

Lemma name_not_rowIndex : lit "name" <> lit "rowIndex".
Proof. discriminate. Qed.
Lemma address_not_rowIndex : lit "address" <> lit "rowIndex".
Proof. discriminate. Qed.
Lemma description_not_rowIndex : lit "description" <> lit "rowIndex".
Proof. discriminate. Qed.

Lemma matches_query_plain (query : jsstring) (o : object) :
  plain o -> exists b, matches_query query o = Ok b.
Proof.
  intros Hp. unfold matches_query.
  destruct (lower_or_empty_string _ (plain_get o _ Hp name_not_rowIndex)) as [n ->].
  destruct (lower_or_empty_string _ (plain_get o _ Hp address_not_rowIndex)) as [a ->].
  destruct (lower_or_empty_string _ (plain_get o _ Hp description_not_rowIndex))
    as [d ->].
  eauto.
Qed.

Lemma salonsToRender_returns (s : state) :
  (forall l, In l (default [] (arrays s !! currentSalons s)) ->
             plain (default [] (objects s !! l))) ->
  exists s' visible, salonsToRender s s = (s', Ok visible).
Proof.
  intros Hp. unfold salonsToRender.
  destruct (toLowerCase (trim (searchInput_value (page s)))) as [|q0 q].
  - unfold bind, ret.
    destruct (str_eqb (currentSortKey s) (lit "none")); [eauto|].
    rewrite sortSalons_run. eauto.
  - unfold bind at 1. unfold bind at 1, read_array at 1.
    unfold bind at 1, lift at 1.
    destruct (filter_result_total
                (fun l => matches_query (q0 :: q) (default [] (objects s !! l)))
                (default [] (arrays s !! currentSalons s))) as [kept ->].
    { apply List.Forall_forall. intros l Hl. apply matches_query_plain.
      now apply Hp. }
    unfold new_array at 1.
    destruct (str_eqb (currentSortKey s) (lit "none")); [unfold ret; eauto|].
    rewrite sortSalons_run. eauto.
Qed.

Lemma salonsToRender_keeps_page st : respects (same page) (salonsToRender st).
Proof. unfold salonsToRender. frame. intros s. now rewrite sortSalons_run. Qed.

Lemma map_filter_lookup {A B} (f : A -> B) (p : B -> bool) (l : list A) :
  map f (List.filter (fun x => p (f x)) l) = List.filter p (map f l).
Proof.
  induction l as [|x l IH]; [reflexivity|].
  cbn [List.filter map]. destruct (p (f x)); cbn [map]; now rewrite IH.
Qed.

(** One call of [applyFilterAndRender] with the favourites view hidden,
    on a record set of plain records. *)
Lemma applyFilterAndRender_outcome (s : state) :
  favoritesContainer_hidden (page s) = true ->
  (currentSalons s < length (arrays s))%nat ->
  (forall l, In l (default [] (arrays s !! currentSalons s)) ->
             plain (default [] (objects s !! l))) ->
  let records := map (fun l => default [] (objects s !! l))
                     (default [] (arrays s !! currentSalons s)) in
  let needle := toLowerCase (trim (searchInput_value (page s))) in
  let s' := fst (applyFilterAndRender s) in
  exists shown,
    shown ≡ₚ List.filter (contains_query needle) records
    /\ (currentSortKey s = lit "none"
        -> shown = List.filter (contains_query needle) records)
    /\ match createSalonCards shown with
       | Throw e =>
           snd (applyFilterAndRender s) = Throw e
           /\ page s' = page s /\ trace s' = trace s
       | Ok cards =>
           resultsContainer (page s') = result_list (page s) shown cards
           /\ trace s' = trace s ++ [DisplayResults (result_list (page s) shown cards)]
           /\ snd (applyFilterAndRender s)
              = if map_accepts (page s) shown then Ok tt else Throw LeafletError
       end.
Proof.
  intros Hh Hvalid Hp records needle s'. subst s'.
  rewrite applyFilterAndRender_hidden by exact Hh.
  destruct (salonsToRender_returns s Hp) as (s1 & visible & Hrun).
  destruct (salonsToRender_filters s s1 visible Hvalid Hrun)
    as (Hperm & Hnone & Hobj & _ & _).
  pose proof (salonsToRender_keeps_page s s) as Hpage.
  pose proof (salonsToRender_keeps_trace s s) as Htrace.
  unfold same in Hpage, Htrace. rewrite Hrun in Hpage, Htrace.
  cbn [fst] in Hpage, Htrace.
  unfold bind. rewrite Hrun.
  exists (map (fun l => default [] (objects s1 !! l))
              (default [] (arrays s1 !! visible))).
  assert (Hkept : map (fun l => default [] (objects s1 !! l))
                      (List.filter
                         (fun l => contains_query needle (default [] (objects s !! l)))
                         (default [] (arrays s !! currentSalons s)))
                  = List.filter (contains_query needle) records).
  { rewrite Hobj. apply map_filter_lookup. }
  split; [|split].
  - rewrite <- Hkept. now apply Permutation_map.
  - intros Hk. rewrite <- Hkept. now rewrite (Hnone Hk).
  - pose proof (displayResults_outcome visible s1) as Hd. cbn zeta in Hd.
    destruct (createSalonCards _) as [cards|e].
    + rewrite <- Hpage, <- Htrace. exact Hd.
    + rewrite Hd. cbn [fst snd]. auto.
Qed.

(** What the [catch] of [loadData] makes of an exception that is no
    failed request. *)
Lemma handled_local (s : state) (e : exn) :
  local e ->
  let message :=
    lit "An unexpected error occurred. Please check the console for more details." in
  handled s e
  = emit (DisplayError message)
      (set_page (set_resultsContainer (ErrorBox message))
         (emit (ConsoleError "Error loading sheet data:" e) s)).
Proof.
  intros He. unfold handled.
  rewrite (classify_local e He), (parseGapiError_local e He). reflexivity.
Qed.

Lemma LeafletError_local : local LeafletError.
Proof. exact I. Qed.

Lemma refreshed_quiet (st : state) (id : jsstring) (data : list (list jsstring)) :
  exists new, trace (refreshed st id data) = trace st ++ new
              /\ (forall c, ~ In (DisplayResults c) new)
              /\ (forall m, ~ In (DisplayError m) new).
Proof.
  unfold refreshed. destruct (str_eqb _ _); simpl.
  - exists [ValuesGet id (lit "Sheet1!A:Z")]. split; [reflexivity|].
    split; intros c [H|[]]; discriminate.
  - exists [ValuesGet id (lit "Sheet1!A:Z"); UpdateSortOptions (hd [] data)].
    split; [now rewrite <- app_assoc|].
    split; intros c [H|[H|[]]]; discriminate.
Qed.

Lemma lookup_fresh (old fresh : list object) :
  map (fun l => default [] ((old ++ fresh) !! l)) (seq (length old) (length fresh))
  = fresh.
Proof.
  revert old. induction fresh as [|x fresh IH]; intros old; [reflexivity|].
  cbn [length seq map]. rewrite list_lookup_middle by reflexivity.
  cbn [default]. f_equal.
  specialize (IH (old ++ [x])). rewrite length_app, <- app_assoc in IH.
  cbn [length app] in IH. rewrite Nat.add_1_r in IH. exact IH.
Qed.

(** A poll whose rows serialize to a text other than the last-seen one,
    with the favourites view hidden: what is shown. *)
Lemma loadData_rerenders (st : state) (id : jsstring) (data : list (list jsstring)) :
  isEditing st = false ->
  currentSpreadsheetId st = Some id ->
  id <> [] ->
  (2 <= length data)%nat ->
  JSON_stringify (rows_value data) <> lastDataState st ->
  favoritesContainer_hidden (page st) = true ->
  let st' := fst (loadData (Fetched (Some data)) st) in
  let fresh := normalize_rows (hd [] data) (tail data) in
  let needle := toLowerCase (trim (searchInput_value (page st))) in
  let unexpected :=
    lit "An unexpected error occurred. Please check the console for more details." in
  exists new shown,
    trace st' = trace st ++ new
    /\ shown ≡ₚ List.filter (contains_query needle) fresh
    /\ (currentSortKey st = lit "none"
        -> shown = List.filter (contains_query needle) fresh)
    /\ match createSalonCards shown with
       | Ok cards =>
           In (DisplayResults (result_list (page st) shown cards)) new
           /\ if map_accepts (page st) shown
              then resultsContainer (page st') = result_list (page st) shown cards
                   /\ forall m, ~ In (DisplayError m) new
              else resultsContainer (page st') = ErrorBox unexpected
                   /\ In (DisplayError unexpected) new
       | Throw e =>
           resultsContainer (page st') = ErrorBox unexpected
           /\ In (DisplayError unexpected) new
           /\ forall c, ~ In (DisplayResults c) new
       end.
Proof.
  intros Hedit Hid Hne Hlen Hdiff Hhid st' fresh needle unexpected. subst st'.
  rewrite (loadData_changed st id data Hedit Hid Hne Hlen Hdiff).
  destruct (refreshed_frame st id data) as (Ho & Ha & Hc & _ & Hp & _).
  destruct (refreshed_quiet st id data) as (new0 & Ht & Hn1 & Hn2).
  pose proof (refreshed_headers st id data) as Hh.
  assert (Hkey : currentSortKey (refreshed st id data) = currentSortKey st).
  { unfold refreshed. now destruct (str_eqb _ _). }
  set (r := refreshed st id data) in *. cbn zeta in Ho, Ha, Hc, Hp.
  assert (Helems : default [] (arrays r !! currentSalons r)
                   = seq (length (objects st)) (length fresh)).
  { rewrite Ha, Hc, list_lookup_middle by reflexivity. cbn [default].
    unfold fresh. now rewrite normalize_rows_length. }
  assert (Hrecords : map (fun l => default [] (objects r !! l))
                         (default [] (arrays r !! currentSalons r)) = fresh).
  { rewrite Helems, Ho. apply lookup_fresh. }
  assert (Hhr : favoritesContainer_hidden (page r) = true) by now rewrite Hp.
  assert (Hvalid : (currentSalons r < length (arrays r))%nat).
  { rewrite Ha, Hc, length_app. cbn [length]. lia. }
  assert (Hplain : forall l, In l (default [] (arrays r !! currentSalons r)) ->
                             plain (default [] (objects r !! l))).
  { intros l Hl.
    assert (Hin : In (default [] (objects r !! l)) fresh).
    { rewrite <- Hrecords. apply in_map_iff. exists l.
      split; [reflexivity | exact Hl]. }
    revert Hin. apply List.Forall_forall. apply normalize_rows_plain. }
  destruct (applyFilterAndRender_outcome r Hhr Hvalid Hplain)
    as (shown & Hperm & Hnone & Hout).
  rewrite Hrecords in Hperm, Hnone. rewrite Hkey in Hnone.
  assert (Hsearch : searchInput_value (page r) = searchInput_value (page st))
    by now rewrite Hp.
  rewrite Hsearch in Hperm, Hnone.
  assert (Hlist : forall cards, result_list (page r) shown cards
                                = result_list (page st) shown cards).
  { intros cards. unfold result_list, notice. now rewrite Hsearch. }
  assert (Hmap : map_accepts (page r) shown = map_accepts (page st) shown).
  { unfold map_accepts. now rewrite Hp. }
  destruct (applyFilterAndRender r) as [s2 res] eqn:Erun. cbn [fst snd] in Hout.
  destruct (createSalonCards shown) as [cards|e] eqn:Ecards.
  - destruct Hout as (Hbox & Htr & Hres). rewrite Hlist in Hbox, Htr.
    rewrite Hmap in Hres.
    destruct (map_accepts (page st) shown) eqn:Emap; subst res.
    + exists (new0 ++ [DisplayResults (result_list (page st) shown cards)]), shown.
      cbn [trace page set_page resultsContainer set_loader_hidden].
      split; [now rewrite Htr, Ht, app_assoc|].
      split; [exact Hperm|]. split; [exact Hnone|].
      rewrite Ecards, Emap. split; [apply in_or_app; right; now left|].
      split; [exact Hbox|].
      intros m Hin. apply in_app_or in Hin as [Hin|[Hin|[]]];
        [now apply (Hn2 m) | discriminate].
    + rewrite (handled_local s2 LeafletError LeafletError_local). cbn zeta.
      exists (new0 ++ [DisplayResults (result_list (page st) shown cards);
                       ConsoleError "Error loading sheet data:" LeafletError;
                       DisplayError unexpected]), shown.
      cbn [trace page set_page emit resultsContainer set_loader_hidden
           set_resultsContainer].
      split; [rewrite Htr, Ht, <- !app_assoc; reflexivity|].
      split; [exact Hperm|]. split; [exact Hnone|].
      rewrite Ecards, Emap. split; [apply in_or_app; right; now left|].
      split; [reflexivity|]. apply in_or_app. right. right. right. now left.
  - destruct Hout as (Hres & Hpg & Htr). subst res.
    rewrite (handled_local s2 e (createSalonCards_local shown e Ecards)).
    cbn zeta.
    exists (new0 ++ [ConsoleError "Error loading sheet data:" e;
                     DisplayError unexpected]), shown.
    cbn [trace page set_page emit resultsContainer set_loader_hidden
         set_resultsContainer].
    split; [rewrite Htr, Ht, <- !app_assoc; reflexivity|].
    split; [exact Hperm|]. split; [exact Hnone|].
    rewrite Ecards. split; [reflexivity|].
    split; [apply in_or_app; right; right; now left|].
    intros c Hin. apply in_app_or in Hin as [Hin|[Hin|[Hin|[]]]];
      [now apply (Hn1 c) | discriminate | discriminate].
Qed.

(** C1.  Of two successive polls that both fetch a header row
    and data, the second compares the serialization of its rows with the
    one the first left.  If they are the same text, the second poll leaves
    the records, the arrays and the result list as they are and renders
    nothing.  If they differ, it builds the records anew from its rows and
    calls [applyFilterAndRender].  With the favourites view showing,
    nothing is rendered.  With the favourites view hidden, the records
    shown are the new records that contain the query, rearranged when a
    sort key is chosen, and:
    - when a card is built for each of them, the result list (their
      cards, or the notice when there is none) is written; it stays when
      Leaflet goes along with the markers, and is replaced by the error
      box, with the sentence for an unexpected error, when Leaflet
      throws;
    - when the building of a card throws, no result list is written and
      the error box shows the sentence for an unexpected error. *)
Theorem change_detection
        (st : state) (id : jsstring) (first second : list (list jsstring)) :
  isEditing st = false ->
  currentSpreadsheetId st = Some id ->
  id <> [] ->
  (2 <= length first)%nat ->
  (2 <= length second)%nat ->
  let st1 := fst (loadData (Fetched (Some first)) st) in
  let st2 := fst (loadData (Fetched (Some second)) st1) in
  let fresh := normalize_rows (hd [] second) (tail second) in
  let needle := toLowerCase (trim (searchInput_value (page st1))) in
  let unexpected :=
    lit "An unexpected error occurred. Please check the console for more details." in
  (JSON_stringify (rows_value second) = JSON_stringify (rows_value first) ->
     objects st2 = objects st1
     /\ arrays st2 = arrays st1
     /\ currentSalons st2 = currentSalons st1
     /\ resultsContainer (page st2) = resultsContainer (page st1)
     /\ trace st2 = trace st1 ++ [ValuesGet id (lit "Sheet1!A:Z");
                                  ConsoleLog "Data unchanged. Skipping re-render."])
  /\ (JSON_stringify (rows_value second) <> JSON_stringify (rows_value first) ->
     lastDataState st2 = JSON_stringify (rows_value second)
     /\ headers st2 = hd [] second
     /\ objects st2 = objects st1 ++ fresh
     /\ arrays st2 !! currentSalons st2
        = Some (seq (length (objects st1)) (length (tail second)))
     /\ exists new, trace st2 = trace st1 ++ new
        /\ if favoritesContainer_hidden (page st1)
           then exists shown,
                  shown ≡ₚ List.filter (contains_query needle) fresh
                  /\ (currentSortKey st1 = lit "none"
                      -> shown = List.filter (contains_query needle) fresh)
                  /\ match createSalonCards shown with
                     | Ok cards =>
                         let list := match shown with
                                     | [] => notice (page st1)
                                     | _ => Cards cards
                                     end in
                         In (DisplayResults list) new
                         /\ if map_accepts (page st1) shown
                            then resultsContainer (page st2) = list
                                 /\ forall m, ~ In (DisplayError m) new
                            else resultsContainer (page st2) = ErrorBox unexpected
                                 /\ In (DisplayError unexpected) new
                     | Throw e =>
                         resultsContainer (page st2) = ErrorBox unexpected
                         /\ In (DisplayError unexpected) new
                         /\ forall c, ~ In (DisplayResults c) new
                     end
           else resultsContainer (page st2) = resultsContainer (page st1)
                /\ forall c, ~ In (DisplayResults c) new).
Proof.
  intros Hedit Hid Hne Hlen1 Hlen2 st1 st2 fresh needle unexpected.
  destruct (loadData_last_seen st id first Hedit Hid Hne Hlen1) as (Hl & He1 & Hi1).
  fold st1 in Hl, He1, Hi1. split.
  - intros Hsame. rewrite <- Hl in Hsame.
    destruct (loadData_unchanged st1 id second He1 Hi1 Hne Hlen2 Hsame)
      as (Ho & Ha & Hc & _ & _ & Hr & _ & _ & Ht).
    fold st2 in Ho, Ha, Hc, Hr, Ht. auto.
  - intros Hdiff. rewrite <- Hl in Hdiff.
    destruct (loadData_refreshes st1 id second He1 Hi1 Hne Hlen2 Hdiff)
      as (H1 & H2 & H3 & H4 & new & Ht & Hnew).
    fold st2 in H1, H2, H3, H4, Ht, Hnew.
    split; [exact H1|]. split; [exact H2|]. split; [exact H3|].
    split; [exact H4|].
    destruct (favoritesContainer_hidden (page st1)) eqn:Hhid.
    + destruct (loadData_rerenders st1 id second He1 Hi1 Hne Hlen2 Hdiff Hhid)
        as (new' & shown & Ht' & Hperm & Hnone & Hout).
      fold st2 in Ht', Hout.
      exists new'. split; [exact Ht'|].
      exists shown. split; [exact Hperm|]. split; [exact Hnone|].
      destruct (createSalonCards shown) as [cards|e]; exact Hout.
    + exists new. split; [exact Ht | exact Hnew].
Qed.

End ChangeDetection.

(** ** A response that arrives during an edit session *)

Section InFlight.
Context {U : Host}.

(** The state in which [applyFilterAndRender] is called by the part of
    [loadData] that runs once the read has settled with rows whose
    serialization is not the last-seen one. *)
Definition applied (s : state) (data : list (list jsstring)) : state :=
  let hdr := hd [] data in
  let s2 := set_lastDataState (JSON_stringify (rows_value data)) s in
  let s3 := if str_eqb (JSON_stringify (strings_value (headers s)))
                       (JSON_stringify (strings_value hdr))
            then s2
            else emit (UpdateSortOptions hdr) (set_headers hdr s2) in
  set_currentSalons (length (arrays s))
    (set_arrays (fun a => a ++ [seq (length (objects s))
                                    (length (normalize_rows hdr (tail data)))])
       (set_objects (fun o => o ++ normalize_rows hdr (tail data)) s3)).

Lemma loadData_settle_changed (s : state) (data : list (list jsstring)) :
  (2 <= length data)%nat ->
  JSON_stringify (rows_value data) <> lastDataState s ->
  fst (loadData_settle (Fetched (Some data)) s) =
  set_page (set_loader_hidden true)
    (match applyFilterAndRender (applied s data) with
     | (s', Ok _) => s'
     | (s', Throw e) => handled s' e
     end).
Proof.
  intros Hlen Hdiff.
  destruct data as [|hdr [|row rest]]; simpl in Hlen; try lia.
  apply str_eqb_neq in Hdiff.
  unfold loadData_settle, applied, handled, classify. mstep.
  rewrite Hdiff. mstep. cbn [hd tail negb].
  destruct (str_eqb (JSON_stringify (strings_value (headers s)))
                    (JSON_stringify (strings_value hdr))) eqn:E;
    cbn [negb]; mstep.
  - apply str_eqb_eq, JSON_stringify_strings_inj in E.
    rewrite <- E.
    match goal with |- context [applyFilterAndRender ?s] =>
      destruct (applyFilterAndRender s) as [s2 [[]|e]] end; mstep; [reflexivity|].
    destruct (error_status_of e) as [status|]; mstep; [|reflexivity].
    destruct (str_eqb status (lit "NOT_FOUND")); cbn [orb]; mstep.
    { destruct (dataPollingInterval s2); mstep; reflexivity. }
    destruct (str_eqb status (lit "PERMISSION_DENIED")); mstep.
    { destruct (dataPollingInterval s2); mstep; reflexivity. }
    destruct (str_eqb status (lit "RESOURCE_EXHAUSTED")); reflexivity.
  - match goal with |- context [applyFilterAndRender ?s] =>
      destruct (applyFilterAndRender s) as [s2 [[]|e]] end; mstep; [reflexivity|].
    destruct (error_status_of e) as [status|]; mstep; [|reflexivity].
    destruct (str_eqb status (lit "NOT_FOUND")); cbn [orb]; mstep.
    { destruct (dataPollingInterval s2); mstep; reflexivity. }
    destruct (str_eqb status (lit "PERMISSION_DENIED")); mstep.
    { destruct (dataPollingInterval s2); mstep; reflexivity. }
    destruct (str_eqb status (lit "RESOURCE_EXHAUSTED")); reflexivity.
Qed.

Lemma applied_frame (s : state) (data : list (list jsstring)) :
  let r := applied s data in
  objects r = objects s ++ normalize_rows (hd [] data) (tail data)
  /\ arrays r = arrays s ++ [seq (length (objects s)) (length (tail data))]
  /\ currentSalons r = length (arrays s)
  /\ lastDataState r = JSON_stringify (rows_value data)
  /\ headers r = hd [] data
  /\ page r = page s
  /\ currentSortKey r = currentSortKey s
  /\ (exists new, trace r = trace s ++ new
                  /\ (forall c, ~ In (DisplayResults c) new)
                  /\ (forall m, ~ In (DisplayError m) new)).
Proof.
  unfold applied. rewrite normalize_rows_length.
  destruct (str_eqb _ _) eqn:E; simpl; repeat split.
  - apply str_eqb_eq, JSON_stringify_strings_inj in E. exact E.
  - exists []. split; [now rewrite app_nil_r|]. split; intros c [].
  - exists [UpdateSortOptions (hd [] data)]. split; [reflexivity|].
    split; intros c [H|[]]; discriminate.
Qed.

Lemma loadData_settle_keeps_isEditing response :
  respects (same isEditing) (loadData_settle response).
Proof. unfold loadData_settle. frame. Qed.

Lemma handled_keeps_arrays (s : state) (e : exn) : arrays (handled s e) = arrays s.
Proof. unfold handled. now destruct (classify e), (dataPollingInterval s). Qed.

(** The outcome of a read, applied: the last-seen text, the headers and
    the records are replaced, and what is shown is rendered anew. *)
Lemma loadData_settle_applies (s : state) (data : list (list jsstring)) :
  (2 <= length data)%nat ->
  JSON_stringify (rows_value data) <> lastDataState s ->
  let s' := fst (loadData_settle (Fetched (Some data)) s) in
  let fresh := normalize_rows (hd [] data) (tail data) in
  let needle := toLowerCase (trim (searchInput_value (page s))) in
  let unexpected :=
    lit "An unexpected error occurred. Please check the console for more details." in
  lastDataState s' = JSON_stringify (rows_value data)
  /\ headers s' = hd [] data
  /\ objects s' = objects s ++ fresh
  /\ currentSalons s' = length (arrays s)
  /\ arrays s' !! currentSalons s'
     = Some (seq (length (objects s)) (length (tail data)))
  /\ (favoritesContainer_hidden (page s) = true ->
      exists new shown,
        trace s' = trace s ++ new
        /\ shown ≡ₚ List.filter (contains_query needle) fresh
        /\ (currentSortKey s = lit "none"
            -> shown = List.filter (contains_query needle) fresh)
        /\ match createSalonCards shown with
           | Ok cards =>
               In (DisplayResults (result_list (page s) shown cards)) new
               /\ if map_accepts (page s) shown
                  then resultsContainer (page s') = result_list (page s) shown cards
                  else resultsContainer (page s') = ErrorBox unexpected
                       /\ In (DisplayError unexpected) new
           | Throw e =>
               resultsContainer (page s') = ErrorBox unexpected
               /\ In (DisplayError unexpected) new
           end).
Proof.
  intros Hlen Hdiff s' fresh needle unexpected. subst s'.
  rewrite (loadData_settle_changed s data Hlen Hdiff).
  destruct (applied_frame s data)
    as (Ho & Ha & Hc & Hl & Hh & Hp & Hkey & new0 & Ht & Hn1 & Hn2).
  set (r := applied s data) in *. cbn zeta in Ho, Ha, Hc, Hl, Hh, Hp, Hkey.
  pose proof (applyFilterAndRender_respects (same objects) r) as Fo.
  pose proof (applyFilterAndRender_respects (same headers) r) as Fh.
  pose proof (applyFilterAndRender_respects (same lastDataState) r) as Fl.
  pose proof (applyFilterAndRender_respects (same currentSalons) r) as Fc.
  pose proof (applyFilterAndRender_respects arrays_kept r) as [more Fa].
  unfold same in Fo, Fh, Fl, Fc.
  assert (Helems : default [] (arrays r !! currentSalons r)
                   = seq (length (objects s)) (length fresh)).
  { rewrite Ha, Hc, list_lookup_middle by reflexivity. cbn [default].
    unfold fresh. now rewrite normalize_rows_length. }
  assert (Hrecords : map (fun l => default [] (objects r !! l))
                         (default [] (arrays r !! currentSalons r)) = fresh).
  { rewrite Helems, Ho. apply lookup_fresh. }
  assert (Hvalid : (currentSalons r < length (arrays r))%nat).
  { rewrite Ha, Hc, length_app. cbn [length]. lia. }
  assert (Hplain : forall l, In l (default [] (arrays r !! currentSalons r)) ->
                             plain (default [] (objects r !! l))).
  { intros l Hl0.
    assert (Hin : In (default [] (objects r !! l)) fresh).
    { rewrite <- Hrecords. apply in_map_iff. exists l.
      split; [reflexivity | exact Hl0]. }
    revert Hin. apply List.Forall_forall. apply normalize_rows_plain. }
  assert (Hfields :
            forall s2 res, applyFilterAndRender r = (s2, res) ->
              let s3 := set_page (set_loader_hidden true)
                          match res with
                          | Ok _ => s2
                          | Throw e => handled s2 e
                          end in
              lastDataState s3 = JSON_stringify (rows_value data)
              /\ headers s3 = hd [] data
              /\ objects s3 = objects s ++ fresh
              /\ currentSalons s3 = length (arrays s)
              /\ arrays s3 !! currentSalons s3
                 = Some (seq (length (objects s)) (length (tail data)))).
  { intros s2 res Erun. rewrite Erun in Fo, Fh, Fl, Fc, Fa. cbn [fst] in *.
    assert (Hlook : arrays s2 !! length (arrays s)
                    = Some (seq (length (objects s)) (length (tail data)))).
    { rewrite Fa, Ha, <- app_assoc.
      change ([?x] ++ more) with (x :: more).
      now rewrite list_lookup_middle. }
    destruct res as [[]|e]; cbn zeta;
      cbn [lastDataState headers objects currentSalons arrays set_page].
    - rewrite Fl, Fh, Fo, Fc, Hl, Hh, Ho, Hc. repeat split. exact Hlook.
    - destruct (handled_frame s2 e) as (Go & Ga & Gc & Gh & Gl & _).
      rewrite Go, Ga, Gc, Gh, Gl.
      rewrite Fl, Fh, Fo, Fc, Hl, Hh, Ho, Hc. repeat split. exact Hlook. }
  destruct (applyFilterAndRender r) as [s2 res] eqn:Erun.
  destruct (Hfields s2 res eq_refl) as (G1 & G2 & G3 & G4 & G5).
  cbn zeta in G1, G2, G3, G4, G5.
  split; [exact G1|]. split; [exact G2|]. split; [exact G3|].
  split; [exact G4|]. split; [exact G5|].
  intros Hhid.
  assert (Hhr : favoritesContainer_hidden (page r) = true) by now rewrite Hp.
  destruct (applyFilterAndRender_outcome r Hhr Hvalid Hplain)
    as (shown & Hperm & Hnone & Hout).
  rewrite Hrecords in Hperm, Hnone. rewrite Hkey in Hnone.
  rewrite Hp in Hperm, Hnone, Hout.
  rewrite Erun in Hout. cbn [fst snd] in Hout.
  destruct (createSalonCards shown) as [cards|e] eqn:Ecards.
  - destruct Hout as (Hbox & Htr & Hres).
    destruct (map_accepts (page s) shown) eqn:Emap; subst res.
    + exists (new0 ++ [DisplayResults (result_list (page s) shown cards)]), shown.
      cbn [trace page set_page resultsContainer set_loader_hidden].
      split; [now rewrite Htr, Ht, app_assoc|].
      split; [exact Hperm|]. split; [exact Hnone|].
      rewrite Ecards, Emap. split; [apply in_or_app; right; now left|].
      exact Hbox.
    + rewrite (handled_local s2 LeafletError LeafletError_local). cbn zeta.
      exists (new0 ++ [DisplayResults (result_list (page s) shown cards);
                       ConsoleError "Error loading sheet data:" LeafletError;
                       DisplayError unexpected]), shown.
      cbn [trace page set_page emit resultsContainer set_loader_hidden
           set_resultsContainer].
      split; [rewrite Htr, Ht, <- !app_assoc; reflexivity|].
      split; [exact Hperm|]. split; [exact Hnone|].
      rewrite Ecards, Emap. split; [apply in_or_app; right; now left|].
      split; [reflexivity|]. apply in_or_app. right. right. right. now left.
  - destruct Hout as (Hres & Hpg & Htr). subst res.
    rewrite (handled_local s2 e (createSalonCards_local shown e Ecards)).
    cbn zeta.
    exists (new0 ++ [ConsoleError "Error loading sheet data:" e;
                     DisplayError unexpected]), shown.
    cbn [trace page set_page emit resultsContainer set_loader_hidden
         set_resultsContainer].
    split; [rewrite Htr, Ht, <- !app_assoc; reflexivity|].
    split; [exact Hperm|]. split; [exact Hnone|].
    rewrite Ecards. split; [reflexivity|].
    apply in_or_app; right; right; now left.
Qed.

(** C8.  The editing flag is read once, where a poll starts.  A poll that
    starts while the flag is set returns at once: no request goes out,
    nothing is rendered, and the record set, the headers and the
    last-seen serialization are what they were.  But the part of a poll
    that runs when its read has settled does not read the flag: when
    rows whose serialization is not the last-seen one arrive while the
    flag is set, the last-seen serialization, the headers and the record
    set are replaced all the same and, with the favourites view hidden,
    what is shown is rendered anew; the flag stays set throughout. *)
Theorem editing_guard_misses_response_in_flight
        (st : state) (response : fetch_outcome) (data : list (list jsstring)) :
  isEditing st = true ->
  (2 <= length data)%nat ->
  JSON_stringify (rows_value data) <> lastDataState st ->
  let skipped := fst (loadData response st) in
  let st' := fst (loadData_settle (Fetched (Some data)) st) in
  let fresh := normalize_rows (hd [] data) (tail data) in
  let needle := toLowerCase (trim (searchInput_value (page st))) in
  let unexpected :=
    lit "An unexpected error occurred. Please check the console for more details." in
  (snd (loadData_request st) = Ok None
   /\ skipped = fst (loadData_request st)
   /\ currentSalons skipped = currentSalons st
   /\ arrays skipped = arrays st
   /\ objects skipped = objects st
   /\ headers skipped = headers st
   /\ lastDataState skipped = lastDataState st
   /\ page skipped = page st
   /\ trace skipped = trace st ++ [ConsoleLog "Polling skipped: user is editing."])
  /\ isEditing st' = true
  /\ lastDataState st' = JSON_stringify (rows_value data)
  /\ lastDataState st' <> lastDataState st
  /\ headers st' = hd [] data
  /\ objects st' = objects st ++ fresh
  /\ currentSalons st' = length (arrays st)
  /\ arrays st' !! currentSalons st'
     = Some (seq (length (objects st)) (length (tail data)))
  /\ (favoritesContainer_hidden (page st) = true ->
      exists new shown,
        trace st' = trace st ++ new
        /\ shown ≡ₚ List.filter (contains_query needle) fresh
        /\ (currentSortKey st = lit "none"
            -> shown = List.filter (contains_query needle) fresh)
        /\ match createSalonCards shown with
           | Ok cards =>
               let list := match shown with
                           | [] => notice (page st)
                           | _ => Cards cards
                           end in
               In (DisplayResults list) new
               /\ if map_accepts (page st) shown
                  then resultsContainer (page st') = list
                  else resultsContainer (page st') = ErrorBox unexpected
                       /\ In (DisplayError unexpected) new
           | Throw e =>
               resultsContainer (page st') = ErrorBox unexpected
               /\ In (DisplayError unexpected) new
           end).
Proof.
  intros Hedit Hlen Hdiff skipped st' fresh needle unexpected.
  split.
  - subst skipped. unfold loadData, loadData_request. mstep. rewrite Hedit. mstep.
    repeat split.
  - destruct (loadData_settle_applies st data Hlen Hdiff)
      as (H1 & H2 & H3 & H4 & H5 & H6).
    fold st' in H1, H2, H3, H4, H5, H6.
    split.
    { subst st'. rewrite (loadData_settle_keeps_isEditing _ st). exact Hedit. }
    split; [exact H1|]. split; [now rewrite H1|]. split; [exact H2|].
    split; [exact H3|]. split; [exact H4|]. split; [exact H5|].
    intros Hhid. destruct (H6 Hhid) as (new & shown & Ht & Hperm & Hnone & Hout).
    exists new, shown. split; [exact Ht|]. split; [exact Hperm|].
    split; [exact Hnone|].
    destruct (createSalonCards shown) as [cards|e]; exact Hout.
Qed.

End InFlight.


End SheetFacts.

(* ===================================================================== *)
(** * Properties of the AI variant                                         *)
(* ===================================================================== *)

Module ScoutFacts.
Import JS JSFacts Scout.
Local Open Scope js_scope.

Ltac frame_scout :=
  repeat first
    [ frame_core
    | match goal with
      | |- respects _ (modify _) =>
          apply respects_modify; intros; unfold same; reflexivity
      end ].

Section CsvExport.
Context {U : Host}.

Lemma renderResults_keeps_businesses businesses :
  respects (same currentBusinesses) (renderResults businesses).
Proof. unfold renderResults, updateMapMarkers, add_marker. frame_scout. Qed.

(** ** CSV export *)






















End CsvExport.

Section Filter.
Context {U : Host}.

(** [b.socialMedia?.instagram], for a business that is not null. *)
Definition instagram (b : jsval) : jsval :=
  get_prop_opt (get_prop_opt b (lit "socialMedia")) (lit "instagram").

(** What the filter of the AI variant keeps: the lower-cased JSON text of
    the whole business contains the search term, its Instagram handle
    contains the handle term, and it has a handle when only those are
    asked for.  An empty term passes everything. *)
Definition keeps (searchTerm instagramSearchTerm : jsstring)
           (hasInstagramOnly : bool) (b : jsval) : bool :=
  match searchTerm with
  | [] => true
  | _ => includes (toLowerCase (JSON_stringify b)) searchTerm
  end
  && match instagramSearchTerm with
     | [] => true
     | _ => includes (toLowerCase (field_text (instagram b))) instagramSearchTerm
     end
  && (if hasInstagramOnly then truthy (instagram b) else true).

Lemma instagram_of_ok (b handle : jsval) :
  instagram_of b = Ok handle -> handle = instagram b.
Proof.
  unfold instagram_of, instagram.
  destruct (get_prop b (lit "socialMedia")) as [sm|] eqn:E; [|discriminate].
  intros H. injection H as <-. f_equal. unfold get_prop_opt. now rewrite E.
Qed.

Lemma matches_keeps (s i : jsstring) (h : bool) (b : jsval) (x : bool) :
  matches s i h b = Ok x -> x = keeps s i h b.
Proof.
  unfold matches, keeps, JSON_stringify.
  destruct (stringify b) as [text|]; [|discriminate].
  assert (Hi : forall y,
    match i with
    | [] => Ok true
    | _ :: _ =>
        match instagram_of b with
        | Ok handle =>
            match lower_or_empty handle with
            | Ok h0 => Ok (includes h0 i)
            | Throw e => Throw e
            end
        | Throw e => Throw e
        end
    end = Ok y ->
    y = match i with
        | [] => true
        | _ :: _ => includes (toLowerCase (field_text (instagram b))) i
        end).
  { intros y. destruct i as [|i0 i']; [intros H; now injection H as <-|].
    destruct (instagram_of b) as [handle|] eqn:Eh; [|discriminate].
    apply instagram_of_ok in Eh. subst handle.
    unfold lower_or_empty, field_text.
    destruct (or_else (instagram b) (JStr [])); try discriminate.
    intros H. now injection H as <-. }
  destruct (match i with [] => Ok true | _ :: _ => _ end) as [mi|] eqn:Ei;
    [|discriminate].
  specialize (Hi mi eq_refl). rewrite <- Hi.
  destruct h.
  - destruct (instagram_of b) as [handle|] eqn:Eh; [|discriminate].
    apply instagram_of_ok in Eh. subst handle.
    intros H. now injection H as <-.
  - intros H. injection H as <-. now rewrite andb_true_r.
Qed.

(** The businesses [filterAndRenderResults] renders, when the filter
    completes. *)
Lemma filtered_keeps (st : state) (kept : list jsval) :
  filtered st = Ok kept ->
  kept = List.filter
           (keeps (toLowerCase (searchInput_value st))
                  (toLowerCase (instagramHandleInput_value st))
                  (followsFilterCheckbox_checked st))
           (currentBusinesses st).
Proof.
  unfold filtered. apply filter_result_filter. intros x b. apply matches_keeps.
Qed.

Lemma filterAndRenderResults_keeps_businesses :
  respects (same currentBusinesses) filterAndRenderResults.
Proof.
  unfold filterAndRenderResults. frame_scout. apply renderResults_keeps_businesses.
Qed.

End Filter.

End ScoutFacts.

(* ===================================================================== *)
(** * Properties that span both variants                                   *)
(* ===================================================================== *)

Module Pipeline.
Import JS JSFacts.

Section Filtering.
Context {U : Host}.

(** C5.  In the sheet variant the array handed to
    [displayResults] holds exactly the records whose name, address or
    description contains the trimmed, lower-cased query (all records when
    it is empty), in their order when no sort key is chosen and rearranged
    otherwise; only those three fields decide; and neither the records
    nor the array [currentSalons] are changed by filtering and sorting.
    In the AI variant the filter keeps the businesses whose whole JSON
    text, lower-cased, contains the lower-cased search term and which pass
    the two Instagram filters; [currentBusinesses] is not changed. *)
Theorem filtering_keeps_substring_matches
        (st s' : Sheet.state) (visible : Sheet.loc)
        (ai : Scout.state) (kept : list jsval) :
  (Sheet.currentSalons st < length (Sheet.arrays st))%nat ->
  Sheet.salonsToRender st st = (s', Ok visible) ->
  Scout.filtered ai = Ok kept ->
  let needle := toLowerCase (trim (Sheet.searchInput_value (Sheet.page st))) in
  let matching :=
    List.filter
      (fun l => SheetFacts.contains_query needle
                  (default [] (Sheet.objects st !! l)))
      (default [] (Sheet.arrays st !! Sheet.currentSalons st)) in
  let shown := default [] (Sheet.arrays s' !! visible) in
  (shown ≡ₚ matching
   /\ (Sheet.currentSortKey st = lit "none" -> shown = matching)
   /\ (forall a b : object,
         obj_get a (lit "name") = obj_get b (lit "name") ->
         obj_get a (lit "address") = obj_get b (lit "address") ->
         obj_get a (lit "description") = obj_get b (lit "description") ->
         Sheet.matches_query needle a = Sheet.matches_query needle b)
   /\ Sheet.objects s' = Sheet.objects st
   /\ Sheet.arrays s' !! Sheet.currentSalons st
      = Sheet.arrays st !! Sheet.currentSalons st
   /\ Sheet.currentSalons s' = Sheet.currentSalons st)
  /\ (kept = List.filter
               (ScoutFacts.keeps
                  (toLowerCase (Scout.searchInput_value ai))
                  (toLowerCase (Scout.instagramHandleInput_value ai))
                  (Scout.followsFilterCheckbox_checked ai))
               (Scout.currentBusinesses ai)
      /\ Scout.currentBusinesses (fst (Scout.filterAndRenderResults ai))
         = Scout.currentBusinesses ai).
Proof.
  intros Hvalid Hrun Hkept needle matching shown.
  destruct (SheetFacts.salonsToRender_filters st s' visible Hvalid Hrun)
    as (Hperm & Heq & Ho & Ha & Hc).
  split.
  - split; [exact Hperm|]. split; [exact Heq|].
    split; [intros a b; apply SheetFacts.matches_query_fields|]. auto.
  - split; [now apply ScoutFacts.filtered_keeps|].
    apply ScoutFacts.filterAndRenderResults_keeps_businesses.
Qed.

End Filtering.

(** ** Identifiers *)

(** The text both identifier functions encode: [name + address]. *)
Definition id_text (record : object) : jsstring :=
  ToString (js_add (obj_get record (lit "name")) (obj_get record (lit "address"))).


(** Every element is a 16-bit code unit, as in any string of the run time. *)
Definition code_units (s : jsstring) : bool := forallb (fun c => (c <? 65536)%N) s.










Lemma getBusinessId_text (record : object) :
  Scout.getBusinessId (JObj record)
  = match encode_units (id_text record) with
    | Ok encoded => btoa encoded
    | Throw e => Throw e
    end.
Proof. reflexivity. Qed.


End Pipeline.

(* ===================================================================== *)
(** * The properties on the scenario of the specification                  *)
(* ===================================================================== *)

Module Scenario.
Import JS JSFacts Sheet SheetFacts Example.

Lemma sheet_chosen : lit "sheet-1" <> [].
Proof. discriminate. Qed.

(** A poll sends its request from the page that shows the sheet; the
    user opens an edit session; the read settles with the sheet in which
    the row has become a favourite. *)
Definition editing_began (st : state) : state :=
  {| objects := objects st;
     arrays := arrays st;
     currentSalons := currentSalons st;
     headers := headers st;
     currentSpreadsheetId := currentSpreadsheetId st;
     dataPollingInterval := dataPollingInterval st;
     lastDataState := lastDataState st;
     isEditing := true;
     currentSortKey := currentSortKey st;
     currentSortDirection := currentSortDirection st;
     page := page st;
     trace := trace st |}.

Definition response_awaited : state :=
  editing_began (handle Request (loaded true acme)).

Lemma acme_favorited_is_news :
  JSON_stringify (rows_value acme_favorited) <> lastDataState response_awaited.
Proof. vm_compute. discriminate. Qed.

Lemma two_rows : (2 <= length acme_favorited)%nat.
Proof. simpl. lia. Qed.

Lemma editing_guard_misses_response_in_flight_witness :
  let st' := handle (Response (Fetched (Some acme_favorited))) response_awaited in
  isEditing response_awaited = true
  /\ snd (loadData_request (loaded true acme)) = Ok (Some (lit "sheet-1"))
  /\ isEditing st' = true
  /\ lastDataState st' = JSON_stringify (rows_value acme_favorited)
  /\ lastDataState st' <> lastDataState response_awaited
  /\ currentSalons st' <> currentSalons response_awaited.
Proof.
  pose proof (editing_guard_misses_response_in_flight
                response_awaited (Fetched (Some acme_favorited)) acme_favorited
                eq_refl two_rows acme_favorited_is_news) as H.
  cbv zeta in H. destruct H as (_ & H1 & H2 & H3 & _ & _ & H4 & _).
  split; [reflexivity|]. split; [vm_compute; reflexivity|].
  split; [exact H1|]. split; [exact H2|]. split; [exact H3|].
  unfold handle. rewrite H4. vm_compute. discriminate.
Defined.

Lemma fatal_errors_stop_polling_witness :
  let st' := fst (loadData (FetchFailed not_found) (session false true)) in
  classify not_found = NotFound
  /\ dataPollingInterval st' = None
  /\ resultsContainer (page st')
     = ErrorBox (lit "The Google Sheet could not be found. Please check the URL or ID and make sure it's correct.").
Proof.
  split; [reflexivity|].
  pose proof (fatal_errors_stop_polling (session false true) (lit "sheet-1")
                not_found eq_refl eq_refl sheet_chosen) as H.
  destruct H as (Hbox & _ & _ & H). change (classify not_found) with NotFound in H.
  split; [exact (proj1 H) | exact Hbox].
Defined.

Lemma acme_has_two_rows : (2 <= length acme)%nat.
Proof. simpl. lia. Qed.

Lemma acme_favorited_differs :
  JSON_stringify (rows_value acme_favorited) <> JSON_stringify (rows_value acme).
Proof. vm_compute. discriminate. Qed.

Lemma change_detection_witness :
  let st1 := loaded true acme in
  let unchanged := fst (loadData (Fetched (Some acme)) st1) in
  let changed := fst (loadData (Fetched (Some acme_favorited)) st1) in
  (objects unchanged = objects st1 /\ arrays unchanged = arrays st1)
  /\ lastDataState changed = JSON_stringify (rows_value acme_favorited)
  /\ objects changed
     = objects st1 ++ normalize_rows (hd [] acme_favorited) (tail acme_favorited).
Proof.
  split.
  - pose proof (change_detection (session false true) (lit "sheet-1") acme acme
                  eq_refl eq_refl sheet_chosen acme_has_two_rows acme_has_two_rows)
      as H.
    destruct H as [Hsame _].
    destruct (Hsame eq_refl) as (Ho & Ha & _).
    split; [exact Ho | exact Ha].
  - pose proof (change_detection (session false true) (lit "sheet-1")
                  acme acme_favorited
                  eq_refl eq_refl sheet_chosen acme_has_two_rows two_rows) as H.
    destruct H as [_ Hchanged].
    destruct (Hchanged acme_favorited_differs) as (Hl & _ & Ho & _).
    split; [exact Hl | exact Ho].
Defined.

(** A changed poll with the favourites view hidden: the card of the row
    is built anew and shown. *)
Lemma changed_poll_rerenders :
  let st1 := loaded true acme in
  let st2 := fst (loadData (Fetched (Some acme_favorited)) st1) in
  exists before after,
    resultsContainer (page st1) = Cards [before]
    /\ resultsContainer (page st2) = Cards [after]
    /\ card_favorited before = false
    /\ card_favorited after = true
    /\ In (DisplayResults (Cards [after])) (skipn (length (trace st1)) (trace st2)).
Proof.
  vm_compute. eexists. eexists. split; [reflexivity|]. split; [reflexivity|].
  split; [reflexivity|]. split; [reflexivity|]. right. now left.
Qed.

(** A sheet with text where the coordinates belong. *)
Definition acme_nowhere : list (list jsstring) :=
  [[lit "Name"; lit "Address"; lit "Latitude"; lit "Longitude"];
   [lit "Acme"; lit "1 Main St"; lit "N/A"; lit "N/A"]].

(** A changed poll whose row has text for coordinates: the card is built
    and the result list written, then Leaflet throws on the text and the
    error box takes the place of the list. *)
Lemma changed_poll_with_text_coordinates :
  let st1 := loaded true acme in
  let st2 := fst (loadData (Fetched (Some acme_nowhere)) st1) in
  resultsContainer (page st2)
  = ErrorBox (lit "An unexpected error occurred. Please check the console for more details.")
  /\ (exists card, In (DisplayResults (Cards [card]))
                      (skipn (length (trace st1)) (trace st2)))
  /\ In (ConsoleError "Error loading sheet data:" LeafletError) (trace st2)
  /\ map_created (page st2) = false
  /\ mapContainer_initialized (page st2) = true.
Proof.
  vm_compute. split; [reflexivity|]. split.
  - eexists. right. right. now left.
  - split; [|split; reflexivity]. do 6 right. now left.
Qed.

(** C1 as stated fails with the favourites view showing: the second poll
    fetches rows that serialize differently, and writes no result list. *)
Lemma changed_poll_without_render :
  let st1 := loaded false acme in
  let st2 := fst (loadData (Fetched (Some acme_favorited)) st1) in
  JSON_stringify (rows_value acme_favorited) <> lastDataState st1
  /\ resultsContainer (page st2) = resultsContainer (page st1)
  /\ forall c, ~ In (DisplayResults c) (skipn (length (trace st1)) (trace st2)).
Proof.
  vm_compute. split; [discriminate|]. split; [reflexivity|].
  intros c H. repeat (destruct H as [H|H]; [discriminate H|]). exact H.
Qed.

Lemma filtering_keeps_substring_matches_witness :
  let st := searching (lit " ACME ") (loaded true acme) in
  (currentSalons st < length (arrays st))%nat
  /\ default [] (arrays (fst (salonsToRender st st)) !! 2%nat) = [0%nat]
  /\ Scout.filtered leads = Ok [JObj lead].
Proof.
  split; [vm_compute; lia|].
  assert (Hrun : salonsToRender (searching (lit " ACME ") (loaded true acme))
                   (searching (lit " ACME ") (loaded true acme))
                 = (fst (salonsToRender (searching (lit " ACME ") (loaded true acme))
                           (searching (lit " ACME ") (loaded true acme))), Ok 2%nat))
    by (vm_compute; reflexivity).
  assert (Hvalid : (currentSalons (searching (lit " ACME ") (loaded true acme))
                    < length (arrays (searching (lit " ACME ") (loaded true acme))))%nat)
    by (vm_compute; lia).
  destruct (Pipeline.filtering_keeps_substring_matches _ _ _ leads [JObj lead]
              Hvalid Hrun eq_refl) as [(_ & Heq & _) _].
  split; [|reflexivity].
  rewrite (Heq eq_refl). vm_compute. reflexivity.
Defined.

(** C5 as stated fails in the AI variant: the lead is kept for the query
    555, which is its telephone number and occurs in neither its name, its
    address nor its description. *)
Lemma ai_filter_reads_every_field :
  Scout.filtered leads = Ok [JObj lead]
  /\ contains_query (toLowerCase (Scout.searchInput_value leads)) lead = false.
Proof. split; vm_compute; reflexivity. Qed.




Lemma numeric_path_needs_round_trip_witness :
  numeral (lit "123 Main St") = false
  /\ compare_values 1 (JStr (lit "123 Main St")) (JStr (lit "45"))
     = (localeCompare (lit "123 Main St") (lit "45") * 1)%Z.
Proof.
  split; [reflexivity|].
  destruct (numeric_path_needs_round_trip 1 (JStr (lit "9")) (JStr (lit "45")))
    as (_ & _ & H & _).
  exact (proj1 (H (lit "123 Main St") eq_refl)).
Defined.




(** A record that lacks a key of the first one answers with what it
    inherits under that name. *)
Lemma inherited_cell_in_export :
  Scout.convertToCsv
    [JObj [(lit "name", JStr (lit "A")); (lit "constructor", JStr (lit "x"))];
     JObj [(lit "name", JStr (lit "B"))]]
  = Ok ([34%N] ++ lit "name" ++ [34%N; 44%N; 34%N] ++ lit "constructor"
        ++ [34%N; 10%N; 34%N] ++ lit "A" ++ [34%N; 44%N; 34%N] ++ lit "x"
        ++ [34%N; 10%N; 34%N] ++ lit "B" ++ [34%N; 44%N; 34%N]
        ++ lit "function Object() { [native code] }" ++ [34%N]).
Proof. vm_compute. reflexivity. Qed.

End Scenario.

(* ===================================================================== *)
(** * Choosing a sheet and signing out                                     *)
(* ===================================================================== *)

Module SessionFacts.
Import JS JSFacts Sheet SheetFacts Session.
Local Open Scope js_scope.

(** ** The id in a sheet address *)

Lemma take_while_holds (p : N -> bool) (s : jsstring) :
  forallb p (take_while p s) = true.
Proof.
  induction s as [|c r IH]; [reflexivity|]. cbn [take_while].
  destruct (p c) eqn:E; [|reflexivity]. cbn [forallb]. now rewrite E.
Qed.

Lemma take_while_prefix (p : N -> bool) (s rest : jsstring) :
  forallb p s = true ->
  match rest with [] => true | c :: _ => negb (p c) end = true ->
  take_while p (s ++ rest) = s.
Proof.
  intros Hs Hrest. induction s as [|c r IH].
  - destruct rest as [|c r]; [reflexivity|].
    apply negb_true_iff in Hrest. simpl. now rewrite Hrest.
  - cbn [forallb] in Hs. apply andb_true_iff in Hs as [Hc Hr].
    simpl. rewrite Hc. f_equal. now apply IH.
Qed.

Lemma match_here_id (s id : jsstring) :
  match_here s = Some id -> id <> [] /\ forallb id_unit id = true.
Proof.
  unfold match_here. destruct (startsWith s _); [|discriminate].
  pose proof (take_while_holds id_unit (skipn 16 s)) as H.
  destruct (take_while id_unit (skipn 16 s)) as [|c r]; [discriminate|].
  intros [= <-]. split; [discriminate | exact H].
Qed.

Lemma exec_id_id (s id : jsstring) :
  exec_id s = Some id -> id <> [] /\ forallb id_unit id = true.
Proof.
  induction s as [|c r IH]; cbn [exec_id].
  - destruct (match_here []) eqn:E; [|discriminate].
    intros [= <-]. now apply (match_here_id []).
  - destruct (match_here (c :: r)) eqn:E.
    + intros [= <-]. now apply (match_here_id (c :: r)).
    + exact IH.
Qed.

(** A run of id characters holds no match: the expression starts with a
    slash. *)
Lemma exec_id_plain (s : jsstring) : forallb id_unit s = true -> exec_id s = None.
Proof.
  induction s as [|c r IH]; intros H; [reflexivity|].
  cbn [forallb] in H. apply andb_true_iff in H as [Hc Hr].
  cbn [exec_id]. replace (match_here (c :: r)) with (@None jsstring); [now apply IH|].
  unfold match_here.
  change (startsWith (c :: r) (lit "/spreadsheets/d/"))
    with ((47 =? c)%N && startsWith r (lit "spreadsheets/d/")).
  destruct (47 =? c)%N eqn:E; [|reflexivity].
  apply N.eqb_eq in E. subst c. discriminate Hc.
Qed.

Lemma startsWith_app_long (a b q : jsstring) :
  (length q <= length a)%nat -> startsWith (a ++ b) q = startsWith a q.
Proof.
  revert a. induction q as [|x q IH]; intros a Hlen; [now destruct a, b|].
  destruct a as [|y a]; [simpl in Hlen; lia|].
  simpl. rewrite IH; [reflexivity|]. simpl in Hlen. lia.
Qed.

Lemma includes_head (s q : jsstring) :
  includes s q = false -> startsWith s q = false.
Proof. destruct s; cbn [includes]; intros H; now apply orb_false_iff in H. Qed.

Lemma includes_tail (c : N) (s q : jsstring) :
  includes (c :: s) q = false -> includes s q = false.
Proof. cbn [includes]. intros H. now apply orb_false_iff in H. Qed.

(** The search passes over a prefix in which the literal does not start. *)
Lemma exec_id_skips (prefix tail : jsstring) :
  includes (prefix ++ lit "/spreadsheets/d") (lit "/spreadsheets/d/") = false ->
  exec_id (prefix ++ lit "/spreadsheets/d" ++ tail)
  = exec_id (lit "/spreadsheets/d" ++ tail).
Proof.
  induction prefix as [|c r IH]; intros H; [reflexivity|].
  change ((c :: r) ++ lit "/spreadsheets/d" ++ tail)
    with (c :: (r ++ lit "/spreadsheets/d" ++ tail)).
  cbn [exec_id].
  replace (match_here (c :: r ++ lit "/spreadsheets/d" ++ tail))
    with (@None jsstring).
  - apply IH. exact (includes_tail c _ _ H).
  - unfold match_here.
    change (c :: r ++ lit "/spreadsheets/d" ++ tail)
      with ((c :: r) ++ lit "/spreadsheets/d" ++ tail).
    rewrite (app_assoc (c :: r)).
    rewrite startsWith_app_long.
    + now rewrite (includes_head _ _ H).
    + rewrite length_app. change (length (lit "/spreadsheets/d/")) with 16%nat.
      change (length (lit "/spreadsheets/d")) with 15%nat. simpl. lia.
Qed.

(** X1.  From an address in which the literal /spreadsheets/d/ first
    occurs right before [id], a non-empty run of letters, digits, hyphens
    and underscores that ends the text or is followed by another
    character, [getSpreadsheetIdFromUrl] returns [id]. *)
Theorem getSpreadsheetIdFromUrl_extracts (prefix id rest : jsstring) :
  includes (prefix ++ lit "/spreadsheets/d") (lit "/spreadsheets/d/") = false ->
  id <> [] ->
  forallb id_unit id = true ->
  match rest with [] => true | c :: _ => negb (id_unit c) end = true ->
  getSpreadsheetIdFromUrl (prefix ++ lit "/spreadsheets/d/" ++ id ++ rest) = id.
Proof.
  intros Hprefix Hne Hid Hrest. unfold getSpreadsheetIdFromUrl.
  change (lit "/spreadsheets/d/" ++ id ++ rest)
    with (lit "/spreadsheets/d" ++ [47%N] ++ id ++ rest).
  rewrite (exec_id_skips prefix _ Hprefix).
  pose proof (take_while_prefix id_unit id rest Hid Hrest) as Hrun.
  destruct id as [|c id]; [contradiction|].
  change (exec_id (lit "/spreadsheets/d" ++ [47%N] ++ (c :: id) ++ rest))
    with (match (match take_while id_unit ((c :: id) ++ rest) with
                 | [] => None
                 | i => Some i
                 end) with
          | Some i => Some i
          | None => exec_id (lit "spreadsheets/d/" ++ (c :: id) ++ rest)
          end).
  now rewrite Hrun.
Qed.

Lemma exec_id_absent (s : jsstring) :
  includes s (lit "/spreadsheets/d/") = false -> exec_id s = None.
Proof.
  induction s as [|c r IH]; intros H; [reflexivity|].
  cbn [exec_id]. unfold match_here. rewrite (includes_head _ _ H).
  apply IH. exact (includes_tail c _ _ H).
Qed.

(** X2.  [getSpreadsheetIdFromUrl] is idempotent; a text in which the
    literal /spreadsheets/d/ does not occur comes back unchanged, so a
    bare id passes through; and the answer is empty only for the empty
    text. *)
Theorem getSpreadsheetIdFromUrl_idempotent (url : jsstring) :
  getSpreadsheetIdFromUrl (getSpreadsheetIdFromUrl url) = getSpreadsheetIdFromUrl url
  /\ (includes url (lit "/spreadsheets/d/") = false ->
      getSpreadsheetIdFromUrl url = url)
  /\ (forallb id_unit url = true -> getSpreadsheetIdFromUrl url = url)
  /\ (getSpreadsheetIdFromUrl url = [] <-> url = []).
Proof.
  destruct (exec_id url) as [id|] eqn:E.
  - destruct (exec_id_id url id E) as [Hne Hid].
    assert (Hurl : getSpreadsheetIdFromUrl url = id)
      by (unfold getSpreadsheetIdFromUrl; now rewrite E).
    rewrite Hurl. split; [|split; [|split]].
    + unfold getSpreadsheetIdFromUrl. now rewrite (exec_id_plain id Hid).
    + intros H. rewrite (exec_id_absent url H) in E. discriminate.
    + intros H. rewrite (exec_id_plain url H) in E. discriminate.
    + split; [intros ->; contradiction|].
      intros ->. cbn in E. discriminate.
  - assert (Hurl : getSpreadsheetIdFromUrl url = url)
      by (unfold getSpreadsheetIdFromUrl; now rewrite E).
    rewrite !Hurl. repeat split; auto.
Qed.

(** ** Signing out *)

(** The state of the sheet view after [updateSigninStatus(false)]. *)
Definition signed_out (st : state) : state :=
  let st1 := set_page (set_mapContainer_hidden true)
               (set_page (set_resultsContainer
                  (Notice "Please connect your Google Account to load a sheet.")) st) in
  let st2 := match dataPollingInterval st with
             | Some handle => set_dataPollingInterval None (emit (ClearInterval handle) st1)
             | None => st1
             end in
  set_currentSalons (length (arrays st))
    (set_arrays (fun ars => ars ++ [[]]) (set_currentSpreadsheetId None st2)).

Lemma updateSigninStatus_false (s : shell) :
  updateSigninStatus false s
  = ({| app := signed_out (app s);
        authContainer_hidden := false;
        signoutButton_hidden := true;
        sheetContainer_hidden := true;
        sortContainer_hidden := true |}, Ok tt).
Proof.
  unfold updateSigninStatus, signed_out, in_app, bind, modify, get, ret, log, new_array.
  cbn [app set_app set_containers set_sortContainer_hidden fst snd].
  destruct (dataPollingInterval (app s)) eqn:E; cbn; rewrite ?E; reflexivity.
Qed.

Section SigningOut.
Context {U : Host}.

(** X3.  Signing out stops polling for good: [updateSigninStatus(false)]
    clears the timer it finds, forgets the sheet and empties the record
    set, so that a poll that still fires sends no request and leaves the
    page as it is (but for the console line of an open edit session).
    The last-seen serialization and the headers are not reset. *)
Theorem signing_out_stops_polling (s : shell) (response : fetch_outcome) :
  let s' := fst (updateSigninStatus false s) in
  let st' := app s' in
  snd (updateSigninStatus false s) = Ok tt
  /\ dataPollingInterval st' = None
  /\ (forall handle, dataPollingInterval (app s) = Some handle ->
                     In (ClearInterval handle) (trace st'))
  /\ currentSpreadsheetId st' = None
  /\ arrays st' !! currentSalons st' = Some []
  /\ lastDataState st' = lastDataState (app s)
  /\ headers st' = headers (app s)
  /\ snd (loadData_request st') = Ok None
  /\ loadData response st'
     = (if isEditing st'
        then emit (ConsoleLog "Polling skipped: user is editing.") st'
        else st', Ok tt).
Proof.
  cbn zeta. rewrite updateSigninStatus_false. cbn [fst snd app].
  assert (Hid : currentSpreadsheetId (signed_out (app s)) = None) by reflexivity.
  split; [reflexivity|]. split.
  { unfold signed_out. destruct (dataPollingInterval (app s)) eqn:E; cbn; rewrite ?E; auto. }
  split.
  { intros handle H. unfold signed_out. rewrite H.
    cbn. rewrite in_app_iff. right. now left. }
  split; [exact Hid|]. split.
  { unfold signed_out. cbn [arrays currentSalons set_currentSalons set_arrays].
    apply list_lookup_middle. unfold set_currentSpreadsheetId. cbn [arrays].
    destruct (dataPollingInterval (app s)) eqn:E; cbn; rewrite ?E; auto. }
  split.
  { unfold signed_out. destruct (dataPollingInterval (app s)) eqn:E; cbn; rewrite ?E; auto. }
  split.
  { unfold signed_out. destruct (dataPollingInterval (app s)) eqn:E; cbn; rewrite ?E; auto. }
  unfold loadData, loadData_request, bind, get, ret, log, modify.
  rewrite Hid. now destruct (isEditing (signed_out (app s))).
Qed.

End SigningOut.

End SessionFacts.

(* ===================================================================== *)
(** * More on the sheet variant                                            *)
(* ===================================================================== *)

Module LoadFacts.
Import JS JSFacts Sheet SheetFacts.
Local Open Scope js_scope.

Section Loading.
Context {U : Host}.

(** X4.  A read that brings no rows, or a header row alone, shows the
    message about missing data and changes nothing else: the records, the
    headers and the last-seen serialization stay, the timer keeps running,
    and the loader is hidden again. *)
Theorem loadData_without_rows
        (st : state) (id : jsstring) (values : option (list (list jsstring))) :
  isEditing st = false ->
  currentSpreadsheetId st = Some id ->
  id <> [] ->
  (length (default [] values) < 2)%nat ->
  let st' := fst (loadData (Fetched values) st) in
  snd (loadData (Fetched values) st) = Ok tt
  /\ resultsContainer (page st')
     = ErrorBox (lit "No data found in the sheet, or sheet is missing a header row.")
  /\ objects st' = objects st
  /\ arrays st' = arrays st
  /\ currentSalons st' = currentSalons st
  /\ headers st' = headers st
  /\ lastDataState st' = lastDataState st
  /\ dataPollingInterval st' = dataPollingInterval st
  /\ loader_hidden (page st') = true
  /\ trace st'
     = trace st
       ++ [ValuesGet id (lit "Sheet1!A:Z");
           DisplayError (lit "No data found in the sheet, or sheet is missing a header row.")].
Proof.
  intros Hedit Hid Hne Hlen.
  destruct id as [|c0 id0]; [congruence|].
  assert (Hrows : match values with
                  | Some (_ :: _ :: _) => False
                  | _ => True
                  end).
  { destruct values as [[|h [|r rest]]|]; simpl in *; try exact I. lia. }
  unfold loadData, loadData_request, loadData_settle. mstep. rewrite Hedit, Hid. mstep.
  destruct values as [[|h [|r rest]]|]; try contradiction; mstep;
    rewrite <- ?app_assoc; repeat split.
Qed.

(** X5.  The last-seen serialization is written before the rows are
    rendered.  So when a poll ends with the error box showing, a next poll
    that fetches the same rows finds them unchanged: it renders nothing,
    the error box stays, and the records are not built again. *)
Theorem failed_render_is_not_retried
        (st : state) (id : jsstring) (data : list (list jsstring)) (m : jsstring) :
  isEditing st = false ->
  currentSpreadsheetId st = Some id ->
  id <> [] ->
  (2 <= length data)%nat ->
  let st1 := fst (loadData (Fetched (Some data)) st) in
  let st2 := fst (loadData (Fetched (Some data)) st1) in
  resultsContainer (page st1) = ErrorBox m ->
  lastDataState st1 = JSON_stringify (rows_value data)
  /\ resultsContainer (page st2) = ErrorBox m
  /\ objects st2 = objects st1
  /\ arrays st2 = arrays st1
  /\ currentSalons st2 = currentSalons st1
  /\ trace st2 = trace st1 ++ [ValuesGet id (lit "Sheet1!A:Z");
                               ConsoleLog "Data unchanged. Skipping re-render."].
Proof.
  intros Hedit Hid Hne Hlen st1 st2 Hbox.
  destruct (loadData_last_seen st id data Hedit Hid Hne Hlen) as (Hl & He1 & Hi1).
  fold st1 in Hl, He1, Hi1.
  destruct (loadData_unchanged st1 id data He1 Hi1 Hne Hlen (eq_sym Hl))
    as (Ho & Ha & Hc & _ & _ & Hr & _ & _ & Ht).
  fold st2 in Ho, Ha, Hc, Hr, Ht.
  rewrite Hr, Hbox. repeat split; assumption.
Qed.

(** X6.  Two row sets serialize to the same text only when they are the
    same rows.  So of two polls in a row the second is skipped exactly
    when it fetched the rows of the first: any difference, in a cell, in
    the number of cells of a row or in the order of the rows, makes it
    build the records anew. *)
Theorem poll_skips_only_identical_rows
        (st : state) (id : jsstring) (first second : list (list jsstring)) :
  isEditing st = false ->
  currentSpreadsheetId st = Some id ->
  id <> [] ->
  (2 <= length first)%nat ->
  (2 <= length second)%nat ->
  let st1 := fst (loadData (Fetched (Some first)) st) in
  let st2 := fst (loadData (Fetched (Some second)) st1) in
  (second = first ->
     objects st2 = objects st1 /\ arrays st2 = arrays st1
     /\ currentSalons st2 = currentSalons st1)
  /\ (second <> first ->
     objects st2 = objects st1 ++ normalize_rows (hd [] second) (tail second)
     /\ arrays st2 !! currentSalons st2
        = Some (seq (length (objects st1)) (length (tail second)))
     /\ lastDataState st2 = JSON_stringify (rows_value second))
  /\ (objects st2 = objects st1 <-> second = first).
Proof.
  intros Hedit Hid Hne Hlen1 Hlen2 st1 st2.
  destruct (loadData_last_seen st id first Hedit Hid Hne Hlen1) as (Hl & He1 & Hi1).
  fold st1 in Hl, He1, Hi1.
  assert (Hsame : second = first ->
            objects st2 = objects st1 /\ arrays st2 = arrays st1
            /\ currentSalons st2 = currentSalons st1).
  { intros ->.
    destruct (loadData_unchanged st1 id first He1 Hi1 Hne Hlen1 (eq_sym Hl))
      as (Ho & Ha & Hc & _). auto. }
  assert (Hdiff : second <> first ->
            objects st2 = objects st1 ++ normalize_rows (hd [] second) (tail second)
            /\ arrays st2 !! currentSalons st2
               = Some (seq (length (objects st1)) (length (tail second)))
            /\ lastDataState st2 = JSON_stringify (rows_value second)).
  { intros Hneq.
    assert (Hd : JSON_stringify (rows_value second) <> lastDataState st1).
    { rewrite Hl. intros E. apply Hneq. now apply JSON_stringify_rows_inj. }
    destruct (loadData_refreshes st1 id second He1 Hi1 Hne Hlen2 Hd)
      as (Hls & _ & Ho & Ha & _). auto. }
  split; [exact Hsame|]. split; [exact Hdiff|]. split.
  - intros Ho. destruct (decide (second = first)) as [E|E]; [exact E|].
    destruct (Hdiff E) as (Ho' & _). rewrite Ho' in Ho.
    apply (f_equal (@length _)) in Ho. rewrite length_app, normalize_rows_length in Ho.
    destruct second as [|h [|r rest]]; simpl in Hlen2, Ho; lia.
  - intros E. now destruct (Hsame E).
Qed.

(** X7.  What the normalizer makes of any header row: no header can
    take the place of [rowIndex], since lower-casing never yields its
    capital letter; a header that is not __proto__ gives the field of its
    lower-cased name, holding the cell under the rightmost header of that
    name, or the empty string where the row is too short; and the record
    has no field besides these. *)
Theorem normalizer_record_fields
        (hs : list jsstring) (rows : list (list jsstring))
        (k : nat) (row : list jsstring) :
  rows !! k = Some row ->
  exists salon,
    normalize_rows hs rows !! k = Some salon
    /\ obj_get salon (lit "rowIndex") = JNum (of_Z (Z.of_nat k + 2))
    /\ (forall j h,
          hs !! j = Some h ->
          toLowerCase h <> lit "__proto__" ->
          (forall j' h', (j < j')%nat -> hs !! j' = Some h' ->
                         toLowerCase h' <> toLowerCase h) ->
          obj_get salon (toLowerCase h) = JStr (default [] (row !! j)))
    /\ (forall key,
          key <> lit "rowIndex" ->
          (forall h, In h hs -> toLowerCase h <> key) ->
          obj_get salon key = JUndefined).
Proof.
  intros Hk. exists (normalize_row hs k row).
  split; [now apply normalize_rows_lookup|].
  split; [apply normalize_row_rowIndex|].
  split; [intros j h; apply normalize_row_field|].
  intros key Hkey Hnone. unfold normalize_row.
  rewrite assign_cells_other by exact Hnone.
  cbn [obj_get]. apply str_eqb_neq in Hkey.
  destruct (str_eqb (lit "rowIndex") key) eqn:E; [|reflexivity].
  apply str_eqb_eq in E. subst key. now rewrite str_eqb_refl in Hkey.
Qed.

End Loading.

End LoadFacts.

(* ===================================================================== *)
(** * More on favourites                                                   *)
(* ===================================================================== *)

Module FavouriteFacts.
Import JS JSFacts Sheet SheetFacts.
Local Open Scope js_scope.

Section Toggling.
Context {U : Host}.

Lemma retitle_other (salonId : jsstring) (f : bool) (c : card) :
  card_id c <> salonId -> retitle salonId f c = c.
Proof. intros H. unfold retitle. apply str_eqb_neq in H. now rewrite H. Qed.

(** Retitling the buttons of one record leaves the cards of the others. *)
Lemma retitled_others (l : list card) (salonId : jsstring) (f : bool) (c : card) :
  In c l -> card_id c <> salonId -> In c (map (retitle salonId f) l).
Proof.
  intros Hin Hc. apply in_map_iff. exists c. split; [now apply retitle_other|exact Hin].
Qed.

(** X8.  A record that has no [rowIndex] cannot be toggled: the user is
    told so, and nothing else happens; no field changes, no button
    changes and no write is issued. *)
Theorem toggle_needs_rowIndex (st : state) (salon : loc) :
  strict_equals (obj_get (default [] (objects st !! salon)) (lit "rowIndex"))
                JUndefined = true ->
  toggleFavorite salon st
  = (emit (Alert (lit "You can only favorite items that are loaded from a Google Sheet.")) st,
     Ok None).
Proof.
  intros H. unfold toggleFavorite. mstep. now rewrite H.
Qed.

(** The state a toggle leaves when the sheet has no favourite column. *)
Definition untoggled (st : state) (salon : loc) (o : object) (id : jsstring) : state :=
  let o1 := obj_set o (lit "favorite") (JStr (flag (negb (isFavorited o)))) in
  let o2 := obj_set o1 (lit "favorite") (obj_get o (lit "favorite")) in
  set_page (retitle_page id (isFavorited o))
    (set_objects (fun os => <[salon := o2]> os)
       (emit (Alert (lit "Could not find a " ++ quoted (lit "favorite")
                     ++ lit " column in your sheet."))
          (set_page (retitle_page id (negb (isFavorited o)))
             (set_objects (fun os => <[salon := o1]> os) st)))).

Lemma toggleFavorite_no_column (st : state) (salon : loc) (o : object) (id : jsstring) :
  objects st !! salon = Some o ->
  strict_equals (obj_get o (lit "rowIndex")) JUndefined = false ->
  getSalonId o = Ok id ->
  find_index (fun h => str_eqb (toLowerCase h) (lit "favorite")) (headers st) = None ->
  toggleFavorite salon st = (untoggled st salon o id, Ok None).
Proof.
  intros Ho Hrow Hid Hcol. unfold toggleFavorite.
  unfold bind at 1. unfold read_object at 1. rewrite Ho.
  cbn [from_option Datatypes.id]. rewrite Hrow.
  unfold bind at 1. rewrite (set_favorite_run st salon o _ Ho).
  fold (flag (negb (isFavorited o))).
  set (o1 := obj_set o (lit "favorite") _).
  set (st1 := set_objects (fun os => <[salon := o1]> os) st).
  assert (Ho1 : objects st1 !! salon = Some o1)
    by (apply (objects_set_lookup st salon o o1 Ho)).
  assert (Hid1 : getSalonId o1 = Ok id)
    by (unfold o1; now rewrite set_favorite_id).
  assert (Hfav1 : isFavorited o1 = negb (isFavorited o))
    by (apply isFavorited_flag, set_favorite_get).
  unfold bind at 1.
  rewrite (updateFavoriteButtons_run st1 salon o1 id Ho1 Hid1), Hfav1.
  unfold bind at 1, get at 1. cbn [headers set_page]. subst st1.
  cbn [headers set_objects]. rewrite Hcol.
  unfold bind at 1, log, modify. unfold bind at 1.
  set (st2 := emit _ _).
  assert (Ho2 : objects st2 !! salon = Some o1) by exact Ho1.
  rewrite (set_favorite_run st2 salon o1 _ Ho2).
  set (o2 := obj_set o1 (lit "favorite") _).
  set (st3 := set_objects _ st2).
  assert (Ho3 : objects st3 !! salon = Some o2)
    by (apply (objects_set_lookup st2 salon o1 o2 Ho2)).
  assert (Hid2 : getSalonId o2 = Ok id)
    by (unfold o2; now rewrite set_favorite_id).
  assert (Hfav2 : isFavorited o2 = isFavorited o)
    by (apply isFavorited_fields, set_favorite_get).
  unfold bind at 1.
  rewrite (updateFavoriteButtons_run st3 salon o2 id Ho3 Hid2), Hfav2.
  reflexivity.
Qed.

(** X9.  When the sheet has no favourite column, a toggle undoes itself
    on the spot: the user is told that the column is missing, every field
    of the record is as before, each button of the record shows that
    unchanged state, the cards of other records and all other records are
    left, and no write is issued. *)
Theorem toggle_without_column_reverts
        (st : state) (salon : loc) (o : object) (id : jsstring) :
  objects st !! salon = Some o ->
  strict_equals (obj_get o (lit "rowIndex")) JUndefined = false ->
  getSalonId o = Ok id ->
  find_index (fun h => str_eqb (toLowerCase h) (lit "favorite")) (headers st) = None ->
  let st' := fst (toggleFavorite salon st) in
  snd (toggleFavorite salon st) = Ok None
  /\ (forall k, obj_get (default [] (objects st' !! salon)) k = obj_get o k)
  /\ (forall l, l <> salon -> objects st' !! l = objects st !! l)
  /\ map card_id (buttons st') = map card_id (buttons st)
  /\ (forall c, In c (buttons st') -> card_id c = id ->
                card_favorited c = isFavorited o)
  /\ (forall c, In c (buttons st) -> card_id c <> id -> In c (buttons st'))
  /\ trace st'
     = trace st ++ [Alert (lit "Could not find a " ++ quoted (lit "favorite")
                           ++ lit " column in your sheet.")].
Proof.
  intros Ho Hrow Hid Hcol.
  rewrite (toggleFavorite_no_column st salon o id Ho Hrow Hid Hcol).
  cbn [fst snd]. split; [reflexivity|].
  assert (Hlook : objects (untoggled st salon o id) !! salon
                  = Some (obj_set
                            (obj_set o (lit "favorite")
                                     (JStr (flag (negb (isFavorited o)))))
                            (lit "favorite") (obj_get o (lit "favorite")))).
  { unfold untoggled. cbn [objects emit set_page set_objects].
    apply list_lookup_insert_eq. rewrite length_insert.
    now apply lookup_lt_Some in Ho. }
  split.
  { intros k. rewrite Hlook. cbn [from_option Datatypes.id]. apply rollback_fields. }
  split.
  { intros l Hl. unfold untoggled. cbn [objects emit set_page set_objects].
    now rewrite !list_lookup_insert_ne by (intros E; apply Hl; now symmetry). }
  assert (Hbut : buttons (untoggled st salon o id)
                 = map (retitle id (isFavorited o))
                       (map (retitle id (negb (isFavorited o))) (buttons st))).
  { unfold untoggled. rewrite buttons_retitled. f_equal.
    apply (buttons_retitled
             (set_objects (fun os => <[salon := _]> os) st) id). }
  rewrite Hbut.
  split; [now rewrite !(proj1 (retitled_buttons _ _ _))|].
  split.
  { intros c Hin Hc. exact (proj2 (retitled_buttons _ id (isFavorited o)) c Hin Hc). }
  split; [|reflexivity].
  intros c Hin Hc. apply retitled_others; [|exact Hc]. now apply retitled_others.
Qed.

(** X10.  A toggle that finds the favourite column acts before its write
    settles: the record is favourited exactly when it was not before,
    whatever its [favorite] field held; the field holds TRUE or FALSE for
    the new state and no other field changes; every button of the record
    shows the new state and the cards of other records are left; and one
    write is issued, carrying the new value to the cell of the record. *)
Theorem toggle_flips_at_once
        (st : state) (salon : loc) (o : object) (id : jsstring) (column : nat) :
  objects st !! salon = Some o ->
  strict_equals (obj_get o (lit "rowIndex")) JUndefined = false ->
  getSalonId o = Ok id ->
  find_index (fun h => str_eqb (toLowerCase h) (lit "favorite")) (headers st)
  = Some column ->
  let st' := fst (toggleFavorite salon st) in
  let after := default [] (objects st' !! salon) in
  isFavorited after = negb (isFavorited o)
  /\ obj_get after (lit "favorite") = JStr (flag (negb (isFavorited o)))
  /\ (forall k, k <> lit "favorite" -> obj_get after k = obj_get o k)
  /\ (forall l, l <> salon -> objects st' !! l = objects st !! l)
  /\ map card_id (buttons st') = map card_id (buttons st)
  /\ (forall c, In c (buttons st') -> card_id c = id ->
                card_favorited c = negb (isFavorited o))
  /\ (forall c, In c (buttons st) -> card_id c <> id -> In c (buttons st'))
  /\ trace st'
     = trace st ++ [ValuesUpdate (currentSpreadsheetId st) (favorite_cell column o)
                                 [[JStr (flag (negb (isFavorited o)))]]].
Proof.
  intros Ho Hrow Hid Hcol.
  rewrite (toggleFavorite_issues st salon o id column Ho Hrow Hid Hcol).
  cbn [fst snd].
  assert (Hlook : objects (toggled st salon o id column) !! salon
                  = Some (obj_set o (lit "favorite")
                                  (JStr (flag (negb (isFavorited o)))))).
  { unfold toggled. cbn [objects emit set_page set_objects].
    apply list_lookup_insert_eq. now apply lookup_lt_Some in Ho. }
  rewrite Hlook. cbn [from_option Datatypes.id].
  split; [apply isFavorited_flag, set_favorite_get|].
  split; [apply set_favorite_get|].
  split; [intros k Hk; now apply set_favorite_other|].
  split.
  { intros l Hl. unfold toggled. cbn [objects emit set_page set_objects].
    now rewrite list_lookup_insert_ne by (intros E; apply Hl; now symmetry). }
  assert (Hbut : buttons (toggled st salon o id column)
                 = map (retitle id (negb (isFavorited o))) (buttons st)).
  { unfold toggled.
    apply (buttons_retitled
             (set_objects (fun os => <[salon := _]> os) st) id). }
  rewrite Hbut.
  split; [apply (proj1 (retitled_buttons _ _ _))|].
  split.
  { intros c Hin Hc. exact (proj2 (retitled_buttons _ id _) c Hin Hc). }
  split; [|reflexivity].
  intros c Hin Hc. now apply retitled_others.
Qed.

(** *** The success callback *)

Lemma find_index_lookup {A} (p : A -> bool) (l : list A) (i : nat) :
  find_index p l = Some i ->
  exists x, l !! i = Some x /\ p x = true
            /\ forall j y, (j < i)%nat -> l !! j = Some y -> p y = false.
Proof.
  revert i. induction l as [|x l IH]; intros i; cbn [find_index]; [discriminate|].
  destruct (p x) eqn:E.
  - intros [= <-]. exists x. split; [reflexivity|]. split; [exact E|]. intros; lia.
  - destruct (find_index p l) as [k|]; [|discriminate]. intros [= <-].
    destruct (IH k eq_refl) as (y & Hy & Hp & Hfirst).
    exists y. split; [exact Hy|]. split; [exact Hp|].
    intros [|j] z Hj Hz; [now injection Hz as <-|].
    apply (Hfirst j z); [lia|exact Hz].
Qed.

(** X11.  When the write of a toggle succeeds (favourites view closed),
    the callback looks up the first record of the current set whose
    [rowIndex] is the one of the toggled record and stores the toggled
    record's [favorite] value there, leaving its other fields, all other
    records and the trace; the card with the identifier of the toggled
    record gets the JSON text of the updated record of the set as its
    snapshot.  This holds also when the toggled record is no longer in
    the set because a poll has rebuilt it. *)
Theorem write_success_updates_current_record
        (s : state) (salon target : loc) (o t : object) (id : jsstring)
        (index : nat) :
  objects s !! salon = Some o ->
  getSalonId o = Ok id ->
  favoritesContainer_hidden (page s) = true ->
  find_index (fun r => strict_equals (obj_get r (lit "rowIndex"))
                                     (obj_get o (lit "rowIndex")))
             (map (fun l => default [] (objects s !! l))
                  (default [] (arrays s !! currentSalons s)))
  = Some index ->
  default [] (arrays s !! currentSalons s) !! index = Some target ->
  objects s !! target = Some t ->
  let t' := obj_set t (lit "favorite") (obj_get o (lit "favorite")) in
  favoriteWritten salon s
  = (set_page (set_salonInfo id (JSON_stringify (JObj t')))
       (set_objects (fun os => <[target := t']> os) s), Ok tt)
  /\ obj_get t' (lit "favorite") = obj_get o (lit "favorite")
  /\ (forall k, k <> lit "favorite" -> obj_get t' k = obj_get t k)
  /\ strict_equals (obj_get t (lit "rowIndex")) (obj_get o (lit "rowIndex")) = true.
Proof.
  intros Ho Hid Hhid Hfind Htarget Ht t'.
  split; [|split; [apply set_favorite_get|split]].
  - unfold favoriteWritten.
    unfold bind at 1, get at 1. unfold bind at 1, read_array at 1.
    unfold bind at 1, read_objects at 1. unfold bind at 1, read_object at 1.
    rewrite Ho. cbn [from_option Datatypes.id]. rewrite Hfind, Htarget.
    cbn [from_option Datatypes.id].
    unfold bind at 1. unfold bind at 1.
    rewrite (set_favorite_run s target t _ Ht). fold t'.
    set (s1 := set_objects _ s).
    assert (Ht1 : objects s1 !! target = Some t')
      by (apply (objects_set_lookup s target t t' Ht)).
    destruct (copy_favorite_fields (objects s) salon target o Ho)
      as (o' & Ho' & Hfields).
    rewrite Ht in Ho'. cbn [from_option Datatypes.id] in Ho'.
    assert (Ho1 : objects s1 !! salon = Some o') by exact Ho'.
    assert (Hid' : getSalonId o' = Ok id).
    { rewrite <- Hid. apply getSalonId_fields; apply Hfields. }
    unfold bind at 1, read_object at 1. rewrite Ho1.
    cbn [from_option Datatypes.id].
    unfold bind at 1. rewrite Hid'. unfold lift at 1.
    unfold bind at 1, read_object at 1. rewrite Ht1.
    cbn [from_option Datatypes.id]. unfold modify.
    unfold bind at 1, get at 1. cbn [page set_page].
    rewrite set_salonInfo_hidden. subst s1. cbn [page set_objects].
    rewrite Hhid. reflexivity.
  - intros k Hk. now apply set_favorite_other.
  - destruct (find_index_lookup _ _ _ Hfind) as (x & Hx & Hp & _).
    rewrite list_lookup_fmap, Htarget in Hx. cbn in Hx. rewrite Ht in Hx.
    cbn in Hx. injection Hx as <-. exact Hp.
Qed.

End Toggling.

End FavouriteFacts.

(* ===================================================================== *)
(** * Rendering the cards                                                  *)
(* ===================================================================== *)

Module RenderFacts.
Import JS JSFacts Sheet SheetFacts.
Local Open Scope js_scope.


Section Cards.
Context {U : Host}.


Lemma displayResults_empty (salons : loc) (s : state) :
  default [] (arrays s !! salons) = [] ->
  exists s',
    displayResults salons s = (s', Ok tt)
    /\ resultsContainer (page s')
       = match trim (searchInput_value (page s)) with
         | [] => Notice "No salons found."
         | query => NoMatch query
         end
    /\ mapContainer_hidden (page s') = true.
Proof.
  intros Ea. unfold displayResults. unfold bind at 1, read_array at 1. rewrite Ea.
  unfold updateMap. mstep. cbn [List.filter map]. mstep.
  eexists. split; [reflexivity|]. cbn.
  split; [|reflexivity]. now destruct (trim (searchInput_value (page s))).
Qed.

Lemma displayResults_throws (salons : loc) (s : state) (l : loc) (ls : list loc)
      (e : exn) :
  default [] (arrays s !! salons) = l :: ls ->
  createSalonCards (map (fun l => default [] (objects s !! l)) (l :: ls)) = Throw e ->
  displayResults salons s = (s, Throw e).
Proof.
  intros Ea Ec. unfold displayResults. unfold bind at 1, read_array at 1. rewrite Ea.
  unfold bind at 1, read_objects at 1. unfold bind at 1, lift at 1. now rewrite Ec.
Qed.

(** X12.  [displayResults] writes the result list in one piece and then
    places the markers.  For an empty list it shows the notice, naming
    the trimmed query when there is one, hides the map and returns.
    Otherwise, when a card can be built for every record, the list holds
    one card per record, in order, with the record's identifier,
    favourite state and JSON snapshot; the call then returns when Leaflet
    goes along with the located records, and throws, with the list
    written, when it does not: so it does when there is no map yet and
    [parseFloat] reads no number in a coordinate of the first located
    record.  When the building of some card throws, the page is left
    exactly as it was. *)
Theorem displayResults_all_or_nothing (salons : loc) (s : state) :
  let elems := default [] (arrays s !! salons) in
  let os := map (fun l => default [] (objects s !! l)) elems in
  let s' := fst (displayResults salons s) in
  match elems with
  | [] =>
      snd (displayResults salons s) = Ok tt
      /\ resultsContainer (page s')
         = match trim (searchInput_value (page s)) with
           | [] => Notice "No salons found."
           | query => NoMatch query
           end
      /\ mapContainer_hidden (page s') = true
  | _ :: _ =>
      match createSalonCards os with
      | Ok cards =>
          resultsContainer (page s') = Cards cards
          /\ Forall2 (fun o c => getSalonId o = Ok (card_id c)
                                 /\ card_favorited c = isFavorited o
                                 /\ card_salonInfo c = JSON_stringify (JObj o))
                     os cards
          /\ snd (displayResults salons s)
             = (if map_accepts (page s) os then Ok tt else Throw LeafletError)
          /\ (forall first others,
                List.filter located os = first :: others ->
                map_created (page s) = false ->
                parseFloat (obj_get first (lit "latitude")) = S754_nan
                \/ parseFloat (obj_get first (lit "longitude")) = S754_nan ->
                snd (displayResults salons s) = Throw LeafletError)
      | Throw e => displayResults salons s = (s, Throw e)
      end
  end.
Proof.
  cbn zeta.
  pose proof (displayResults_outcome salons s) as Hout. cbn zeta in Hout.
  destruct (default [] (arrays s !! salons)) as [|l ls] eqn:Ea.
  - destruct (displayResults_empty salons s Ea) as (s' & -> & Hr & Hm). auto.
  - destruct (createSalonCards _) as [cards|e] eqn:Ec; [|exact Hout].
    destruct Hout as (Hr & _ & Hres).
    split; [exact Hr|]. split.
    { apply map_result_inv in Ec. eapply Forall2_impl; [exact Ec|].
      intros o c Hoc.
      destruct (createSalonCard_inv o c Hoc) as (H1 & H2 & H3 & _). auto. }
    split; [exact Hres|].
    intros first others Hf Hm Hnan.
    now rewrite Hres, (map_accepts_NaN _ _ first others Hf Hm Hnan).
Qed.

(** *** The favourites view *)

Lemma filter_combine_map {A B} (f : A -> B) (p : B -> bool) (l : list A) :
  map fst (List.filter (fun x => p (snd x)) (combine l (map f l)))
  = List.filter (fun a => p (f a)) l.
Proof.
  induction l as [|a l IH]; [reflexivity|].
  cbn [map combine List.filter snd]. destruct (p (f a)); cbn [map fst]; now rewrite IH.
Qed.

(** The records [displayFavorites] shows: the favourited ones of the
    current set, in its order. *)
Definition favourites (s : state) : list loc :=
  List.filter (fun l => isFavorited (default [] (objects s !! l)))
              (default [] (arrays s !! currentSalons s)).

Lemma displayFavorites_run (s : state) :
  let s0 := set_arrays (fun ars => ars ++ [favourites s])
              (set_page (set_resultsContainer Blank)
                 (set_page (set_mapContainer_hidden true) s)) in
  displayFavorites s
  = match favourites s with
    | [] =>
        let c := Notice "You haven't saved any favorite salons yet." in
        (emit (DisplayFavorites c) (set_page (set_favoritesList c) s0), Ok tt)
    | _ :: _ =>
        match createSalonCards
                (map (fun l => default [] (objects s !! l)) (favourites s)) with
        | Ok cards =>
            (emit (DisplayFavorites (Cards cards))
                  (set_page (set_favoritesList (Cards cards)) s0), Ok tt)
        | Throw e => (s0, Throw e)
        end
    end.
Proof.
  cbn zeta. unfold displayFavorites.
  unfold bind at 1, modify at 1. unfold bind at 1, modify at 1.
  unfold bind at 1, get at 1. unfold bind at 1, read_array at 1.
  unfold bind at 1, read_objects at 1.
  cbn [arrays objects currentSalons set_page].
  rewrite (filter_combine_map (fun l => default [] (objects s !! l)) isFavorited).
  fold (favourites s).
  unfold bind at 1, new_array at 1. unfold bind at 1, read_array at 1.
  cbn [arrays set_arrays set_page].
  rewrite list_lookup_middle by reflexivity. cbn [from_option Datatypes.id].
  destruct (favourites s) as [|l ls] eqn:Ef.
  - mstep. reflexivity.
  - unfold bind at 1, read_objects at 1. cbn [objects set_arrays set_page].
    unfold bind at 1, lift at 1.
    destruct (createSalonCards _) as [cards|e]; [|reflexivity].
    mstep. reflexivity.
Qed.

(** X13.  [displayFavorites] clears the result list and hides the map,
    whatever follows.  It then shows a card for each favourited record of
    the current set, in the order of the set, and every card it shows
    carries the favourited state; with no favourited record it shows the
    notice; and when the building of a card throws, the favourites list
    keeps its old content while the result list is already empty. *)
Theorem displayFavorites_shows_favourites (s : state) :
  let s' := fst (displayFavorites s) in
  let shown := map (fun l => default [] (objects s !! l)) (favourites s) in
  resultsContainer (page s') = Blank
  /\ mapContainer_hidden (page s') = true
  /\ objects s' = objects s
  /\ default [] (arrays s' !! currentSalons s')
     = default [] (arrays s !! currentSalons s)
  /\ match favourites s with
     | [] =>
         snd (displayFavorites s) = Ok tt
         /\ favoritesList (page s')
            = Notice "You haven't saved any favorite salons yet."
     | _ :: _ =>
         match createSalonCards shown with
         | Ok cards =>
             snd (displayFavorites s) = Ok tt
             /\ favoritesList (page s') = Cards cards
             /\ Forall2 (fun o c => getSalonId o = Ok (card_id c)) shown cards
             /\ Forall (fun c => card_favorited c = true) cards
         | Throw e =>
             snd (displayFavorites s) = Throw e
             /\ favoritesList (page s') = favoritesList (page s)
         end
     end.
Proof.
  cbn zeta. rewrite displayFavorites_run. cbn zeta.
  assert (Hfav : Forall (fun o => isFavorited o = true)
                        (map (fun l => default [] (objects s !! l)) (favourites s))).
  { apply Forall_forall. intros o Ho. apply list_elem_of_In, in_map_iff in Ho.
    destruct Ho as (l & <- & Hl). unfold favourites in Hl.
    now apply filter_In in Hl as [_ Hl]. }
  assert (Harr : default [] ((arrays s ++ [favourites s]) !! currentSalons s)
                 = default [] (arrays s !! currentSalons s)).
  { destruct (arrays s !! currentSalons s) as [elems|] eqn:E.
    - now rewrite (lookup_app_l_Some _ _ _ _ E).
    - unfold favourites. rewrite E. cbn [from_option List.filter].
      apply lookup_ge_None in E.
      destruct (decide (currentSalons s = length (arrays s))) as [->|Hne].
      + now rewrite list_lookup_middle.
      + rewrite lookup_ge_None_2; [reflexivity|]. rewrite length_app. simpl. lia. }
  destruct (favourites s) as [|l ls] eqn:Ef.
  - cbn. repeat split; try reflexivity. exact Harr.
  - destruct (createSalonCards _) as [cards|e] eqn:Ec.
    + cbn. repeat split; try reflexivity; try exact Harr.
      * apply map_result_inv in Ec. eapply Forall2_impl; [exact Ec|].
        intros o c Hoc. now apply createSalonCard_inv.
      * apply map_result_inv in Ec.
        apply Forall_forall. intros c Hc.
        apply list_elem_of_lookup in Hc as [i Hi].
        destruct (Forall2_lookup_r _ _ _ _ _ Ec Hi) as (o & Ho & Hoc).
        destruct (createSalonCard_inv o c Hoc) as (_ & -> & _).
        rewrite Forall_forall in Hfav. apply Hfav.
        now apply list_elem_of_lookup_2 in Ho.
    + cbn. repeat split; try reflexivity; exact Harr.
Qed.

End Cards.

End RenderFacts.

(* ===================================================================== *)
(** * Which sheet records can be rendered                                  *)
(* ===================================================================== *)

Module CardFacts.
Import JS JSFacts Sheet SheetFacts.
Local Open Scope js_scope.

(** ** The length of a string that is not empty is not zero *)

Lemma of_ratio_positive (a : Z) :
  (0 < a)%Z -> forall neg, of_ratio false a 1 <> S754_zero neg.
Proof.
  intros Ha neg. unfold of_ratio.
  destruct (a =? 0)%Z eqn:E0; [apply Z.eqb_eq in E0; lia|].
  change (Z.log2 1) with 0%Z. rewrite Z.sub_0_r.
  pose proof (Z.log2_spec a Ha) as [Hlo Hhi].
  pose proof (Z.log2_nonneg a) as Hlog.
  assert (He : ratio_ge_pow2 a 1 (Z.log2 a) = true).
  { unfold ratio_ge_pow2. destruct (0 <=? Z.log2 a)%Z eqn:E; [|apply Z.leb_gt in E; lia].
    apply Z.leb_le. lia. }
  rewrite He.
  set (ex := Z.max (Z.log2 a - 52) (-1074)).
  assert (Hex : ex = (Z.log2 a - 52)%Z) by (unfold ex; lia).
  assert (Hq : exists n d, (if (0 <=? ex)%Z then (a, 1 * 2 ^ ex) else (a * 2 ^ (- ex), 1))%Z
                           = (n, d) /\ (0 < d)%Z /\ (1 <= n / d)%Z).
  { destruct (0 <=? ex)%Z eqn:E.
    - apply Z.leb_le in E. exists a, (1 * 2 ^ ex)%Z. split; [reflexivity|].
      assert (0 < 2 ^ ex)%Z by (apply Z.pow_pos_nonneg; lia).
      split; [lia|]. apply Z.div_le_lower_bound; [lia|].
      assert (2 ^ ex <= 2 ^ Z.log2 a)%Z by (apply Z.pow_le_mono_r; lia). lia.
    - apply Z.leb_gt in E. exists (a * 2 ^ (- ex))%Z, 1%Z. split; [reflexivity|].
      split; [lia|]. rewrite Z.div_1_r.
      assert (0 < 2 ^ (- ex))%Z by (apply Z.pow_pos_nonneg; lia). nia. }
  destruct Hq as (n & d & -> & Hd & Hq).
  set (q := (n / d)%Z) in *.
  set (m := match (2 * (n mod d) ?= d)%Z with
            | Lt => q
            | Gt => (q + 1)%Z
            | Eq => if Z.even q then q else (q + 1)%Z
            end).
  assert (Hm : (1 <= m)%Z).
  { unfold m. destruct (2 * (n mod d) ?= d)%Z; [destruct (Z.even q)| |]; lia. }
  clearbody m.
  destruct (m =? 2 ^ 53)%Z eqn:E53.
  - change (2 ^ 52 =? 0)%Z with false. cbn iota.
    destruct (971 <? ex + 1)%Z; discriminate.
  - destruct (m =? 0)%Z eqn:Em; [apply Z.eqb_eq in Em; lia|].
    destruct (971 <? ex)%Z; discriminate.
Qed.

Lemma length_not_zero (s : jsstring) :
  s <> [] ->
  strict_equals (JNum (of_Z (Z.of_nat (length s)))) (JNum (S754_zero false)) = false.
Proof.
  intros Hs. cbn [strict_equals]. unfold number_equals, of_Z.
  assert (Hpos : (0 < Z.of_nat (length s))%Z) by (destruct s; [contradiction|simpl; lia]).
  replace (Z.of_nat (length s) <? 0)%Z with false by (symmetry; apply Z.ltb_ge; lia).
  rewrite Z.abs_eq by lia.
  pose proof (of_ratio_positive _ Hpos) as Hnz.
  destruct (of_ratio false (Z.of_nat (length s)) 1) as [neg|neg| |neg m e];
    [now destruct (Hnz neg) | now destruct neg | reflexivity | now destruct neg].
Qed.

(** ** Values that [is_link] accepts *)

Definition safe (v : jsval) : bool :=
  match v with
  | JStr _ => true
  | _ => negb (truthy v)
  end.

Definition safe_values (o : object) : Prop := Forall (fun p => safe (snd p) = true) o.

Lemma is_link_safe (v : jsval) : safe v = true -> exists b, is_link v = Ok b.
Proof.
  unfold is_link. destruct v; cbn [safe]; intros H; try (apply negb_true_iff in H; rewrite H);
    eauto.
  destruct (truthy (JStr s)); eauto.
Qed.




Lemma obj_set_safe (o : object) (k : jsstring) (v : jsval) :
  safe_values o -> safe v = true -> safe_values (obj_set o k v).
Proof.
  intros Ho Hv. unfold obj_set. destruct (_ && _); [exact Ho|].
  now apply obj_put_Forall.
Qed.

Lemma insert_by_index_In {A} (n : N) (x : A) (l : list (N * A)) (p : N * A) :
  In p (insert_by_index n x l) -> p = (n, x) \/ In p l.
Proof.
  induction l as [|[m y] l IH]; cbn [insert_by_index].
  - intros [<-|[]]. now left.
  - destruct (n <? m)%N.
    + intros [<-|H]; [now left|now right].
    + intros [<-|H]; [right; now left|].
      destruct (IH H) as [->|H']; [now left|right; now right].
Qed.

Lemma indexed_props_In {A} (o : list (jsstring * A)) (p : N * (jsstring * A)) :
  In p (indexed_props o) -> In (snd p) o.
Proof.
  induction o as [|x o IH]; cbn [indexed_props]; [intros []|].
  destruct (array_index (fst x)).
  - intros H. apply insert_by_index_In in H as [->|H]; [now left|right; now apply IH].
  - intros H. right. now apply IH.
Qed.

Lemma enumerate_Forall {A} (P : jsstring * A -> Prop) (o : list (jsstring * A)) :
  Forall P o -> Forall P (enumerate o).
Proof.
  intros Ho. rewrite Forall_forall in Ho. apply Forall_forall. intros x Hx.
  apply list_elem_of_In in Hx. unfold enumerate in Hx.
  apply in_app_iff in Hx as [Hx|Hx].
  - apply in_map_iff in Hx as (p & <- & Hp). apply Ho, list_elem_of_In.
    now apply indexed_props_In.
  - unfold named_props in Hx. apply filter_In in Hx as [Hx _].
    now apply Ho, list_elem_of_In.
Qed.

Lemma spread_safe (v : jsval) : safe v = true -> safe_values (spread v).
Proof.
  destruct v; cbn [safe spread]; intros H; try constructor; try discriminate.
  unfold safe_values. generalize (index_keys (length s)). induction s as [|c s IH].
  - intros keys. destruct keys; constructor.
  - intros [|k keys]; cbn [map combine]; constructor; [reflexivity|apply IH].
Qed.

Lemma rowIndex_has_no_icon (collected : object) :
  wants_social collected (lit "rowIndex") = false.
Proof. reflexivity. Qed.

Section Cards.
Context {U : Host}.

Lemma collect_socials_safe (o : object) : plain o -> safe_values (collect_socials o).
Proof.
  intros Ho. unfold collect_socials.
  assert (Hstart : safe_values (spread (obj_get o (lit "social_media")))).
  { apply spread_safe.
    destruct (plain_get o (lit "social_media") Ho) as [->|[s ->]];
      [discriminate|reflexivity|reflexivity]. }
  revert Hstart. generalize (spread (obj_get o (lit "social_media"))).
  induction (Object_keys o) as [|key keys IH]; intros collected Hc; [exact Hc|].
  cbn [fold_left]. apply IH.
  destruct (wants_social collected key) eqn:Ew; [|exact Hc].
  apply obj_set_safe; [exact Hc|].
  destruct (str_eqb key (lit "rowIndex")) eqn:Ek.
  - apply str_eqb_eq in Ek. subst key. now rewrite rowIndex_has_no_icon in Ew.
  - apply str_eqb_neq in Ek.
    destruct (plain_get o key Ho Ek) as [->|[s ->]]; reflexivity.
Qed.

Lemma renderSocials_plain (o : object) : plain o -> exists k, renderSocials o = Ok k.
Proof.
  intros Ho. unfold renderSocials. apply filter_result_total.
  pose proof (enumerate_Forall _ _ (collect_socials_safe o Ho)) as H.
  eapply Forall_impl; [exact H|]. intros p Hp. now apply is_link_safe.
Qed.

Lemma renderSources_plain (o : object) :
  plain o ->
  renderSources o
  = if truthy (obj_get o (lit "sources")) then Throw TypeError else Ok [].
Proof.
  intros Ho. unfold renderSources.
  destruct (plain_get o (lit "sources") Ho) as [->|[s ->]];
    [discriminate|reflexivity|].
  destruct s as [|c s]; [reflexivity|].
  change (truthy (JStr (c :: s))) with true. cbn [negb].
  change (get_prop (JStr (c :: s)) (lit "length"))
    with (Ok (JNum (of_Z (Z.of_nat (length (c :: s)))))).
  cbv iota beta. now rewrite length_not_zero.
Qed.



(** X14.  Which records of a sheet can be shown.  For the record the
    normalizer builds from any row, [createSalonCard] throws exactly when
    the identifier cannot be computed, or the record has a [sources] field
    that is not empty: a string has no [filter], so the call in
    [renderSources] is a TypeError.  In every other case a card with the
    identifier of the record is built. *)
Theorem sheet_record_renders
        (hs : list jsstring) (index : nat) (row : list jsstring) :
  let salon := normalize_row hs index row in
  match getSalonId salon with
  | Throw e => createSalonCard salon = Throw e
  | Ok id =>
      if truthy (obj_get salon (lit "sources"))
      then createSalonCard salon = Throw TypeError
      else exists c, createSalonCard salon = Ok c /\ card_id c = id
  end.
Proof.
  cbn zeta. pose proof (normalize_row_plain hs index row) as Hp.
  set (salon := normalize_row hs index row) in *. clearbody salon.
  unfold createSalonCard. rewrite (renderSources_plain salon Hp).
  destruct (getSalonId salon) as [id|e]; [|reflexivity].
  destruct (truthy (obj_get salon (lit "sources"))); [reflexivity|].
  destruct (renderSocials_plain salon Hp) as [k ->]. eauto.
Qed.

End Cards.

End CardFacts.

(* ===================================================================== *)
(** * Identifiers                                                          *)
(* ===================================================================== *)

Module IdFacts.
Import JS JSFacts.

(** ** base64 *)

(** The characters of a base64 text. *)
Definition base64_unit (c : N) : bool :=
  (is_alnum c || (c =? 43) || (c =? 47) || (c =? 61))%N.

Ltac n_cases :=
  repeat match goal with
         | H : (_ <? _)%N = true |- _ => apply N.ltb_lt in H
         | H : (_ <? _)%N = false |- _ => apply N.ltb_ge in H
         | H : (_ =? _)%N = true |- _ => apply N.eqb_eq in H
         | H : (_ =? _)%N = false |- _ => apply N.eqb_neq in H
         | H : (_ <=? _)%N = true |- _ => apply N.leb_le in H
         | H : (_ <=? _)%N = false |- _ => apply N.leb_gt in H
         end.

Lemma base64_char_range (n : N) :
  let c := base64_char n in
  ((65 <= c <= 90) \/ (97 <= c <= 122) \/ (48 <= c <= 57) \/ c = 43 \/ c = 47)%N.
Proof.
  cbn zeta. unfold base64_char.
  destruct (n <? 26)%N eqn:E1; [n_cases; lia|].
  destruct (n <? 52)%N eqn:E2; [n_cases; lia|].
  destruct (n <? 62)%N eqn:E3; [n_cases; lia|].
  destruct (n =? 62)%N; lia.
Qed.

Lemma base64_char_unit (n : N) : base64_unit (base64_char n) = true.
Proof.
  pose proof (base64_char_range n) as H. cbn zeta in H.
  unfold base64_unit, is_alnum, is_digit.
  rewrite !orb_true_iff, !andb_true_iff, !N.leb_le, !N.eqb_eq. lia.
Qed.

Lemma base64_char_not_pad (n : N) : base64_char n <> 61%N.
Proof. pose proof (base64_char_range n) as H. cbn zeta in H. lia. Qed.

Lemma base64_char_inj (n m : N) :
  (n < 64)%N -> (m < 64)%N -> base64_char n = base64_char m -> n = m.
Proof.
  intros Hn Hm. unfold base64_char.
  destruct (n <? 26)%N eqn:A1; destruct (m <? 26)%N eqn:B1;
  destruct (n <? 52)%N eqn:A2; destruct (m <? 52)%N eqn:B2;
  destruct (n <? 62)%N eqn:A3; destruct (m <? 62)%N eqn:B3;
  destruct (n =? 62)%N eqn:A4; destruct (m =? 62)%N eqn:B4;
  n_cases; lia.
Qed.

(** Lists, three elements at a time. *)
Lemma by_threes (P : list N -> Prop) :
  P [] -> (forall a, P [a]) -> (forall a b, P [a; b]) ->
  (forall a b c r, P r -> P (a :: b :: c :: r)) ->
  forall l, P l.
Proof.
  intros H0 H1 H2 H3 l.
  assert (H : forall n l, (length l <= n)%nat -> P l).
  { clear l. induction n as [|n IH]; intros l Hl.
    - destruct l; [exact H0|simpl in Hl; lia].
    - destruct l as [|a [|b [|c r]]]; auto.
      apply H3, IH. simpl in Hl. lia. }
  exact (H (length l) l (Nat.le_refl _)).
Qed.

Lemma base64_units (l : list N) : forallb base64_unit (base64 l) = true.
Proof.
  induction l as [|a|a b|a b c r IH] using by_threes.
  - reflexivity.
  - cbn [base64 forallb]. now rewrite !base64_char_unit.
  - cbn [base64 forallb]. now rewrite !base64_char_unit.
  - change (base64 (a :: b :: c :: r))
      with ([base64_char (a / 4); base64_char (a mod 4 * 16 + b / 16);
             base64_char (b mod 16 * 4 + c / 64); base64_char (c mod 64)]%N
            ++ base64 r).
    rewrite forallb_app, IH. cbn [forallb]. now rewrite !base64_char_unit.
Qed.

Lemma base64_length (l : list N) :
  length (base64 l) = (4 * ((length l + 2) / 3))%nat.
Proof.
  induction l as [|a|a b|a b c r IH] using by_threes; try reflexivity.
  change (base64 (a :: b :: c :: r))
    with ([base64_char (a / 4); base64_char (a mod 4 * 16 + b / 16);
           base64_char (b mod 16 * 4 + c / 64); base64_char (c mod 64)]%N
          ++ base64 r).
  rewrite length_app, IH. cbn [length].
  replace (S (S (S (length r))) + 2)%nat with (length r + 2 + 1 * 3)%nat by lia.
  rewrite Nat.div_add by lia. lia.
Qed.

Definition byte (a : N) : Prop := (a <= 255)%N.

Ltac split_byte a d :=
  let q := fresh "q" in let r := fresh "r" in
  pose proof (N.div_mod' a d);
  pose proof (N.mod_lt a d ltac:(lia));
  set (q := (a / d)%N) in *; set (r := (a mod d)%N) in *;
  clearbody q r.

Lemma one_byte_inj (a a' : N) :
  byte a -> byte a' ->
  base64_char (a / 4) = base64_char (a' / 4) ->
  base64_char (a mod 4 * 16) = base64_char (a' mod 4 * 16) ->
  a = a'.
Proof.
  unfold byte. intros Ha Ha' H1 H2.
  split_byte a 4%N. split_byte a' 4%N.
  apply base64_char_inj in H1; [|lia..].
  apply base64_char_inj in H2; [|lia..].
  lia.
Qed.

Lemma two_bytes_inj (a b a' b' : N) :
  byte a -> byte b -> byte a' -> byte b' ->
  base64_char (a / 4) = base64_char (a' / 4) ->
  base64_char (a mod 4 * 16 + b / 16) = base64_char (a' mod 4 * 16 + b' / 16) ->
  base64_char (b mod 16 * 4) = base64_char (b' mod 16 * 4) ->
  a = a' /\ b = b'.
Proof.
  unfold byte. intros Ha Hb Ha' Hb' H1 H2 H3.
  split_byte a 4%N. split_byte a' 4%N. split_byte b 16%N. split_byte b' 16%N.
  apply base64_char_inj in H1; [|lia..].
  apply base64_char_inj in H2; [|lia..].
  apply base64_char_inj in H3; [|lia..].
  lia.
Qed.

Lemma three_bytes_inj (a b c a' b' c' : N) :
  byte a -> byte b -> byte c -> byte a' -> byte b' -> byte c' ->
  base64_char (a / 4) = base64_char (a' / 4) ->
  base64_char (a mod 4 * 16 + b / 16) = base64_char (a' mod 4 * 16 + b' / 16) ->
  base64_char (b mod 16 * 4 + c / 64) = base64_char (b' mod 16 * 4 + c' / 64) ->
  base64_char (c mod 64) = base64_char (c' mod 64) ->
  a = a' /\ b = b' /\ c = c'.
Proof.
  unfold byte. intros Ha Hb Hc Ha' Hb' Hc' H1 H2 H3 H4.
  split_byte a 4%N. split_byte a' 4%N. split_byte b 16%N. split_byte b' 16%N.
  split_byte c 64%N. split_byte c' 64%N.
  apply base64_char_inj in H1; [|lia..].
  apply base64_char_inj in H2; [|lia..].
  apply base64_char_inj in H3; [|lia..].
  apply base64_char_inj in H4; [|lia..].
  lia.
Qed.

Ltac pad_clash H :=
  injection H; intros;
  match goal with
  | E : 61%N = base64_char _ |- _ => symmetry in E; now apply base64_char_not_pad in E
  | E : base64_char _ = 61%N |- _ => now apply base64_char_not_pad in E
  end.

Ltac four_chars l :=
  match l with
  | ?a :: ?b :: ?c :: ?r =>
      change (base64 l)
        with ([base64_char (a / 4); base64_char (a mod 4 * 16 + b / 16);
               base64_char (b mod 16 * 4 + c / 64); base64_char (c mod 64)]%N
              ++ base64 r) in *
  end.

(** Two byte strings with the same base64 text are the same. *)
Lemma base64_inj (l l' : list N) :
  Forall byte l -> Forall byte l' -> base64 l = base64 l' -> l = l'.
Proof.
  revert l'. induction l as [|a|a b|a b c r IH] using by_threes;
    intros l' Hl Hl' H.
  - destruct l' as [|a' [|b' [|c' r']]]; [reflexivity|discriminate..].
  - destruct l' as [|a' [|b' [|c' r']]]; try discriminate.
    + injection H as H1 H2. f_equal.
      apply one_byte_inj; auto; [now inversion Hl|now inversion Hl'].
    + pad_clash H.
    + four_chars (a' :: b' :: c' :: r'). pad_clash H.
  - destruct l' as [|a' [|b' [|c' r']]]; try discriminate.
    + pad_clash H.
    + injection H as H1 H2 H3.
      inversion Hl as [|? ? Ha Hl1]; inversion Hl1 as [|? ? Hb _]; subst.
      inversion Hl' as [|? ? Ha' Hl1']; inversion Hl1' as [|? ? Hb' _]; subst.
      destruct (two_bytes_inj a b a' b' Ha Hb Ha' Hb' H1 H2 H3) as [-> ->].
      reflexivity.
    + four_chars (a' :: b' :: c' :: r'). pad_clash H.
  - four_chars (a :: b :: c :: r).
    destruct l' as [|a' [|b' [|c' r']]]; try discriminate.
    + pad_clash H.
    + pad_clash H.
    + four_chars (a' :: b' :: c' :: r').
      injection H as H1 H2 H3 H4 Hr.
      inversion Hl as [|? ? Ha Hl1]; inversion Hl1 as [|? ? Hb Hl2];
        inversion Hl2 as [|? ? Hc Hl3]; subst.
      inversion Hl' as [|? ? Ha' Hl1']; inversion Hl1' as [|? ? Hb' Hl2'];
        inversion Hl2' as [|? ? Hc' Hl3']; subst.
      destruct (three_bytes_inj a b c a' b' c' Ha Hb Hc Ha' Hb' Hc' H1 H2 H3 H4)
        as (-> & -> & ->).
      f_equal. f_equal. f_equal. now apply IH.
Qed.

(** ** The identifiers of the two variants *)

Lemma getSalonId_inv (o : object) (id : jsstring) :
  Sheet.getSalonId o = Ok id ->
  id = base64 (Pipeline.id_text o) /\ Forall byte (Pipeline.id_text o).
Proof.
  unfold Sheet.getSalonId, btoa. fold (Pipeline.id_text o).
  destruct (forallb _ (Pipeline.id_text o)) eqn:E; [|discriminate].
  intros [= <-]. split; [reflexivity|].
  apply Forall_forall. intros c Hc. apply list_elem_of_In in Hc.
  rewrite forallb_forall in E. apply N.leb_le. now apply E.
Qed.

(** X15.  The identifier of a sheet record names the text of
    [name + address] and nothing else: two records have the same
    identifier exactly when that text is the same, so records that agree
    on it share their buttons and their card.  An identifier holds only
    letters, digits, plus, slash and the equals sign, four characters for
    every three code units of the text; the identifier of the AI variant
    is of the same alphabet. *)
Theorem identifier_names_the_text (a b : object) (ida idb : jsstring) :
  Sheet.getSalonId a = Ok ida ->
  Sheet.getSalonId b = Ok idb ->
  (ida = idb <-> Pipeline.id_text a = Pipeline.id_text b)
  /\ forallb base64_unit ida = true
  /\ length ida = (4 * ((length (Pipeline.id_text a) + 2) / 3))%nat
  /\ (forall business id, Scout.getBusinessId business = Ok id ->
                          forallb base64_unit id = true).
Proof.
  intros Ha Hb.
  destruct (getSalonId_inv a ida Ha) as [-> Hba].
  destruct (getSalonId_inv b idb Hb) as [-> Hbb].
  split; [|split; [apply base64_units|split; [apply base64_length|]]].
  - split; [now apply base64_inj | now intros ->].
  - intros business id. unfold Scout.getBusinessId.
    destruct (get_prop business (lit "name")) as [n|e]; [|discriminate].
    destruct (get_prop business (lit "address")) as [ad|e]; [|discriminate].
    destruct (encodeURIComponent _) as [enc|e]; [|discriminate].
    unfold btoa. destruct (forallb _ enc); [|discriminate].
    intros [= <-]. apply base64_units.
Qed.

(** ** The identifier of the AI variant *)

(** Reading a percent-encoded text back into code units.  It is not part
    of the program; it shows that [encodeURIComponent] loses nothing.
    [skip] counts the characters of an escape still to pass over. *)
Definition hex_val (c : N) : N := (if c <? 58 then c - 48 else c - 55)%N.

Definition byte_at (r : jsstring) (i : nat) : N :=
  (16 * hex_val (nth i r 0) + hex_val (nth (S i) r 0))%N.

Fixpoint decode_units (s : jsstring) (skip : nat) : jsstring :=
  match s with
  | [] => []
  | c :: r =>
      match skip with
      | S k => decode_units r k
      | O =>
          if (c =? 37)%N then
            let b1 := byte_at r 0 in
            if (b1 <? 128)%N then b1 :: decode_units r 2
            else if (b1 <? 224)%N then
              ((b1 - 192) * 64 + (byte_at r 3 - 128))%N :: decode_units r 5
            else if (b1 <? 240)%N then
              ((b1 - 224) * 4096 + (byte_at r 3 - 128) * 64
               + (byte_at r 6 - 128))%N :: decode_units r 8
            else
              let cp := ((b1 - 240) * 262144 + (byte_at r 3 - 128) * 4096
                         + (byte_at r 6 - 128) * 64 + (byte_at r 9 - 128))%N in
              (55296 + (cp - 65536) / 1024)%N
              :: (56320 + (cp - 65536) mod 1024)%N :: decode_units r 11
          else c :: decode_units r 0
      end
  end.

Lemma hex_val_upper (n : N) : (n < 16)%N -> hex_val (hex_upper n) = n.
Proof.
  intros H. unfold hex_val, hex_upper.
  destruct (n <? 10)%N eqn:E.
  - apply N.ltb_lt in E. replace (48 + n <? 58)%N with true; [lia|].
    symmetry. apply N.ltb_lt. lia.
  - apply N.ltb_ge in E. replace (55 + n <? 58)%N with false; [lia|].
    symmetry. apply N.ltb_ge. lia.
Qed.

Lemma byte_of_hex (b : N) :
  (b < 256)%N ->
  (16 * hex_val (hex_upper (b / 16)) + hex_val (hex_upper (b mod 16)))%N = b.
Proof.
  intros H. split_byte b 16%N. rewrite !hex_val_upper by lia. lia.
Qed.

Lemma add_sub_l (a b : N) : (a + b - a)%N = b.
Proof. lia. Qed.

Lemma decode_percent (r : jsstring) :
  decode_units (37%N :: r) 0
  = let b1 := byte_at r 0 in
    if (b1 <? 128)%N then b1 :: decode_units r 2
    else if (b1 <? 224)%N then
      ((b1 - 192) * 64 + (byte_at r 3 - 128))%N :: decode_units r 5
    else if (b1 <? 240)%N then
      ((b1 - 224) * 4096 + (byte_at r 3 - 128) * 64
       + (byte_at r 6 - 128))%N :: decode_units r 8
    else
      let cp := ((b1 - 240) * 262144 + (byte_at r 3 - 128) * 4096
                 + (byte_at r 6 - 128) * 64 + (byte_at r 9 - 128))%N in
      (55296 + (cp - 65536) / 1024)%N
      :: (56320 + (cp - 65536) mod 1024)%N :: decode_units r 11.
Proof. reflexivity. Qed.

Local Ltac read_bytes :=
  cbn [flat_map percent app]; rewrite decode_percent; cbv zeta;
  unfold byte_at; cbn [nth].

Local Ltac decide_lt :=
  repeat match goal with
         | |- context [(?a <? ?b)%N] =>
             first [ replace (a <? b)%N with true by (symmetry; apply N.ltb_lt; lia)
                   | replace (a <? b)%N with false by (symmetry; apply N.ltb_ge; lia) ]
         end.

Lemma decode_one (cp : N) (t : jsstring) :
  (cp < 128)%N ->
  decode_units (percent_encode cp ++ t) 0 = cp :: decode_units t 0.
Proof.
  intros H. unfold percent_encode, utf8. decide_lt.
  read_bytes. rewrite byte_of_hex by lia. decide_lt. reflexivity.
Qed.

Lemma decode_two (cp : N) (t : jsstring) :
  (128 <= cp < 2048)%N ->
  decode_units (percent_encode cp ++ t) 0 = cp :: decode_units t 0.
Proof.
  intros H. unfold percent_encode, utf8. decide_lt.
  split_byte cp 64%N.
  read_bytes. rewrite !byte_of_hex by lia. decide_lt.
  cbn [decode_units]. f_equal. lia.
Qed.

Lemma decode_three (cp : N) (t : jsstring) :
  (2048 <= cp < 65536)%N ->
  decode_units (percent_encode cp ++ t) 0 = cp :: decode_units t 0.
Proof.
  intros H. unfold percent_encode, utf8. decide_lt.
  replace (cp / 4096)%N with (cp / 64 / 64)%N
    by (rewrite N.Div0.div_div; reflexivity).
  split_byte (cp / 64)%N 64%N. split_byte cp 64%N.
  read_bytes. rewrite !byte_of_hex by lia. decide_lt.
  cbn [decode_units]. f_equal. lia.
Qed.

Lemma pair_code_point (c d : N) :
  (55296 <= c <= 56319)%N -> (56320 <= d <= 57343)%N ->
  let cp := (65536 + (c - 55296) * 1024 + (d - 56320))%N in
  (55296 + (cp - 65536) / 1024)%N = c /\ (56320 + (cp - 65536) mod 1024)%N = d.
Proof.
  intros Hc Hd cp. unfold cp.
  replace (65536 + (c - 55296) * 1024 + (d - 56320) - 65536)%N
    with ((d - 56320) + (c - 55296) * 1024)%N by lia.
  rewrite N.div_add by discriminate. rewrite N.Div0.mod_add.
  rewrite N.div_small by lia. rewrite N.mod_small by lia. lia.
Qed.

Lemma decode_four (c d : N) (t : jsstring) :
  (55296 <= c <= 56319)%N -> (56320 <= d <= 57343)%N ->
  decode_units
    (percent_encode (65536 + (c - 55296) * 1024 + (d - 56320)) ++ t) 0
  = c :: d :: decode_units t 0.
Proof.
  intros Hc Hd.
  destruct (pair_code_point c d Hc Hd) as [Hhigh Hlow]. cbv zeta in Hhigh, Hlow.
  set (cp := (65536 + (c - 55296) * 1024 + (d - 56320))%N) in *.
  assert (H : (65536 <= cp < 1114112)%N) by (unfold cp; lia).
  clearbody cp.
  rewrite <- Hhigh, <- Hlow. clear Hhigh Hlow Hc Hd.
  unfold percent_encode, utf8. decide_lt.
  replace (cp / 262144)%N with (cp / 64 / 64 / 64)%N
    by (rewrite !N.Div0.div_div; reflexivity).
  replace (cp / 4096)%N with (cp / 64 / 64)%N
    by (rewrite N.Div0.div_div; reflexivity).
  split_byte (cp / 64 / 64)%N 64%N. split_byte (cp / 64)%N 64%N.
  split_byte cp 64%N.
  read_bytes. rewrite !byte_of_hex by lia. decide_lt.
  cbn [decode_units]. rewrite !(add_sub_l 128), (add_sub_l 240).
  match goal with
  | |- (_ + (?x - _) / _)%N :: _ = _ => replace x with cp by lia
  end.
  reflexivity.
Qed.

Lemma unreserved_not_percent (c : N) : uri_unreserved c = true -> (c =? 37)%N = false.
Proof.
  intros H. apply N.eqb_neq. intros ->. discriminate H.
Qed.

(** Decoding gives the encoded text back. *)
Lemma decode_encode_units (n : nat) (s e : jsstring) :
  (length s <= n)%nat ->
  Pipeline.code_units s = true ->
  encode_units s = Ok e ->
  decode_units e 0 = s.
Proof.
  revert s e. induction n as [|n IH]; intros s e Hlen Hs He.
  { destruct s; [|simpl in Hlen; lia]. cbn in He. now injection He as <-. }
  destruct s as [|c r]; [cbn in He; now injection He as <-|].
  cbn [Pipeline.code_units forallb] in Hs. apply andb_true_iff in Hs as [Hc Hr].
  fold (Pipeline.code_units r) in Hr. apply N.ltb_lt in Hc.
  cbn [length] in Hlen. cbn [encode_units] in He.
  destruct (uri_unreserved c) eqn:Eu.
  - destruct (encode_units r) as [t|] eqn:Er; [|discriminate].
    injection He as <-. cbn [decode_units].
    rewrite (unreserved_not_percent c Eu). f_equal.
    apply (IH r t); [lia|exact Hr|exact Er].
  - destruct (is_low_surrogate c) eqn:El; [discriminate|].
    destruct (is_high_surrogate c) eqn:Eh.
    + destruct r as [|d r']; [discriminate|].
      destruct (is_low_surrogate d) eqn:Ed; [|discriminate].
      destruct (encode_units r') as [t|] eqn:Er; [|discriminate].
      injection He as <-.
      cbn [Pipeline.code_units forallb] in Hr. apply andb_true_iff in Hr as [_ Hr'].
      cbn [length] in Hlen.
      unfold is_high_surrogate, is_low_surrogate in Eh, Ed.
      rewrite andb_true_iff, !N.leb_le in Eh, Ed.
      rewrite decode_four by lia. do 2 f_equal.
      apply (IH r' t); [lia|exact Hr'|exact Er].
    + destruct (encode_units r) as [t|] eqn:Er; [|discriminate].
      injection He as <-.
      assert (Hrest : decode_units t 0 = r) by (apply (IH r t); [lia|exact Hr|exact Er]).
      destruct (N.lt_ge_cases c 128) as [H1|H1];
        [rewrite decode_one by lia; now rewrite Hrest|].
      destruct (N.lt_ge_cases c 2048) as [H2|H2];
        [rewrite decode_two by lia; now rewrite Hrest|].
      rewrite decode_three by lia. now rewrite Hrest.
Qed.

Lemma getBusinessId_inv (o : object) (id : jsstring) :
  Scout.getBusinessId (JObj o) = Ok id ->
  exists e, encode_units (Pipeline.id_text o) = Ok e
            /\ id = base64 e /\ Forall byte e.
Proof.
  rewrite Pipeline.getBusinessId_text.
  destruct (encode_units (Pipeline.id_text o)) as [e|] eqn:E; [|discriminate].
  unfold btoa. destruct (forallb _ e) eqn:Eb; [|discriminate].
  intros [= <-]. exists e. split; [reflexivity|]. split; [reflexivity|].
  apply Forall_forall. intros c Hc. apply list_elem_of_In in Hc.
  rewrite forallb_forall in Eb. apply N.leb_le. now apply Eb.
Qed.

(** X16.  The identifier of a lead names the text of [name + address]:
    two leads whose texts are strings of 16-bit code units have the same
    identifier exactly when the texts are the same, and the text can be
    read back from the percent-encoding the identifier is the base64 text
    of. *)
Theorem lead_identifier_names_the_text (a b : object) (ida idb : jsstring) :
  Pipeline.code_units (Pipeline.id_text a) = true ->
  Pipeline.code_units (Pipeline.id_text b) = true ->
  Scout.getBusinessId (JObj a) = Ok ida ->
  Scout.getBusinessId (JObj b) = Ok idb ->
  (ida = idb <-> Pipeline.id_text a = Pipeline.id_text b)
  /\ exists encoded,
       encodeURIComponent (JStr (Pipeline.id_text a)) = Ok encoded
       /\ ida = base64 encoded
       /\ decode_units encoded 0 = Pipeline.id_text a.
Proof.
  intros Ha Hb Hida Hidb.
  destruct (getBusinessId_inv a ida Hida) as (ea & Hea & -> & Hba).
  destruct (getBusinessId_inv b idb Hidb) as (eb & Heb & -> & Hbb).
  pose proof (decode_encode_units _ _ _ (Nat.le_refl _) Ha Hea) as Hda.
  pose proof (decode_encode_units _ _ _ (Nat.le_refl _) Hb Heb) as Hdb.
  split.
  - split.
    + intros H. apply base64_inj in H; [|assumption..].
      rewrite <- Hda, <- Hdb. now rewrite H.
    + intros H. rewrite H in Hea. rewrite Hea in Heb. now injection Heb as ->.
  - exists ea. repeat split; assumption.
Qed.

End IdFacts.

(* ===================================================================== *)
(** * Escaping                                                             *)
(* ===================================================================== *)

Module EscapeFacts.
Import JS JSFacts Scout.

(** Reading an escaped text back: each of the five entities stands for
    its character.  It is not part of the program; it shows that escaping
    loses nothing.  [skip] counts the characters of an entity still to
    pass over. *)
Fixpoint unescapeHTML (s : jsstring) (skip : nat) : jsstring :=
  match s with
  | [] => []
  | c :: r =>
      match skip with
      | S k => unescapeHTML r k
      | O =>
          if (c =? 38)%N then
            if startsWith r (lit "amp;") then 38%N :: unescapeHTML r 4
            else if startsWith r (lit "lt;") then 60%N :: unescapeHTML r 3
            else if startsWith r (lit "gt;") then 62%N :: unescapeHTML r 3
            else if startsWith r (lit "quot;") then 34%N :: unescapeHTML r 5
            else if startsWith r (lit "#39;") then 39%N :: unescapeHTML r 4
            else c :: unescapeHTML r 0
          else c :: unescapeHTML r 0
      end
  end.

Lemma startsWith_nil (s : jsstring) : startsWith s [] = true.
Proof. now destruct s. Qed.

Ltac unfold_literals :=
  repeat match goal with
         | |- context [lit ?s] =>
             let v := eval vm_compute in (lit s) in change (lit s) with v
         end.

Lemma unescape_escape_char (c : N) (t : jsstring) :
  unescapeHTML (escape_char c ++ t) 0 = c :: unescapeHTML t 0.
Proof.
  unfold escape_char. unfold_literals.
  destruct (c =? 38)%N eqn:E1.
  { apply N.eqb_eq in E1. subst c. cbn. unfold_literals. cbn.
    now rewrite ?startsWith_nil. }
  destruct (c =? 60)%N eqn:E2.
  { apply N.eqb_eq in E2. subst c. cbn. unfold_literals. cbn.
    now rewrite ?startsWith_nil. }
  destruct (c =? 62)%N eqn:E3.
  { apply N.eqb_eq in E3. subst c. cbn. unfold_literals. cbn.
    now rewrite ?startsWith_nil. }
  destruct (c =? 34)%N eqn:E4.
  { apply N.eqb_eq in E4. subst c. cbn. unfold_literals. cbn.
    now rewrite ?startsWith_nil. }
  destruct (c =? 39)%N eqn:E5.
  { apply N.eqb_eq in E5. subst c. cbn. unfold_literals. cbn.
    now rewrite ?startsWith_nil. }
  cbn [app unescapeHTML]. now rewrite E1.
Qed.

Lemma unescape_escapeHTML (s : jsstring) :
  unescapeHTML (escapeHTML (JStr s)) 0 = s.
Proof.
  cbn [escapeHTML]. induction s as [|c s IH]; [reflexivity|].
  cbn [flat_map]. now rewrite unescape_escape_char, IH.
Qed.

(** The characters [escapeHTML] replaces. *)
Definition special (c : N) : bool :=
  ((c =? 38) || (c =? 60) || (c =? 62) || (c =? 34) || (c =? 39))%N.

(** X17.  [escapeHTML] loses nothing of a string: two strings with the
    same escaped text are the same string.  A string without ampersand,
    angle bracket, quotation mark or apostrophe is its own escaped text,
    and escaping never shortens a string. *)
Theorem escapeHTML_loses_nothing (s t : jsstring) :
  (escapeHTML (JStr s) = escapeHTML (JStr t) -> s = t)
  /\ (forallb (fun c => negb (special c)) s = true -> escapeHTML (JStr s) = s)
  /\ (length s <= length (escapeHTML (JStr s)))%nat.
Proof.
  split; [|split].
  - intros H. rewrite <- (unescape_escapeHTML s), <- (unescape_escapeHTML t).
    now rewrite H.
  - cbn [escapeHTML]. induction s as [|c s IH]; [reflexivity|].
    cbn [forallb flat_map]. intros H. apply andb_true_iff in H as [Hc Hs].
    rewrite (IH Hs). unfold special in Hc. apply negb_true_iff in Hc.
    rewrite !orb_false_iff in Hc. destruct Hc as ((((H1 & H2) & H3) & H4) & H5).
    unfold escape_char. now rewrite H1, H2, H3, H4, H5.
  - cbn [escapeHTML]. induction s as [|c s IH]; [reflexivity|].
    cbn [flat_map length]. rewrite length_app.
    assert (1 <= length (escape_char c))%nat.
    { unfold escape_char.
      destruct (c =? 38)%N, (c =? 60)%N, (c =? 62)%N, (c =? 34)%N, (c =? 39)%N;
        unfold_literals; cbn; lia. }
    lia.
Qed.

(** The characters that open or close markup or an attribute value. *)
Definition markup (c : N) : bool :=
  ((c =? 60) || (c =? 62) || (c =? 34) || (c =? 39))%N.

(** The text begins with the rest of one of the five entities. *)
Definition entity (post : jsstring) : bool :=
  startsWith post (lit "amp;") || startsWith post (lit "lt;")
  || startsWith post (lit "gt;") || startsWith post (lit "quot;")
  || startsWith post (lit "#39;").

Lemma ampersand_in_app (l1 l2 pre post : jsstring) :
  l1 ++ l2 = pre ++ 38%N :: post -> ~ In 38%N l1 ->
  exists pre', pre = l1 ++ pre' /\ l2 = pre' ++ 38%N :: post.
Proof.
  revert pre. induction l1 as [|a l1 IH]; intros pre H Hno.
  - now exists pre.
  - destruct pre as [|p pre].
    + injection H as -> _. exfalso. apply Hno. now left.
    + injection H as -> H.
      destruct (IH pre H) as (pre' & -> & Hl2); [intros Hin; apply Hno; now right|].
      now exists pre'.
Qed.

(** What [escapeHTML] puts for one character: the character itself when
    it is none of the five, an entity otherwise. *)
Lemma escape_char_shape (c : N) :
  (special c = false /\ escape_char c = [c])
  \/ (exists name, escape_char c = 38%N :: name
                   /\ ~ In 38%N name
                   /\ forallb (fun x => negb (markup x)) name = true
                   /\ forall rest, entity (name ++ rest) = true).
Proof.
  unfold escape_char, special.
  destruct (c =? 38)%N eqn:E1;
    [|destruct (c =? 60)%N eqn:E2;
      [|destruct (c =? 62)%N eqn:E3;
        [|destruct (c =? 34)%N eqn:E4;
          [|destruct (c =? 39)%N eqn:E5; [|now left]]]]];
    right; unfold_literals;
    (eexists; split; [reflexivity|]; split;
     [cbn; intros H; repeat (destruct H as [H|H]; [discriminate H|]); exact H
     |split; [reflexivity|]]);
    intros rest; unfold entity; unfold_literals; cbn;
    now rewrite ?startsWith_nil.
Qed.

(** X18.  The escaped text of a string holds no angle bracket, quotation
    mark or apostrophe, and each ampersand in it begins one of the five
    entities.  Only strings are escaped: an array that holds one string
    comes back as that string, character for character. *)
Theorem escapeHTML_escapes_strings_only (s : jsstring) :
  forallb (fun c => negb (markup c)) (escapeHTML (JStr s)) = true
  /\ (forall pre post,
        escapeHTML (JStr s) = pre ++ 38%N :: post -> entity post = true)
  /\ escapeHTML (JArr [JStr s]) = s.
Proof.
  split; [|split].
  - cbn [escapeHTML]. induction s as [|c s IH]; [reflexivity|].
    cbn [flat_map]. rewrite forallb_app, IH, andb_true_r.
    destruct (escape_char_shape c) as [[Hc ->]|(name & -> & _ & Hname & _)].
    + cbn [forallb]. rewrite andb_true_r. unfold special in Hc. unfold markup.
      rewrite !orb_false_iff in Hc. destruct Hc as ((((_ & H2) & H3) & H4) & H5).
      now rewrite H2, H3, H4, H5.
    + cbn [forallb]. now rewrite Hname.
  - cbn [escapeHTML]. induction s as [|c s IH]; intros pre post H.
    + now destruct pre.
    + cbn [flat_map] in H.
      destruct (escape_char_shape c) as [[Hc Hcs]|(name & Hcs & Hno & _ & Hent)];
        rewrite Hcs in H.
      * destruct (ampersand_in_app [c] _ pre post H) as (pre' & _ & Hs).
        { intros [->|[]]. discriminate Hc. }
        exact (IH pre' post Hs).
      * destruct pre as [|p pre].
        { injection H as <-. apply Hent. }
        injection H as _ H.
        destruct (ampersand_in_app name _ pre post H Hno) as (pre' & _ & Hs).
        exact (IH pre' post Hs).
  - cbn. now rewrite app_nil_r || reflexivity.
Qed.

End EscapeFacts.

(* ===================================================================== *)
(** * Saving the leads                                                     *)
(* ===================================================================== *)

Module SaveFacts.
Import JS JSFacts Scout ScoutFacts Desk.
Local Open Scope js_scope.

(** ** Splitting at a character *)







(** ** The rows [saveToSheets] sends *)

Section Saving.
Context {U : Host}.





(** A cell that holds neither a comma nor a line feed. *)
Definition whole (cell : jsstring) : Prop := ~ In 44%N cell /\ ~ In 10%N cell.





(** ** The buttons and the status line *)

Local Arguments convertToCsv : simpl never.
Local Arguments multipartRequestBody : simpl never.

Local Ltac settle :=
  eexists; repeat split; try reflexivity; eauto; try discriminate;
  try (let H := fresh in
       intros H;
       first [ discriminate H
             | destruct H as ([? H] & _); discriminate H
             | destruct H as (_ & [? H] & _); discriminate H
             | destruct H as (_ & _ & H); discriminate H ]).

(** X21.  With leads to save, [saveToSheets] never throws and always
    gives its button back: whatever the two requests and the conversion
    do, the button ends enabled and without its loading class, the other
    button is untouched, exactly one status message is shown, and it is
    the success message exactly when the sheet was created, the export
    text was built and the values were written. *)
Theorem saveToSheets_always_reports
        (now : jsstring) (create : result created) (update : result unit) (d : desk) :
  currentBusinesses (view d) <> [] ->
  exists d',
    saveToSheets now create update d = (d', Ok tt)
    /\ saveToSheetsButton d' = setButtonLoadingState false
    /\ saveToDriveButton d' = saveToDriveButton d
    /\ status_timers d' = S (status_timers d)
    /\ (statusMessage_class d' = Some success \/ statusMessage_class d' = Some error)
    /\ (statusMessage_class d' = Some success <->
        (exists sheet, create = Ok sheet)
        /\ (exists csv, convertToCsv (currentBusinesses (view d)) = Ok csv)
        /\ update = Ok tt).
Proof.
  intros Hdata.
  unfold saveToSheets, saveToSheets_click, saveToSheets_created,
    saveToSheets_updated, saveToSheets_failed, saveToSheets_finally,
    showStatus, finally, try_catch, bind, get, modify, lift, ret, throw.
  destruct (currentBusinesses (view d)) as [|b bs] eqn:Eb; [contradiction|].
  destruct create as [sheet|e]; cbn; rewrite ?Eb.
  - destruct (convertToCsv (b :: bs)) as [csv|e] eqn:Ec; cbn;
      [destruct update as [[]|e]; cbn|]; settle.
  - settle.
Qed.

(** X22.  With leads to save, [saveToDrive] builds the export text
    before its [try]: when the conversion throws, the exception leaves [saveToDrive] with the
    button still disabled and loading, no request sent and no message
    shown.  When the conversion succeeds the upload is sent with the text
    in its body, the button is given back, and the success message shows
    exactly when the upload succeeded. *)
Theorem saveToDrive_conversion_failure_locks_button
        (now : jsstring) (upload : result unit) (d : desk) :
  currentBusinesses (view d) <> [] ->
  match convertToCsv (currentBusinesses (view d)) with
  | Throw e =>
      saveToDrive now upload d
      = (set_saveToDriveButton (setButtonLoadingState true) d, Throw e)
  | Ok csvContent =>
      exists d' rest,
        saveToDrive now upload d = (d', Ok tt)
        /\ saveToDriveButton d' = setButtonLoadingState false
        /\ requests d'
           = requests d
             ++ DriveUpload (multipartRequestBody
                               (lit "scout-ai-leads-" ++ now ++ lit ".csv") csvContent)
             :: rest
        /\ (statusMessage_class d' = Some success <-> upload = Ok tt)
  end.
Proof.
  intros Hdata.
  unfold saveToDrive, saveToDrive_click, saveToDrive_settled, showStatus,
    finally, try_catch, bind, get, modify, lift, ret, throw.
  destruct (currentBusinesses (view d)) as [|b bs] eqn:Eb; [contradiction|].
  cbn. rewrite ?Eb.
  destruct (convertToCsv (b :: bs)) as [csv|e] eqn:Ec; cbn; [|reflexivity].
  destruct upload as [[]|e]; cbn; eexists; eexists; repeat split;
    try reflexivity; try discriminate; cbn; rewrite <- ?app_assoc; reflexivity.
Qed.

(** X23.  Only the two save functions look whether there is anything to
    save.  With no leads they send nothing and say so, and their buttons
    are left alone; [exportToCsv] still offers a download, of an empty
    file, and reports success. *)
Theorem empty_export_is_still_downloaded
        (now : jsstring) (create : result created) (update upload : result unit)
        (d : desk) :
  currentBusinesses (view d) = [] ->
  let refused :=
    set_status (lit "No data to save.") (Some error) (S (status_timers d)) d in
  saveToSheets now create update d = (refused, Ok tt)
  /\ saveToDrive now upload d = (refused, Ok tt)
  /\ exportToCsv d
     = (set_status (lit "CSV file downloaded.") (Some success) (S (status_timers d))
          (send (Download (lit "scout-ai-leads.csv") []) d),
        Ok tt).
Proof.
  intros Hdata refused. unfold refused.
  unfold saveToSheets, saveToSheets_click, saveToDrive, saveToDrive_click,
    exportToCsv, showStatus, bind, get, modify, lift, ret.
  now rewrite Hdata.
Qed.

End Saving.

End SaveFacts.

(* ===================================================================== *)
(** * Rendering the leads                                                  *)
(* ===================================================================== *)

Module LeadFacts.
Import JS JSFacts Scout ScoutFacts.
Local Open Scope js_scope.




Lemma set_resultsContainer_twice (c c' : content) (s : state) :
  set_resultsContainer c (set_resultsContainer c' s) = set_resultsContainer c s.
Proof. reflexivity. Qed.


Lemma map_result_all {A B} (f : A -> result B) (l : list A) :
  (forall x, In x l -> exists y, f x = Ok y) -> exists ys, map_result f l = Ok ys.
Proof.
  induction l as [|a l IH]; intros H; [now exists []|].
  destruct (H a (or_introl eq_refl)) as [y Hy].
  destruct IH as [ys Hys]; [intros x Hx; apply H; now right|].
  exists (y :: ys). cbn [map_result]. now rewrite Hy, Hys.
Qed.

Section Leads.
Context {U : Host}.


(** *** The markers *)








End Leads.

End LeadFacts.

(* ===================================================================== *)
(** * Sorting                                                              *)
(* ===================================================================== *)

Module SortFacts.
Import JS JSFacts Sheet SheetFacts.
Local Open Scope js_scope.

Lemma insert_end {A} (l : list A) (x y : A) :
  <[length l := x]> (l ++ [y]) = l ++ [x].
Proof.
  rewrite insert_app_r_alt by reflexivity. now rewrite Nat.sub_diag.
Qed.

Section Sorting.
Context {U : Host}.

(** X25.  [sortSalons] sorts a copy.  The answer is a new array that
    holds the records of the given one, each as often as there, and
    nothing else of the state changes: the given array keeps its order,
    and so does every other array. *)
Theorem sortSalons_sorts_a_copy
        (salons : loc) (key : jsstring) (direction : direction) (st : state) :
  exists sorted : list loc,
    sortSalons salons key direction st
    = (set_arrays (fun ars => ars ++ [sorted]) st, Ok (length (arrays st)))
    /\ sorted ≡ₚ default [] (arrays st !! salons)
    /\ forall a, a <> length (arrays st) ->
                 (arrays st ++ [sorted]) !! a = arrays st !! a.
Proof.
  set (elems := default [] (arrays st !! salons)).
  set (field := fun l : loc => default [] (objects st !! l)).
  exists (Array_sort (fun a b => compare_salons key (sign direction) (field a) (field b))
                     elems).
  split; [|split].
  - unfold sortSalons, read_array, new_array, write_array, bind, get, modify, ret.
    cbn [arrays set_arrays objects]. fold elems.
    rewrite list_lookup_middle by reflexivity. cbn [default].
    f_equal. unfold set_arrays. cbn [arrays objects currentSalons headers
      currentSpreadsheetId dataPollingInterval lastDataState isEditing
      currentSortKey currentSortDirection page trace].
    now rewrite insert_end.
  - apply Array_sort_perm.
  - intros a Ha. destruct (Nat.lt_ge_cases a (length (arrays st))) as [Hlt|Hge].
    + now apply lookup_app_l.
    + rewrite (lookup_ge_None_2 (arrays st)) by exact Hge.
      apply lookup_ge_None_2. rewrite length_app. cbn [length]. lia.
Qed.

End Sorting.

End SortFacts.

(* ===================================================================== *)
(** * Error messages                                                       *)
(* ===================================================================== *)

Module ErrorFacts.
Import JS JSFacts Sheet SheetFacts.

Section Messages.
Context {U : Host}.

(** X26.  [parseGapiError] always has something to say: its message is
    never empty.  For the three statuses it knows, the message is fixed by
    the status and the text the server sent is not used; for any other
    failure of a request the text of the server is the message whenever
    it is not empty. *)
Theorem parseGapiError_message (err : exn) :
  parseGapiError err <> []
  /\ (forall err', classify err <> Unknown -> classify err' = classify err ->
                   parseGapiError err' = parseGapiError err)
  /\ (forall error c m,
        err = RequestFailed (Some error) -> classify err = Unknown ->
        error_message error = Some (c :: m) -> parseGapiError err = c :: m).
Proof.
  split; [|split].
  - unfold parseGapiError.
    destruct err as [| | | |[[status message]|]]; try (apply lit_cons; discriminate).
    cbn [error_status error_message].
    assert (Hfallback :
              match message with
              | Some (c :: m) => c :: m
              | _ => lit "An unknown error occurred while communicating with Google Sheets."
              end <> []).
    { destruct message as [[|c m]|]; try discriminate; apply lit_cons; discriminate. }
    destruct status as [status|]; [|exact Hfallback].
    repeat (match goal with |- context [if ?b then _ else _] => destruct b end;
            [apply lit_cons; discriminate|]).
    exact Hfallback.
  - intros err' Hknown Hsame. unfold classify, error_status_of in *.
    unfold parseGapiError.
    destruct err as [| | | |[[status message]|]]; try contradiction.
    cbn [error_status error_message] in *.
    destruct status as [status|]; [|contradiction].
    destruct err' as [| | | |[[status' message']|]];
      try (destruct (str_eqb status (lit "NOT_FOUND"));
           [discriminate Hsame|];
           destruct (str_eqb status (lit "PERMISSION_DENIED"));
           [discriminate Hsame|];
           destruct (str_eqb status (lit "RESOURCE_EXHAUSTED"));
           [discriminate Hsame|contradiction]).
    cbn [error_status error_message] in *.
    destruct status' as [status'|];
      [|destruct (str_eqb status (lit "NOT_FOUND"));
        [discriminate Hsame|];
        destruct (str_eqb status (lit "PERMISSION_DENIED"));
        [discriminate Hsame|];
        destruct (str_eqb status (lit "RESOURCE_EXHAUSTED"));
        [discriminate Hsame|contradiction]].
    destruct (str_eqb status (lit "NOT_FOUND")),
             (str_eqb status (lit "PERMISSION_DENIED")),
             (str_eqb status (lit "RESOURCE_EXHAUSTED")),
             (str_eqb status' (lit "NOT_FOUND")),
             (str_eqb status' (lit "PERMISSION_DENIED")),
             (str_eqb status' (lit "RESOURCE_EXHAUSTED"));
      try reflexivity; try discriminate Hsame; contradiction.
  - intros error c m -> Hclass Hm. unfold classify, error_status_of in Hclass.
    unfold parseGapiError. rewrite Hm.
    destruct (error_status error) as [status|]; [|reflexivity].
    destruct (str_eqb status (lit "NOT_FOUND")); [discriminate Hclass|].
    destruct (str_eqb status (lit "PERMISSION_DENIED")); [discriminate Hclass|].
    destruct (str_eqb status (lit "RESOURCE_EXHAUSTED")); [discriminate Hclass|].
    reflexivity.
Qed.

End Messages.

End ErrorFacts.

(* ===================================================================== *)
(** * The properties at work                                               *)
(* ===================================================================== *)

Module Cases.
Import JS JSFacts Sheet SheetFacts Example Sample.

Lemma sheet_1_chosen : lit "sheet-1" <> [].
Proof. discriminate. Qed.


Lemma getSpreadsheetIdFromUrl_extracts_witness :
  Session.getSpreadsheetIdFromUrl
    (lit "https://docs.google.com" ++ lit "/spreadsheets/d/" ++ lit "abc-123_X"
     ++ lit "/edit#gid=0")
  = lit "abc-123_X".
Proof.
  apply (SessionFacts.getSpreadsheetIdFromUrl_extracts
           (lit "https://docs.google.com") (lit "abc-123_X") (lit "/edit#gid=0")).
  - vm_compute. reflexivity.
  - discriminate.
  - vm_compute. reflexivity.
  - vm_compute. reflexivity.
Defined.

Lemma loadData_without_rows_witness :
  resultsContainer
    (page (fst (loadData (Fetched (Some [acme_headers])) (session false true))))
  = ErrorBox (lit "No data found in the sheet, or sheet is missing a header row.").
Proof.
  assert (Hlen : (length (default [] (Some [acme_headers])) < 2)%nat) by (simpl; lia).
  exact (proj1 (proj2 (LoadFacts.loadData_without_rows
                         (session false true) (lit "sheet-1") (Some [acme_headers])
                         eq_refl eq_refl sheet_1_chosen Hlen))).
Defined.

Lemma failed_render_is_not_retried_witness :
  let st1 := fst (loadData (Fetched (Some sourced_sheet)) (session false true)) in
  let st2 := fst (loadData (Fetched (Some sourced_sheet)) st1) in
  resultsContainer (page st2)
  = ErrorBox (lit "An unexpected error occurred. Please check the console for more details.")
  /\ arrays st2 = arrays st1.
Proof.
  assert (Hlen : (2 <= length sourced_sheet)%nat) by (simpl; lia).
  assert (Hbox : resultsContainer
                   (page (fst (loadData (Fetched (Some sourced_sheet))
                                        (session false true))))
                 = ErrorBox (lit "An unexpected error occurred. Please check the console for more details."))
    by (vm_compute; reflexivity).
  destruct (LoadFacts.failed_render_is_not_retried
              (session false true) (lit "sheet-1") sourced_sheet _
              eq_refl eq_refl sheet_1_chosen Hlen Hbox) as (_ & Hsame & _ & Harr & _).
  split; [exact Hsame | exact Harr].
Defined.

Lemma poll_skips_only_identical_rows_witness :
  let st1 := loaded true acme in
  let st2 := fst (loadData (Fetched (Some acme_favorited)) st1) in
  objects st2 = objects st1 <-> acme_favorited = acme.
Proof.
  assert (Hlen : (2 <= length acme)%nat) by (simpl; lia).
  assert (Hlen' : (2 <= length acme_favorited)%nat) by (simpl; lia).
  exact (proj2 (proj2 (LoadFacts.poll_skips_only_identical_rows
                         (session false true) (lit "sheet-1") acme acme_favorited
                         eq_refl eq_refl sheet_1_chosen Hlen Hlen'))).
Defined.

Lemma normalizer_record_fields_witness :
  exists salon,
    normalize_rows acme_headers (tail acme) !! 0%nat = Some salon
    /\ obj_get salon (lit "rowIndex") = JNum (of_Z 2).
Proof.
  destruct (LoadFacts.normalizer_record_fields
              acme_headers (tail acme) 0 [lit "Acme"; lit "1 Main St"; lit "FALSE"]
              eq_refl) as (salon & Hsalon & Hrow & _).
  exists salon. split; [exact Hsalon | exact Hrow].
Defined.

Lemma toggle_needs_rowIndex_witness :
  toggleFavorite 0 (session false true)
  = (emit (Alert (lit "You can only favorite items that are loaded from a Google Sheet."))
          (session false true),
     Ok None).
Proof.
  apply (FavouriteFacts.toggle_needs_rowIndex (session false true) 0).
  vm_compute. reflexivity.
Defined.

Lemma toggle_without_column_reverts_witness :
  let st := loaded true plain_sheet in
  let st' := fst (toggleFavorite 0 st) in
  snd (toggleFavorite 0 st) = Ok None
  /\ forall k, obj_get (default [] (objects st' !! 0%nat)) k
               = obj_get (default [] (objects st !! 0%nat)) k.
Proof.
  assert (Ho : objects (loaded true plain_sheet) !! 0%nat
               = Some (default [] (objects (loaded true plain_sheet) !! 0%nat)))
    by (vm_compute; reflexivity).
  assert (Hrow : strict_equals
                   (obj_get (default [] (objects (loaded true plain_sheet) !! 0%nat))
                            (lit "rowIndex")) JUndefined = false)
    by (vm_compute; reflexivity).
  assert (Hid : getSalonId (default [] (objects (loaded true plain_sheet) !! 0%nat))
                = Ok (lit "QWNtZTEgTWFpbiBTdA=="))
    by (vm_compute; reflexivity).
  assert (Hcol : find_index (fun h => str_eqb (toLowerCase h) (lit "favorite"))
                            (headers (loaded true plain_sheet)) = None)
    by (vm_compute; reflexivity).
  destruct (FavouriteFacts.toggle_without_column_reverts _ _ _ _ Ho Hrow Hid Hcol)
    as (Hres & Hfields & _).
  split; [exact Hres | exact Hfields].
Defined.

Lemma toggle_flips_at_once_witness :
  let st := loaded true acme in
  let st' := fst (toggleFavorite 0 st) in
  isFavorited (default [] (objects st' !! 0%nat)) = true
  /\ trace st'
     = trace st ++ [ValuesUpdate (Some (lit "sheet-1")) (lit "Sheet1!C2")
                                 [[JStr (lit "TRUE")]]].
Proof.
  assert (Ho : objects (loaded true acme) !! 0%nat = Some acme_record)
    by (vm_compute; reflexivity).
  assert (Hrow : strict_equals (obj_get acme_record (lit "rowIndex")) JUndefined = false)
    by (vm_compute; reflexivity).
  assert (Hid : getSalonId acme_record = Ok (lit "QWNtZTEgTWFpbiBTdA=="))
    by (vm_compute; reflexivity).
  assert (Hcol : find_index (fun h => str_eqb (toLowerCase h) (lit "favorite"))
                            (headers (loaded true acme)) = Some 2%nat)
    by (vm_compute; reflexivity).
  destruct (FavouriteFacts.toggle_flips_at_once _ _ _ _ _ Ho Hrow Hid Hcol)
    as (Hfav & _ & _ & _ & _ & _ & _ & Htrace).
  split; [exact Hfav|]. rewrite Htrace. vm_compute. reflexivity.
Defined.

Lemma write_success_updates_current_record_witness :
  let st := fst (toggleFavorite 0 (loaded true acme)) in
  snd (favoriteWritten 0 st) = Ok tt
  /\ obj_get (default [] (objects (fst (favoriteWritten 0 st)) !! 0%nat)) (lit "favorite")
     = JStr (lit "TRUE").
Proof.
  set (st := fst (toggleFavorite 0 (loaded true acme))).
  set (o := default [] (objects st !! 0%nat)).
  assert (Ho : objects st !! 0%nat = Some o) by (vm_compute; reflexivity).
  assert (Hid : getSalonId o = Ok (lit "QWNtZTEgTWFpbiBTdA=="))
    by (vm_compute; reflexivity).
  assert (Hview : favoritesContainer_hidden (page st) = true)
    by (vm_compute; reflexivity).
  assert (Hindex : find_index (fun r => strict_equals (obj_get r (lit "rowIndex"))
                                                      (obj_get o (lit "rowIndex")))
                     (map (fun l => default [] (objects st !! l))
                          (default [] (arrays st !! currentSalons st)))
                   = Some 0%nat)
    by (vm_compute; reflexivity).
  assert (Htarget : default [] (arrays st !! currentSalons st) !! 0%nat = Some 0%nat)
    by (vm_compute; reflexivity).
  destruct (FavouriteFacts.write_success_updates_current_record
              st 0 0 o o _ 0 Ho Hid Hview Hindex Htarget Ho) as (Hrun & _).
  cbv zeta. rewrite Hrun. split; [reflexivity|]. vm_compute. reflexivity.
Defined.

Lemma identifier_names_the_text_witness :
  lit "QWNtZTEgTWFpbiBTdA==" = lit "Qm9sdDkgRWxtIFJk"
  <-> Pipeline.id_text acme_record = Pipeline.id_text bolt_record.
Proof.
  assert (Ha : getSalonId acme_record = Ok (lit "QWNtZTEgTWFpbiBTdA=="))
    by (vm_compute; reflexivity).
  assert (Hb : getSalonId bolt_record = Ok (lit "Qm9sdDkgRWxtIFJk"))
    by (vm_compute; reflexivity).
  exact (proj1 (IdFacts.identifier_names_the_text acme_record bolt_record _ _ Ha Hb)).
Defined.

Lemma lead_identifier_names_the_text_witness :
  lit "QUI=" = lit "QTElMjBNYWluJTIwU3QlMkMlMjBTcHJpbmdmaWVsZA=="
  <-> Pipeline.id_text lead = Pipeline.id_text lead_in_town.
Proof.
  assert (Ha : Scout.getBusinessId (JObj lead) = Ok (lit "QUI="))
    by (vm_compute; reflexivity).
  assert (Hb : Scout.getBusinessId (JObj lead_in_town)
               = Ok (lit "QTElMjBNYWluJTIwU3QlMkMlMjBTcHJpbmdmaWVsZA=="))
    by (vm_compute; reflexivity).
  assert (Hua : Pipeline.code_units (Pipeline.id_text lead) = true)
    by (vm_compute; reflexivity).
  assert (Hub : Pipeline.code_units (Pipeline.id_text lead_in_town) = true)
    by (vm_compute; reflexivity).
  exact (proj1 (IdFacts.lead_identifier_names_the_text
                  lead lead_in_town _ _ Hua Hub Ha Hb)).
Defined.



Lemma saveToSheets_always_reports_witness :
  exists d',
    Desk.saveToSheets (lit "1/1/2026") (Throw TypeError) (Ok tt) (at_rest [JObj lead])
    = (d', Ok tt)
    /\ Desk.saveToSheetsButton d' = Desk.setButtonLoadingState false.
Proof.
  assert (Hdata : Scout.currentBusinesses (Desk.view (at_rest [JObj lead])) <> [])
    by discriminate.
  destruct (SaveFacts.saveToSheets_always_reports
              (lit "1/1/2026") (Throw TypeError) (Ok tt) (at_rest [JObj lead]) Hdata)
    as (d' & Hrun & Hbutton & _).
  exists d'. split; [exact Hrun | exact Hbutton].
Defined.

Lemma saveToDrive_conversion_failure_locks_button_witness :
  Desk.saveToDrive (lit "2026-01-01T00:00:00.000Z") (Ok tt) (at_rest [JNull])
  = (Desk.set_saveToDriveButton (Desk.setButtonLoadingState true) (at_rest [JNull]),
     Throw TypeError).
Proof.
  assert (Hdata : Scout.currentBusinesses (Desk.view (at_rest [JNull])) <> [])
    by discriminate.
  exact (SaveFacts.saveToDrive_conversion_failure_locks_button
           (lit "2026-01-01T00:00:00.000Z") (Ok tt) (at_rest [JNull]) Hdata).
Defined.

Lemma empty_export_is_still_downloaded_witness :
  Desk.exportToCsv (at_rest [])
  = (Desk.set_status (lit "CSV file downloaded.") (Some Desk.success) 1
       (Desk.send (Desk.Download (lit "scout-ai-leads.csv") []) (at_rest [])),
     Ok tt).
Proof.
  exact (proj2 (proj2 (SaveFacts.empty_export_is_still_downloaded
                         (lit "1/1/2026") (Ok new_sheet) (Ok tt) (Ok tt)
                         (at_rest []) eq_refl))).
Defined.




End Cases.
